(** * DBConnector: connection lifecycle and query execution

    A shallow embedding of [src/db/db_connector.py] and of the helper
    [src/utils/data_helper.py], together with the properties of the
    connector stated in the specification.

    Layout:
    - [Py]: the Python string operations the connector relies on;
    - [DataHelper]: [escape_single_quotes];
    - [Driver]: exceptions, the external world (oracles for everything the
      connector does not decide itself) and the trace of external calls;
    - [Connector]: the methods of [DBConnector] in a state-and-error monad;
    - the theorems, grouped per method. *)

From Stdlib Require Import ZArith Lia Ascii String.
From stdpp Require Import gmap strings list pretty.

Set Default Proof Using "Type".

(* ===================================================================== *)
(** * Python string operations *)
(* ===================================================================== *)

(** Statement texts are modelled as [string]; a character is one [ascii].
    Only the operations used by the connector are defined, each with the
    behaviour of the corresponding [str] method. *)
Module Py.

Local Open Scope string_scope.
Local Open Scope nat_scope.

(** [str.isspace] on one character (ASCII part of the table). *)
Definition is_space (c : ascii) : bool :=
  let n := nat_of_ascii c in
  ((9 <=? n) && (n <=? 13)) || ((28 <=? n) && (n <=? 32)).

(** [str.lower], letter by letter. *)
Definition lower_char (c : ascii) : ascii :=
  let n := nat_of_ascii c in
  if (65 <=? n) && (n <=? 90) then ascii_of_nat (n + 32) else c.

Fixpoint lower (s : string) : string :=
  match s with
  | EmptyString => EmptyString
  | String c t => String (lower_char c) (lower t)
  end.

Fixpoint lstrip (s : string) : string :=
  match s with
  | EmptyString => EmptyString
  | String c t => if is_space c then lstrip t else s
  end.

(** [rstrip] keeps a character when it is not a space or when something
    survives to its right. *)
Fixpoint rstrip (s : string) : string :=
  match s with
  | EmptyString => EmptyString
  | String c t =>
      match rstrip t with
      | EmptyString => if is_space c then EmptyString else String c EmptyString
      | t' => String c t'
      end
  end.

Definition strip (s : string) : string := rstrip (lstrip s).

(** Truthiness of a string: non-empty. *)
Definition truthy (s : string) : bool :=
  match s with EmptyString => false | _ => true end.

(** [s.split()] with no separator: the maximal runs of non-space
    characters. [cur] is the run being read, reversed. *)
Fixpoint split_ws_go (cur : list ascii) (s : string) : list string :=
  match s with
  | EmptyString =>
      match cur with
      | [] => []
      | _ => [string_of_list_ascii (rev cur)]
      end
  | String c t =>
      if is_space c then
        match cur with
        | [] => split_ws_go [] t
        | _ => string_of_list_ascii (rev cur) :: split_ws_go [] t
        end
      else split_ws_go (c :: cur) t
  end.

Definition split_ws (s : string) : list string := split_ws_go [] s.

(** [sub in s]. *)
Fixpoint contains (sub s : string) : bool :=
  String.prefix sub s ||
  match s with
  | EmptyString => false
  | String _ t => contains sub t
  end.

(** [s.split(sep)] for a non-empty separator: occurrences are found from
    left to right and do not overlap. [skip] counts the characters of a
    separator occurrence still to be dropped. *)
Fixpoint split_go (sep : string) (skip : nat) (cur : list ascii) (s : string)
  : list string :=
  match s with
  | EmptyString => [string_of_list_ascii (rev cur)]
  | String c t =>
      match skip with
      | S k => split_go sep k cur t
      | O =>
          if String.prefix sep s
          then string_of_list_ascii (rev cur)
                 :: split_go sep (String.length sep - 1) [] t
          else split_go sep 0 (c :: cur) t
      end
  end.

Definition split (sep s : string) : list string := split_go sep 0 [] s.

(** [sep.join(l)]. *)
Definition join (sep : string) (l : list string) : string := String.concat sep l.

(** [s[:n]]. *)
Definition take (n : nat) (s : string) : string := String.substring 0 n s.

(** [str(n)] for an integer. *)
Definition str_of_Z (n : Z) : string := pretty n.

End Py.

(* ===================================================================== *)
(** * utils/data_helper.py *)
(* ===================================================================== *)

Module DataHelper.

Local Open Scope string_scope.
Local Open Scope nat_scope.

(** The apostrophe. *)
Definition quote : ascii := "'"%char.

(** [\w] on ASCII text: letters, digits and the underscore. *)
Definition ascii_word (c : ascii) : bool :=
  let n := nat_of_ascii c in
  ((48 <=? n) && (n <=? 57)) || ((65 <=? n) && (n <=? 90))
  || ((97 <=? n) && (n <=? 122)) || (n =? 95).

Section Escape.

(** The table behind [\w] belongs to the [re] module; the development is
    carried out for any table and instantiated with [ascii_word]. *)
Variable is_word : ascii -> bool.

(** [(?<=\w)]: the character before the current position is a word
    character. [prev] is that character, if any. *)
Definition lookbehind_word (prev : option ascii) : bool :=
  match prev with
  | Some p => is_word p
  | None => false
  end.

(** [(?=\w)]: the character after the current position is a word
    character. [rest] is the text after the current position. *)
Definition lookahead_word (rest : string) : bool :=
  match rest with
  | String n _ => is_word n
  | EmptyString => false
  end.

(** [re.sub(r"(?<=\w)'(?=\w)", "''", text)]: the scan goes from left to
    right; a match consumes exactly the apostrophe, both assertions look
    at the subject text, and a position without a match is copied. *)
Fixpoint sub_scan (prev : option ascii) (s : string) : string :=
  match s with
  | EmptyString => EmptyString
  | String c rest =>
      if lookbehind_word prev && Ascii.eqb c quote && lookahead_word rest
      then String quote (String quote (sub_scan (Some c) rest))
      else String c (sub_scan (Some c) rest)
  end.

(** [escape_single_quotes]; the argument is always a [str] here, so the
    [isinstance] guard is the identity branch that is never taken. *)
Definition escape_single_quotes (text : string) : string :=
  sub_scan None text.

(** ** The specification's reading, position by position *)

(** The character at position [i], when there is one. *)
Definition char_at (text : string) (i : nat) : option ascii :=
  String.get i text.

Definition word_at (text : string) (i : nat) : bool :=
  match char_at text i with
  | Some c => is_word c
  | None => false
  end.

(** Position [i] holds an apostrophe with a word character on its left
    and a word character on its right. *)
Definition quote_between_words (text : string) (i : nat) : bool :=
  match i with
  | O => false
  | S j =>
      word_at text j
      && match char_at text i with
         | Some c => Ascii.eqb c quote
         | None => false
         end
      && word_at text (S i)
  end.

(** What position [i] of the input contributes to the output. *)
Definition image_at (text : string) (i : nat) : string :=
  match char_at text i with
  | Some c =>
      if quote_between_words text i
      then String quote (String quote EmptyString)
      else String c EmptyString
  | None => EmptyString
  end.

(** The escaped text according to the specification. *)
Definition escaped_by_position (text : string) : string :=
  String.concat "" (map (image_at text) (seq 0 (String.length text))).

End Escape.

End DataHelper.

(* ===================================================================== *)
(** * Theorems: escape_single_quotes *)
(* ===================================================================== *)

Module DataHelperFacts.

Import DataHelper.
Local Open Scope string_scope.
Local Open Scope nat_scope.

Example escape_obrien :
  escape_single_quotes ascii_word "SELECT * FROM t WHERE n = 'O'Brien'"
  = "SELECT * FROM t WHERE n = 'O''Brien'".
Proof. reflexivity. Qed.

Example escape_already_doubled :
  escape_single_quotes ascii_word "name = 'O''Brien'" = "name = 'O''Brien'".
Proof. reflexivity. Qed.

Section Facts.

Variable is_word : ascii -> bool.

(** The images of the [n] positions of [text] from position [k] on. *)
Definition images_from (text : string) (k n : nat) : string :=
  String.concat "" (map (image_at is_word text) (seq k n)).

Lemma append_cons (a : ascii) (x y : string) :
  String a x +:+ y = String a (x +:+ y).
Proof. reflexivity. Qed.

Lemma append_empty_r (x : string) : x +:+ "" = x.
Proof.
  induction x as [|a x IH]; [reflexivity|].
  rewrite append_cons, IH. reflexivity.
Qed.

Lemma concat_empty_cons (x : string) (l : list string) :
  String.concat "" (x :: l) = x +:+ String.concat "" l.
Proof.
  destruct l as [|y l]; cbn [String.concat].
  - symmetry. apply append_empty_r.
  - reflexivity.
Qed.

Lemma get_snoc_app (pre : string) (c : ascii) (rest : string) :
  String.get (String.length pre) (pre +:+ String c rest) = Some c.
Proof.
  induction pre as [|a pre IH]; [reflexivity|].
  rewrite append_cons. exact IH.
Qed.

Lemma length_snoc (pre : string) (c : ascii) :
  String.length (pre +:+ String c EmptyString) = S (String.length pre).
Proof.
  induction pre as [|a pre IH]; [reflexivity|].
  rewrite append_cons. cbn [String.length]. congruence.
Qed.

Lemma app_snoc_assoc (pre : string) (c : ascii) (rest : string) :
  (pre +:+ String c EmptyString) +:+ rest = pre +:+ String c rest.
Proof.
  induction pre as [|a pre IH]; [reflexivity|].
  rewrite !append_cons. congruence.
Qed.

(** The last character of a text, as the scan sees it. *)
Definition last_char (pre : string) : option ascii :=
  match String.length pre with
  | O => None
  | S j => String.get j pre
  end.

Lemma last_char_snoc (pre : string) (c : ascii) :
  last_char (pre +:+ String c EmptyString) = Some c.
Proof.
  unfold last_char. rewrite length_snoc.
  rewrite <- (get_snoc_app pre c EmptyString). reflexivity.
Qed.

Lemma get_app_left (pre rest : string) (j : nat) :
  j < String.length pre -> String.get j (pre +:+ rest) = String.get j pre.
Proof.
  revert j. induction pre as [|a pre IH]; cbn [String.length]; intros j Hj;
    [lia|].
  rewrite append_cons.
  destruct j; [reflexivity|]. apply IH. lia.
Qed.

Lemma lookbehind_last (pre : string) (c : ascii) (rest : string) :
  lookbehind_word is_word (last_char pre)
  = match String.length pre with
    | O => false
    | S j => word_at is_word (pre +:+ String c rest) j
    end.
Proof.
  unfold last_char, word_at, char_at.
  destruct (String.length pre) as [|j] eqn:E; [reflexivity|].
  rewrite get_app_left by lia.
  destruct (String.get j pre); reflexivity.
Qed.

Lemma lookahead_next (pre : string) (c : ascii) (rest : string) :
  lookahead_word is_word rest
  = word_at is_word (pre +:+ String c rest) (S (String.length pre)).
Proof.
  unfold word_at, char_at.
  induction pre as [|a pre IH].
  - destruct rest; reflexivity.
  - rewrite append_cons. exact IH.
Qed.

(** The scan of a suffix produces the images of the suffix's positions. *)
Lemma sub_scan_images (s pre : string) :
  sub_scan is_word (last_char pre) s
  = images_from (pre +:+ s) (String.length pre) (String.length s).
Proof.
  revert pre. induction s as [|c rest IH]; intros pre; [reflexivity|].
  unfold images_from. cbn [String.length seq map sub_scan].
  rewrite concat_empty_cons.
  specialize (IH (pre +:+ String c EmptyString)).
  rewrite last_char_snoc, app_snoc_assoc, length_snoc in IH.
  unfold images_from in IH. rewrite <- IH. clear IH.
  unfold image_at, char_at. rewrite get_snoc_app.
  unfold quote_between_words, char_at. rewrite get_snoc_app.
  rewrite (lookbehind_last pre c rest), (lookahead_next pre c rest).
  destruct (String.length pre) as [|j]; cbn [lookbehind_word andb].
  - reflexivity.
  - destruct (word_at is_word (pre +:+ String c rest) j
              && Ascii.eqb c quote
              && word_at is_word (pre +:+ String c rest) (S (S j)));
      reflexivity.
Qed.


End Facts.

End DataHelperFacts.

(* ===================================================================== *)
(** * The driver: exceptions, the outside world, the trace *)
(* ===================================================================== *)

Module Driver.

Local Open Scope string_scope.

(** ** Exceptions

    Only subclasses of [Exception] are modelled: every handler of the
    connector is an [except Exception] or narrower. *)
Inductive exn : Type :=
| DeadlockDetected          (* errors.lookup(errorcodes.DEADLOCK_DETECTED) *)
| InFailedSqlTransaction    (* errors.lookup(errorcodes.IN_FAILED_SQL_TRANSACTION) *)
| ConnectionFailure         (* errors.lookup(errorcodes.CONNECTION_FAILURE) *)
| OperationalError          (* psycopg2.OperationalError, no finer class *)
| InterfaceError            (* use of a closed connection *)
| ProgrammingError          (* any other error reported by the server *)
| PoolError                 (* psycopg2.pool.PoolError *)
| IndexError
| ValueError
| AttributeError
| PyException (msg : string).   (* Exception("...") raised by the connector *)

(** [isinstance(e, OperationalError)]. In psycopg2 the classes of SQLSTATE
    08 (connection exceptions) and 40 (transaction rollback, which holds the
    deadlock) derive from [OperationalError]; class 25 (the failed
    transaction state) derives from [InternalError]. *)
Definition is_OperationalError (e : exn) : bool :=
  match e with
  | DeadlockDetected | ConnectionFailure | OperationalError => true
  | _ => false
  end.

(** The [except (...)] clause of the retry loop of [run_query]. *)
Definition retryable (e : exn) : bool :=
  match e with
  | DeadlockDetected | InFailedSqlTransaction | ConnectionFailure => true
  | _ => is_OperationalError e
  end.

(** [isinstance(e, (OperationalError, errors.lookup(CONNECTION_FAILURE)))]. *)
Definition connection_class (e : exn) : bool :=
  is_OperationalError e || match e with ConnectionFailure => true | _ => false end.

(** ** Values *)

(** Query parameters and row fields. A row of [batch_insert] is a tuple. *)
#[local] Unset Elimination Schemes.
Inductive pyval : Type :=
| PNone
| PInt (z : Z)
| PStr (s : string)
| PTuple (fields : list pyval).
#[local] Set Elimination Schemes.

(** A row mapping, [dict(zip(column_names, row))]: a later field with the
    same column name replaces the value and keeps the position. *)
Definition row_mapping := list (string * pyval).

Fixpoint dict_set (k : string) (v : pyval) (d : row_mapping) : row_mapping :=
  match d with
  | [] => [(k, v)]
  | (k', v') :: t =>
      if String.eqb k k' then (k', v) :: t else (k', v') :: dict_set k v t
  end.

Fixpoint zip {A B} (xs : list A) (ys : list B) : list (A * B) :=
  match xs, ys with
  | x :: xs', y :: ys' => (x, y) :: zip xs' ys'
  | _, _ => []
  end.

Definition dict_of_pairs (ps : list (string * pyval)) : row_mapping :=
  fold_left (fun d kv => dict_set (fst kv) (snd kv) d) ps [].

(** What [run_query] returns: [None], one mapping, a list of mappings, or
    the boolean of [batch_insert]. *)
Inductive qresult : Type :=
| RNone
| RRow (r : row_mapping)
| RRows (rs : list row_mapping)
| RBool (b : bool).

Inductive fetch_mode : Type := FetchOne | FetchAll.

(** ** The trace of external calls *)

Inductive log_level : Type := Info | Warning | Error.

(** Which [time.sleep] is running. *)
Inductive sleep_site : Type :=
| SettleWait       (* time.sleep(3) after spawning the forwarding process *)
| RetryDelay       (* time.sleep(self.retry_delay) *)
| Backoff.         (* time.sleep(0.2 * (2 ** attempt)) *)

(** Connections, pools and processes are named by the order of creation.
    A call is recorded when it is made, whether or not it raises. *)
Inductive event : Type :=
| EvLog (level : log_level) (msg : string)
| EvSleep (site : sleep_site) (ms : Z)
| EvProbe (port : Z)
| EvKubeBackup
| EvLogin
| EvSpawn (pid : nat) (port : Z)
| EvTerminate (pid : nat)
| EvConnect (host : string) (port : Z)
| EvPoolCreate (min_connections max_connections : Z)
| EvPoolCloseAll (pool : nat)
| EvConnClose (conn : nat)
| EvSetIsolation (conn : nat) (level : option Z)
| EvCursorClose (conn : nat)
| EvExecute (conn : nat) (sql : string) (params : option (list pyval))
| EvExecuteMany (conn : nat) (sql : string) (batch : list pyval)
| EvCommit (conn : nat)
| EvRollback (conn : nat).

(** ** The outside world

    Everything the connector does not decide: random numbers, the state of
    the local ports and of the cluster configuration file, the fate of the
    spawned processes, and whether each call into the driver raises. Each
    oracle is indexed by the number of earlier calls of its kind. *)

(** The calls answered by an oracle. *)
Inductive op : Type :=
| OpRandint | OpProbe | OpKube | OpLogin | OpSpawn | OpPoll
| OpConnect | OpPoolCreate | OpPoolCloseAll | OpConnClose | OpTerminate
| OpExecute | OpExecuteMany | OpCommit.

#[global] Instance op_eq_dec : EqDecision op.
Proof. solve_decision. Defined.

Inductive kube_file : Type := KubeAbsent | KubeInvalid | KubeValid.

(** The cursor after a successful [execute]. *)
Record exec_out : Type := {
  description : option (list string);   (* cursor.description, column names *)
  rows : list (list pyval);             (* what fetchone / fetchall deliver *)
  slow : bool                           (* time.time() - start_time > 5 *)
}.

Inductive exec_outcome : Type :=
| ExecRaise (e : exn)
| ExecOk (out : exec_out).

Record Env : Type := {
  random : nat -> Z;                 (* source of randint *)
  port_in_use : nat -> bool;         (* connect_ex(('localhost', port)) == 0 *)
  kube_config : nat -> kube_file;    (* ~/.kube/config when inspected *)
  login_returncode : nat -> Z;       (* oc login *)
  poll_alive : nat -> bool;          (* process.poll() is None *)
  call_fails : op -> nat -> option exn;   (* the call raises *)
  execute_outcome : nat -> exec_outcome;  (* cursor.execute *)
  str_hash : string -> Z;            (* hash(query) *)
  re_word : ascii -> bool            (* the table behind \w *)
}.

(** [randint(a, b)]: a value of the interval, chosen by the world. *)
Definition randint (env : Env) (a b : Z) (k : nat) : Z :=
  (a + random env k mod (b - a + 1))%Z.

(** ** Connection objects and the connector *)

(** psycopg2's isolation levels; [None] is ISOLATION_LEVEL_DEFAULT. *)
Definition ISOLATION_LEVEL_READ_COMMITTED : option Z := Some 1%Z.
Definition ISOLATION_LEVEL_DEFAULT : option Z := None.

Record conn_data : Type := {
  isolation_level : option Z;
  closed : bool
}.

(** The fields of a [DBConnector], followed by the part of the world that
    changes: the connection objects, the number of calls answered by each
    oracle, and the trace. *)
Record State : Type := {
  local_port : Z;
  connection : option nat;
  connection_pool : option nat;
  port_forward_process : option nat;
  max_retries : Z;
  retry_delay : Z;                      (* in milliseconds *)
  is_ci : bool;
  prepared_statements : gset string;
  conns : gmap nat conn_data;
  calls : op -> nat;
  trace : list event
}.

Definition set_local_port (v : Z) (s : State) : State :=
  {| local_port := v; connection := connection s;
     connection_pool := connection_pool s;
     port_forward_process := port_forward_process s;
     max_retries := max_retries s; retry_delay := retry_delay s;
     is_ci := is_ci s; prepared_statements := prepared_statements s;
     conns := conns s; calls := calls s; trace := trace s |}.

Definition set_connection (v : option nat) (s : State) : State :=
  {| local_port := local_port s; connection := v;
     connection_pool := connection_pool s;
     port_forward_process := port_forward_process s;
     max_retries := max_retries s; retry_delay := retry_delay s;
     is_ci := is_ci s; prepared_statements := prepared_statements s;
     conns := conns s; calls := calls s; trace := trace s |}.

Definition set_connection_pool (v : option nat) (s : State) : State :=
  {| local_port := local_port s; connection := connection s;
     connection_pool := v;
     port_forward_process := port_forward_process s;
     max_retries := max_retries s; retry_delay := retry_delay s;
     is_ci := is_ci s; prepared_statements := prepared_statements s;
     conns := conns s; calls := calls s; trace := trace s |}.

Definition set_port_forward_process (v : option nat) (s : State) : State :=
  {| local_port := local_port s; connection := connection s;
     connection_pool := connection_pool s;
     port_forward_process := v;
     max_retries := max_retries s; retry_delay := retry_delay s;
     is_ci := is_ci s; prepared_statements := prepared_statements s;
     conns := conns s; calls := calls s; trace := trace s |}.

Definition set_prepared_statements (v : gset string) (s : State) : State :=
  {| local_port := local_port s; connection := connection s;
     connection_pool := connection_pool s;
     port_forward_process := port_forward_process s;
     max_retries := max_retries s; retry_delay := retry_delay s;
     is_ci := is_ci s; prepared_statements := v;
     conns := conns s; calls := calls s; trace := trace s |}.

Definition set_conns (v : gmap nat conn_data) (s : State) : State :=
  {| local_port := local_port s; connection := connection s;
     connection_pool := connection_pool s;
     port_forward_process := port_forward_process s;
     max_retries := max_retries s; retry_delay := retry_delay s;
     is_ci := is_ci s; prepared_statements := prepared_statements s;
     conns := v; calls := calls s; trace := trace s |}.

Definition set_calls (v : op -> nat) (s : State) : State :=
  {| local_port := local_port s; connection := connection s;
     connection_pool := connection_pool s;
     port_forward_process := port_forward_process s;
     max_retries := max_retries s; retry_delay := retry_delay s;
     is_ci := is_ci s; prepared_statements := prepared_statements s;
     conns := conns s; calls := v; trace := trace s |}.

Definition set_trace (v : list event) (s : State) : State :=
  {| local_port := local_port s; connection := connection s;
     connection_pool := connection_pool s;
     port_forward_process := port_forward_process s;
     max_retries := max_retries s; retry_delay := retry_delay s;
     is_ci := is_ci s; prepared_statements := prepared_statements s;
     conns := conns s; calls := calls s; trace := v |}.

(** ** The monad: state passing with exceptions *)

Inductive result (A : Type) : Type :=
| Ok (a : A)
| Raise (e : exn).
Arguments Ok {A} a.
Arguments Raise {A} e.

Definition M (A : Type) : Type := State -> result A * State.

Definition ret {A} (a : A) : M A := fun s => (Ok a, s).

Definition raise {A} (e : exn) : M A := fun s => (Raise e, s).

Definition bind {A B} (m : M A) (k : A -> M B) : M B :=
  fun s =>
    match m s with
    | (Ok a, s') => k a s'
    | (Raise e, s') => (Raise e, s')
    end.

(** [try: m  except Exception as e: handler e]. *)
Definition try_except {A} (m : M A) (handler : exn -> M A) : M A :=
  fun s =>
    match m s with
    | (Ok a, s') => (Ok a, s')
    | (Raise e, s') => handler e s'
    end.

(** [try: m  finally: fin]. An exception of [fin] replaces the outcome. *)
Definition try_finally {A} (m : M A) (fin : M unit) : M A :=
  fun s =>
    match m s with
    | (r, s') =>
        match fin s' with
        | (Ok _, s'') => (r, s'')
        | (Raise e, s'') => (Raise e, s'')
        end
    end.

Definition get : M State := fun s => (Ok s, s).

Definition modify (f : State -> State) : M unit := fun s => (Ok tt, f s).

End Driver.

(* ===================================================================== *)
(** * db/db_connector.py *)
(* ===================================================================== *)

Module Connector.

Import Driver.
Local Open Scope string_scope.
Local Open Scope nat_scope.

Notation "'let*' x ':=' m 'in' k" := (bind m (fun x => k))
  (at level 10, x pattern, m at level 100, k at level 200).
Notation "m ;;; k" := (bind m (fun _ => k))
  (at level 100, k at level 200, right associativity).

(** ** Loops and ranges *)

(** A [for] loop whose body may leave it with a value ([break] or
    [return]); [None] reports that the sequence was exhausted, which is
    where the [else] clause of the loop runs. *)
Fixpoint for_loop {A B} (xs : list A) (body : A -> M (option B))
  : M (option B) :=
  match xs with
  | [] => ret None
  | x :: t =>
      let* r := body x in
      match r with
      | Some b => ret (Some b)
      | None => for_loop t body
      end
  end.

(** [range(start, stop)]. *)
Definition range2 (start stop : Z) : list Z :=
  map (fun i => (start + Z.of_nat i)%Z) (seq 0 (Z.to_nat (stop - start))).

(** [range(start, stop, step)] for a positive step, by iteration; at most
    [fuel] elements. *)
Fixpoint range_up (fuel : nat) (i stop step : Z) : list Z :=
  match fuel with
  | O => []
  | S f => if (i <? stop)%Z then i :: range_up f (i + step)%Z stop step else []
  end.

Fixpoint range_down (fuel : nat) (i stop step : Z) : list Z :=
  match fuel with
  | O => []
  | S f => if (stop <? i)%Z then i :: range_down f (i + step)%Z stop step else []
  end.

(** [range(start, stop, step)]: a zero step is a [ValueError]. The number
    of elements never exceeds the distance between the bounds. *)
Definition range3 (start stop step : Z) : M (list Z) :=
  if (step =? 0)%Z then raise ValueError
  else if (0 <? step)%Z
       then ret (range_up (Z.to_nat (stop - start)) start stop step)
       else ret (range_down (Z.to_nat (start - stop)) start stop step).

(** [l[i:j]] for [0 <= i <= j]. *)
Definition slice {A} (l : list A) (i j : Z) : list A :=
  firstn (Z.to_nat (j - i)) (skipn (Z.to_nat i) l).

(** [l[i]] for an index counted from the left. *)
Definition index {A} (l : list A) (i : nat) : M A :=
  match nth_error l i with
  | Some x => ret x
  | None => raise IndexError
  end.

(** ** Primitive calls *)

Definition emit (e : event) : M unit :=
  modify (fun s => set_trace (trace s ++ [e]) s).

Definition log (level : log_level) (msg : string) : M unit :=
  emit (EvLog level msg).

Definition sleep (site : sleep_site) (ms : Z) : M unit :=
  emit (EvSleep site ms).

(** The number of earlier calls answered by the oracle of [o]. *)
Definition tick (o : op) : M nat :=
  fun s =>
    (Ok (calls s o),
     set_calls (fun o' => if decide (o' = o) then S (calls s o) else calls s o') s).

(** [str(e)], as far as the connector's own messages need it. *)
Definition exn_str (e : exn) : string :=
  match e with
  | DeadlockDetected => "deadlock detected"
  | InFailedSqlTransaction => "current transaction is aborted"
  | ConnectionFailure => "connection failure"
  | OperationalError => "operational error"
  | InterfaceError => "connection already closed"
  | ProgrammingError => "programming error"
  | PoolError => "connection pool is closed"
  | IndexError => "list index out of range"
  | ValueError => "range() arg 3 must not be zero"
  | AttributeError => "'NoneType' object has no attribute"
  | PyException msg => msg
  end.

Section Methods.

Variable env : Env.

(** A call into the driver that may raise. *)
Definition call (o : op) (ev : event) : M unit :=
  emit ev ;;;
  let* k := tick o in
  match call_fails env o k with
  | Some e => raise e
  | None => ret tt
  end.

Definition conn_closed (s : State) (c : nat) : bool :=
  match conns s !! c with
  | Some d => closed d
  | None => true
  end.

Definition conn_isolation_level (s : State) (c : nat) : option Z :=
  match conns s !! c with
  | Some d => isolation_level d
  | None => ISOLATION_LEVEL_DEFAULT
  end.

(** [conn.set_isolation_level(level)]. *)
Definition set_isolation_level (c : nat) (level : option Z) : M unit :=
  emit (EvSetIsolation c level) ;;;
  modify (fun s =>
    set_conns (<[c := {| isolation_level := level;
                         closed := conn_closed s c |}]> (conns s)) s).

(** [conn.close()]. *)
Definition close (c : nat) : M unit :=
  call OpConnClose (EvConnClose c) ;;;
  modify (fun s =>
    set_conns (<[c := {| isolation_level := conn_isolation_level s c;
                         closed := true |}]> (conns s)) s).

Definition commit (c : nat) : M unit := call OpCommit (EvCommit c).

Definition rollback (c : nat) : M unit := emit (EvRollback c).

(** [self.connection.<method>]: the attribute of [None] does not exist. *)
Definition self_connection : M nat :=
  let* s := get in
  match connection s with
  | Some c => ret c
  | None => raise AttributeError
  end.

(** [self.connection.cursor()]; the cursor is named by its connection. *)
Definition cursor : M nat :=
  let* c := self_connection in
  let* s := get in
  if conn_closed s c then raise InterfaceError else ret c.

Definition cursor_close (cur : nat) : M unit := emit (EvCursorClose cur).

(** [cursor.execute(sql, params)]. *)
Definition execute (cur : nat) (sql : string) (params : option (list pyval))
  : M exec_out :=
  emit (EvExecute cur sql params) ;;;
  let* k := tick OpExecute in
  match execute_outcome env k with
  | ExecRaise e => raise e
  | ExecOk out => ret out
  end.

(** [cursor.executemany(sql, batch)]. *)
Definition executemany (cur : nat) (sql : string) (batch : list pyval)
  : M unit :=
  call OpExecuteMany (EvExecuteMany cur sql batch).

(** ** get_random_available_port (lines 64-77) *)

Definition probe_port : M (option Z) :=
  let* k := tick OpRandint in
  let port := randint env 30000 40000 k in
  let* j := tick OpProbe in
  emit (EvProbe port) ;;;
  if port_in_use env j then ret None else ret (Some port).

Definition get_random_available_port : M Z :=
  let* r := for_loop (seq 0 100) (fun _ => probe_port) in
  match r with
  | Some port => ret port
  | None =>
      raise (PyException "Failed to find an available port for port-forwarding.")
  end.

(** ** __init__ (lines 28-62) *)

(** [gitlab_ci] is [os.getenv('GITLAB_CI') == 'true']. *)
Definition init (pod_name : string) (gitlab_ci : bool)
    (max_retries' retry_delay' : Z) (local_port' : option Z) : M unit :=
  let* port :=
    match local_port' with
    | Some p => if (p =? 0)%Z then get_random_available_port else ret p
    | None => get_random_available_port
    end in
  modify (fun s =>
    {| local_port := port; connection := None; connection_pool := None;
       port_forward_process := None;
       max_retries := max_retries'; retry_delay := retry_delay';
       is_ci := gitlab_ci && String.prefix "operational" pod_name;
       prepared_statements := ∅;
       conns := conns s; calls := calls s; trace := trace s |}).

(** ** port_forward_postgres (lines 139-228) *)

Definition validate_kube_config : M bool :=
  let* k := tick OpKube in
  match kube_config env k with
  | KubeValid => log Info "Kubernetes config file is valid" ;;; ret true
  | KubeInvalid => log Error "Invalid Kubernetes config file" ;;; ret false
  | KubeAbsent => ret false
  end.

(** Step 1: back up a configuration file that does not validate. *)
Definition backup_kube_config : M unit :=
  let* valid := validate_kube_config in
  if valid then ret tt
  else
    log Warning "Invalid kube config detected. Backing up and regenerating." ;;;
    let* k := tick OpKube in
    match kube_config env k with
    | KubeAbsent => ret tt
    | _ =>
        emit EvKubeBackup ;;;
        log Info "Backed up corrupted kube config"
    end.

(** Step 2: one login attempt; [Some tt] is the [break]. *)
Definition login_attempt (attempt : Z) : M (option unit) :=
  log Info ("Attempt " +:+ Py.str_of_Z attempt +:+ ": Logging in to OpenShift server") ;;;
  let* k := tick OpLogin in
  emit EvLogin ;;;
  let* ok :=
    if (login_returncode env k =? 0)%Z then validate_kube_config
    else ret false in
  if ok then
    log Info "Successfully logged into OpenShift with a valid kube config." ;;;
    ret (Some tt)
  else
    log Warning ("Login attempt " +:+ Py.str_of_Z attempt +:+ " failed") ;;;
    let* s := get in
    sleep RetryDelay (retry_delay s) ;;;
    ret None.

Definition login : M unit :=
  let* s := get in
  let attempts := range2 1 (max_retries s + 1) in
  let* r := for_loop attempts login_attempt in
  match r with
  | Some _ => ret tt
  | None =>
      log Error "Failed to log in to OpenShift after multiple attempts." ;;;
      match attempts with
      | [] => raise AttributeError     (* login_process is still None *)
      | _ => raise (PyException "Login to OpenShift failed after multiple attempts")
      end
  end.

(** Step 3: one forwarding attempt; [Some pid] is the [return process]. *)
Definition forward_attempt (attempt : Z) : M (option nat) :=
  let* port := get_random_available_port in
  modify (set_local_port port) ;;;
  log Info ("Attempt " +:+ Py.str_of_Z attempt +:+ ": Starting port-forward to localhost:"
            +:+ Py.str_of_Z port) ;;;
  let* pid := tick OpSpawn in
  emit (EvSpawn pid port) ;;;
  sleep SettleWait 3000 ;;;
  let* k := tick OpPoll in
  if poll_alive env k then
    log Info ("Port forwarding successful. PostgreSQL is accessible at localhost:"
              +:+ Py.str_of_Z port) ;;;
    ret (Some pid)
  else
    log Warning "Port-forwarding failed. Retrying with a different port." ;;;
    call OpTerminate (EvTerminate pid) ;;;
    let* s := get in
    sleep RetryDelay (retry_delay s) ;;;
    ret None.

Definition port_forwarding_failed : string :=
  "Port-forwarding failed after multiple attempts.".

Definition forward : M nat :=
  let* s := get in
  let* r := for_loop (range2 1 (max_retries s + 1)) forward_attempt in
  match r with
  | Some pid => ret pid
  | None =>
      log Error "Failed to establish port-forwarding after multiple attempts." ;;;
      raise (PyException port_forwarding_failed)
  end.

Definition port_forward_postgres : M nat :=
  backup_kube_config ;;;
  login ;;;
  forward.

(** ** is_port_forwarding_running (lines 230-239) *)

Definition is_port_forwarding_running : M bool :=
  let* s := get in
  match port_forward_process s with
  | Some _ => let* k := tick OpPoll in ret (poll_alive env k)
  | None => ret false
  end.

(** ** connect_to_postgres (lines 241-282) *)

Definition CI_NODE_PORT_IP : string := "10.129.71.49".

Definition target (s : State) : string * Z :=
  if is_ci s then (CI_NODE_PORT_IP, 31021%Z) else ("localhost", local_port s).

(** [psycopg2.connect] and the version query count as one call; the new
    connection object starts open, at the default isolation level. *)
Definition connect_to_postgres : M nat :=
  let* s := get in
  let '(host, port) := target s in
  try_except
    (let* c := tick OpConnect in
     emit (EvConnect host port) ;;;
     match call_fails env OpConnect c with
     | Some e => raise e
     | None =>
         modify (fun s =>
           set_conns (<[c := {| isolation_level := ISOLATION_LEVEL_DEFAULT;
                                closed := false |}]> (conns s)) s) ;;;
         log Info "Connected to PostgreSQL" ;;;
         ret c
     end)
    (fun e =>
       log Error ("Error while connecting to PostgreSQL: " +:+ exn_str e) ;;;
       raise e).

(** ** create_connection_pool (lines 284-314) *)

Definition create_connection_pool (min_connections max_connections : Z)
  : M nat :=
  let* p := tick OpPoolCreate in
  emit (EvPoolCreate min_connections max_connections) ;;;
  match call_fails env OpPoolCreate p with
  | Some e => raise e
  | None =>
      modify (set_connection_pool (Some p)) ;;;
      log Info ("Created connection pool with " +:+ Py.str_of_Z min_connections
                +:+ " to " +:+ Py.str_of_Z max_connections +:+ " connections") ;;;
      ret p
  end.

Definition closeall (p : nat) : M unit :=
  call OpPoolCloseAll (EvPoolCloseAll p).

Definition terminate (pid : nat) : M unit :=
  call OpTerminate (EvTerminate pid).

(** ** __enter__ (lines 79-115) *)

Definition enter_attempt (n attempt : Z) : M (option unit) :=
  try_except
    (let* running := is_port_forwarding_running in
     let* s := get in
     (if negb running && negb (is_ci s)
      then raise (PyException "Port-forwarding process is not running.")
      else ret tt) ;;;
     log Info ("Attempt " +:+ Py.str_of_Z attempt +:+ ": Trying to connect to the database...") ;;;
     let* c := connect_to_postgres in
     modify (set_connection (Some c)) ;;;
     log Info ("Successfully connected to the database on attempt "
               +:+ Py.str_of_Z attempt) ;;;
     set_isolation_level c ISOLATION_LEVEL_READ_COMMITTED ;;;
     create_connection_pool 1 10 ;;;
     ret (Some tt))
    (fun e =>
       log Warning ("Attempt " +:+ Py.str_of_Z attempt +:+ " failed: " +:+ exn_str e) ;;;
       if (attempt <? n)%Z then
         let* s := get in
         sleep RetryDelay (retry_delay s) ;;; ret None
       else
         raise (PyException "Failed to connect to the database after multiple retries.")).

Definition enter : M unit :=
  let* s := get in
  (if negb (is_ci s) then
     log Info "Attempting to start port-forwarding..." ;;;
     let* pid := port_forward_postgres in
     modify (set_port_forward_process (Some pid))
   else ret tt) ;;;
  let* s := get in
  let n := max_retries s in
  for_loop (range2 1 (n + 1)) (enter_attempt n) ;;;
  ret tt.

(** ** __exit__ (lines 117-137) *)

(** Lines 125-127. *)
Definition exit_pool : M unit :=
  let* s := get in
  match connection_pool s with
  | Some p => closeall p ;;; log Info "PostgreSQL connection pool closed."
  | None => ret tt
  end.

(** Lines 130-132. *)
Definition exit_connection : M unit :=
  let* s := get in
  match connection s with
  | Some c => close c ;;; log Info "PostgreSQL connection closed."
  | None => ret tt
  end.

(** Lines 135-137. *)
Definition exit_tunnel : M unit :=
  let* s := get in
  match port_forward_process s with
  | Some pid =>
      if negb (is_ci s)
      then terminate pid ;;; log Info "Port-forwarding process terminated."
      else ret tt
  | None => ret tt
  end.

Definition exit : M unit :=
  exit_pool ;;;
  exit_connection ;;;
  exit_tunnel.

(** ** reconnect (lines 334-356) *)

Definition reconnecting : string :=
  "Reconnecting to port-forwarding and database...".

Definition reconnect : M unit :=
  log Info reconnecting ;;;
  let* s := get in
  match port_forward_process s with
  | Some pid =>
      if negb (is_ci s)
      then terminate pid ;;;
           log Info "Terminated the previous port-forwarding process."
      else ret tt
  | None => ret tt
  end ;;;
  let* s := get in
  (if negb (is_ci s) then
     let* pid := port_forward_postgres in
     modify (set_port_forward_process (Some pid))
   else ret tt) ;;;
  let* c := connect_to_postgres in
  modify (set_connection (Some c)) ;;;
  let* s := get in
  match connection_pool s with
  | Some p => closeall p ;;; create_connection_pool 1 10 ;;; ret tt
  | None => ret tt
  end ;;;
  log Info "Reconnected successfully to the database.".

(** ** transaction (lines 358-380) *)

(** The block of the [with] statement is [body]; an exception raised by
    it arrives at the [yield]. The connection object is read once, on
    entry. *)
Definition transaction {A} (body : M A) : M A :=
  let* conn := self_connection in
  let* s := get in
  let old_isolation_level := conn_isolation_level s conn in
  set_isolation_level conn ISOLATION_LEVEL_READ_COMMITTED ;;;
  try_finally
    (try_except
       (let* a := body in
        commit conn ;;;
        ret a)
       (fun e =>
          rollback conn ;;;
          log Error ("Transaction failed: " +:+ exn_str e) ;;;
          raise e))
    (set_isolation_level conn old_isolation_level).

(** ** get_connection (lines 316-332) *)

(** The pooled connection handed out is not distinguished from the pool
    it comes from; [getconn] and [putconn] raise only through
    [create_connection_pool]. *)
Definition get_connection {A} (body : nat -> M A) : M A :=
  let* s := get in
  let* p :=
    match connection_pool s with
    | Some p => ret p
    | None => create_connection_pool 1 10
    end in
  try_finally (body p) (ret tt).

(** ** batch_insert (lines 503-538) *)

(** The statement text of one chunk, as the source builds it. *)
Definition batch_statement (table_name : string) (columns : list string)
  : string :=
  let columns_str := Py.join ", " columns in
  let placeholders := Py.join ", " (repeat "%s" (length columns)) in
  "@INSERT INTO " +:+ table_name +:+ " (" +:+ columns_str +:+ ") VALUES ("
    +:+ placeholders +:+ ")".

(** One pass of the chunk loop. *)
Definition insert_chunk (cur : nat) (table_name : string)
    (columns : list string) (values_list : list pyval) (batch_size i : Z)
  : M (option unit) :=
  let batch := slice values_list i (i + batch_size) in
  let query := batch_statement table_name columns in
  executemany cur query batch ;;;
  let* c := self_connection in
  commit c ;;;
  ret None.

(** Lines 522-532: the body of the [try]. *)
Definition insert_chunks (cur : nat) (table_name : string)
    (columns : list string) (values_list : list pyval) (batch_size : Z)
  : M bool :=
  let* starts := range3 0 (Z.of_nat (length values_list)) batch_size in
  for_loop starts
    (insert_chunk cur table_name columns values_list batch_size) ;;;
  log Info ("Batch inserted " +:+ Py.str_of_Z (Z.of_nat (length values_list))
            +:+ " records into " +:+ table_name) ;;;
  ret true.

(** Lines 533-536: the handler. *)
Definition batch_failed (e : exn) : M bool :=
  let* c := self_connection in
  rollback c ;;;
  log Error ("Batch insert failed: " +:+ exn_str e) ;;;
  raise e.

Definition batch_insert (table_name : string) (columns : list string)
    (values_list : list pyval) (batch_size : Z) : M bool :=
  match values_list with
  | [] => ret true
  | _ =>
      let* cur := cursor in
      try_finally
        (try_except
           (insert_chunks cur table_name columns values_list batch_size)
           batch_failed)
        (cursor_close cur)
  end.

(** ** execute_prepared_statement (lines 540-598) *)

(** Rows as mappings from column names. *)
Definition row_dict (column_names : list string) (row : list pyval)
  : row_mapping :=
  dict_of_pairs (zip column_names row).

(** [cursor.description] is neither [None] nor empty. *)
Definition has_description (out : exec_out) : bool :=
  match description out with
  | Some (_ :: _) => true
  | _ => false
  end.

Definition column_names_of (out : exec_out) : list string :=
  match description out with
  | Some names => names
  | None => []
  end.

(** The end of both execution paths: fetch according to the mode. *)
Definition fetch_result (fetch : fetch_mode) (out : exec_out) : qresult :=
  let column_names := column_names_of out in
  match fetch with
  | FetchOne =>
      match rows out with
      | ((_ :: _) as row) :: _ => RRow (row_dict column_names row)
      | _ => RNone
      end
  | FetchAll => RRows (map (row_dict column_names) (rows out))
  end.

(** ["$1, $2, ..., $n"]. *)
Definition params_placeholders (n : nat) : string :=
  Py.join ", " (map (fun i => "$" +:+ Py.str_of_Z (Z.of_nat i + 1)) (seq 0 n)).

Definition prepare_text (statement_name query : string) : string :=
  "PREPARE " +:+ statement_name +:+ " AS " +:+ query.

Definition execute_text (statement_name : string) (params : option (list pyval))
  : string :=
  match params with
  | Some ((_ :: _) as ps) =>
      "EXECUTE " +:+ statement_name +:+ "(" +:+ params_placeholders (length ps) +:+ ")"
  | _ => "EXECUTE " +:+ statement_name
  end.

(** [params] when it is a non-empty list, which is when it is bound. *)
Definition bound_params (params : option (list pyval))
  : option (list pyval) :=
  match params with
  | Some (_ :: _) => params
  | _ => None
  end.

(** Lines 557-589: the body of the [try]. *)
Definition prepare_and_execute (cur : nat) (statement_name query : string)
    (params : option (list pyval)) (fetch : fetch_mode) : M qresult :=
  let* s := get in
  (if bool_decide (statement_name ∈ prepared_statements s) then ret tt
   else
     execute cur (prepare_text statement_name query) None ;;;
     modify (fun s =>
       set_prepared_statements
         ({[ statement_name ]} ∪ prepared_statements s) s)) ;;;
  let* out :=
    execute cur (execute_text statement_name params) (bound_params params) in
  (if slow out
   then log Error ("Slow prepared statement detected: " +:+ statement_name)
   else ret tt) ;;;
  if negb (has_description out) then
    let* c := self_connection in
    commit c ;;;
    ret RNone
  else ret (fetch_result fetch out).

(** Lines 591-596: the handler. *)
Definition prepared_failed (statement_name : string) (e : exn) : M qresult :=
  let* c := self_connection in
  rollback c ;;;
  log Error ("Prepared statement execution failed: " +:+ exn_str e) ;;;
  modify (fun s =>
    set_prepared_statements
      (prepared_statements s ∖ {[ statement_name ]}) s) ;;;
  raise e.

Definition execute_prepared_statement (statement_name query : string)
    (params : option (list pyval)) (fetch : fetch_mode) : M qresult :=
  let* cur := cursor in
  try_finally
    (try_except
       (prepare_and_execute cur statement_name query params fetch)
       (prepared_failed statement_name))
    (cursor_close cur).

(** ** run_query (lines 382-501) *)

(** Lines 400-403. *)
Definition ensure_connected : M unit :=
  let* s := get in
  let lost :=
    match connection s with
    | None => true
    | Some c => conn_closed s c
    end in
  if lost then
    log Warning "Database connection is closed. Reconnecting..." ;;;
    reconnect
  else ret tt.

(** Line 407. *)
Definition query_type_of (query : string) : string :=
  if Py.truthy (Py.strip query)
  then hd "" (Py.split_ws (Py.lower (Py.strip query)))
  else "".

(** Lines 416-421: the table name and the column list read off the text. *)
Definition parse_insert (query : string) : M (string * list string) :=
  let* after := index (Py.split "insert into" (Py.lower query)) 1 in
  let* before_paren := index (Py.split "(" after) 0 in
  let table_match := Py.strip before_paren in
  let* after_paren := index (Py.split "(" query) 1 in
  let* columns_match := index (Py.split ")" after_paren) 0 in
  let columns := map Py.strip (Py.split "," columns_match) in
  ret (table_match, columns).

Definition is_bulk_insert (query query_type : string)
    (params : option (list pyval)) : bool :=
  String.eqb query_type "insert" && Py.contains "values" (Py.lower query)
  && match params with
     | Some ps => 10 <? length ps
     | None => false
     end.

Definition params_list (params : option (list pyval)) : list pyval :=
  match params with
  | Some ps => ps
  | None => []
  end.

(** Lines 410-426: [Some r] is the [return] inside the [try]. *)
Definition batch_redirect (query query_type : string)
    (params : option (list pyval)) : M (option qresult) :=
  if is_bulk_insert query query_type params then
    try_except
      (let* parsed := parse_insert query in
       let '(table_match, columns) := parsed in
       log Info ("Converting to batch insert: " +:+ table_match +:+ " with "
                 +:+ Py.str_of_Z (Z.of_nat (length (params_list params)))
                 +:+ " rows") ;;;
       let* done := batch_insert table_match columns (params_list params) 1000 in
       ret (Some (RBool done)))
      (fun e =>
         log Warning ("Could not convert to batch insert: " +:+ exn_str e
                      +:+ ". Using standard execution.") ;;;
         ret None)
  else ret None.

(** [0.2 * (2 ** attempt)] seconds, in milliseconds. *)
Definition backoff_ms (attempt : Z) : Z := (200 * 2 ^ attempt)%Z.

Definition modifies (query_type : string) : bool :=
  String.eqb query_type "delete" || String.eqb query_type "insert"
  || String.eqb query_type "update".

(** Lines 447-455: after a successful [execute]. *)
Definition report_slow (query query_type : string) (out : exec_out) : M unit :=
  if slow out then
    log Error ("Slow query detected: " +:+ Py.take 500 query +:+ "...") ;;;
    if String.eqb query_type "insert"
    then log Warning
           "Consider using batch_insert() for better performance with multiple INSERTs"
    else ret tt
  else ret tt.

(** Lines 462-473: the handler of a retryable error; it yields the cursor
    to go on with. *)
Definition after_failure (max_retries' attempt : Z) (e : exn) (cur : nat)
  : M nat :=
  let* c := self_connection in
  rollback c ;;;
  log Warning ("Attempt " +:+ Py.str_of_Z (attempt + 1) +:+ "/"
               +:+ Py.str_of_Z max_retries' +:+ " failed: " +:+ exn_str e) ;;;
  sleep Backoff (backoff_ms attempt) ;;;
  if connection_class e && (attempt <? max_retries' - 1)%Z
  then reconnect ;;; cursor
  else ret cur.

(** Lines 439-477: the retry loop. [cur] is the local variable [cursor],
    which a reconnect replaces; the loop hands it back together with its
    outcome, because the [finally] of [run_query] closes whatever it holds
    then. [Ok (Some out)] is the [break], [Ok None] the exhausted loop. *)
Fixpoint retry_loop (query query_type : string) (params : option (list pyval))
    (max_retries' : Z) (attempts : list Z) (cur : nat) (s : State)
  : nat * result (option exec_out) * State :=
  match attempts with
  | [] => (cur, Ok None, s)
  | attempt :: later =>
      match execute cur query params s with
      | (Ok out, s1) =>
          match report_slow query query_type out s1 with
          | (Ok _, s2) => (cur, Ok (Some out), s2)
          | (Raise e, s2) => (cur, Raise e, s2)
          end
      | (Raise e, s1) =>
          if retryable e then
            match after_failure max_retries' attempt e cur s1 with
            | (Ok cur', s2) =>
                retry_loop query query_type params max_retries' later cur' s2
            | (Raise e', s2) => (cur, Raise e', s2)
            end
          else (cur, Raise e, s1)
      end
  end.

Definition retries_exhausted (max_retries' : Z) : string :=
  "Failed to execute query after " +:+ Py.str_of_Z max_retries' +:+ " attempts.".

(** Lines 479-499: what follows the loop. *)
Definition finish (query_type : string) (fetch : fetch_mode)
    (max_retries' : Z) (r : result (option exec_out)) : M qresult :=
  match r with
  | Ok (Some out) =>
      if modifies query_type || negb (has_description out) then
        let* c := self_connection in
        commit c ;;;
        ret RNone
      else ret (fetch_result fetch out)
  | Ok None =>
      log Error (retries_exhausted max_retries') ;;;
      raise (PyException (retries_exhausted max_retries'))
  | Raise e => raise e
  end.

(** Lines 434-501: the standard execution path. *)
Definition standard_execution (query query_type : string)
    (fetch : fetch_mode) (max_retries' : Z) (params : option (list pyval))
  : M qresult :=
  let* cur := cursor in
  fun s =>
    match retry_loop query query_type params max_retries'
            (range2 0 max_retries') cur s with
    | (cur', r, s1) =>
        try_finally (finish query_type fetch max_retries' r)
          (cursor_close cur') s1
    end.

(** Line 430. *)
Definition statement_name_of (query : string) : string :=
  "stmt_" +:+ Py.str_of_Z (str_hash env query).

(** Lines 428-501: everything after the bulk-insert attempt. *)
Definition single_statement (query query_type : string) (fetch : fetch_mode)
    (max_retries' : Z) (params : option (list pyval)) (use_prepared : bool)
  : M qresult :=
  match use_prepared, params with
  | true, Some _ =>
      execute_prepared_statement (statement_name_of query) query params fetch
  | _, _ => standard_execution query query_type fetch max_retries' params
  end.

Definition run_query (query : string) (fetch : fetch_mode)
    (max_retries' : Z) (params : option (list pyval)) (use_prepared : bool)
  : M qresult :=
  ensure_connected ;;;
  let query := DataHelper.escape_single_quotes (re_word env) query in
  let query_type := query_type_of query in
  let* redirected := batch_redirect query query_type params in
  match redirected with
  | Some r => ret r
  | None => single_statement query query_type fetch max_retries' params use_prepared
  end.

End Methods.

End Connector.

(* ===================================================================== *)
(** * Scenarios *)
(* ===================================================================== *)

(** Concrete worlds and connector states on which the methods are run. *)
Module Scenarios.

Import Driver Connector.
Local Open Scope string_scope.

(** A statement without result set, executed at once. *)
Definition no_result_set : exec_out :=
  {| description := None; rows := []; slow := false |}.

(** One row with one column. *)
Definition one_row : exec_out :=
  {| description := Some ["id"]; rows := [[PInt 7]]; slow := false |}.

(** Everything works: the ports are free, the login succeeds, the
    forwarding process stays alive, no call raises. *)
Definition healthy_env : Env :=
  {| random := fun k => Z.of_nat (7 * k);
     port_in_use := fun _ => false;
     kube_config := fun _ => KubeValid;
     login_returncode := fun _ => 0%Z;
     poll_alive := fun _ => true;
     call_fails := fun _ _ => None;
     execute_outcome := fun _ => ExecOk no_result_set;
     str_hash := fun q => Z.of_nat (String.length q);
     re_word := DataHelper.ascii_word |}.

(** As [healthy_env], but every statement produces one row. *)
Definition selecting_env : Env :=
  {| random := random healthy_env;
     port_in_use := port_in_use healthy_env;
     kube_config := kube_config healthy_env;
     login_returncode := login_returncode healthy_env;
     poll_alive := poll_alive healthy_env;
     call_fails := call_fails healthy_env;
     execute_outcome := fun _ => ExecOk one_row;
     str_hash := str_hash healthy_env;
     re_word := re_word healthy_env |}.

(** As [healthy_env], but every [cursor.execute] raises [e]. *)
Definition failing_env (e : exn) : Env :=
  {| random := random healthy_env;
     port_in_use := port_in_use healthy_env;
     kube_config := kube_config healthy_env;
     login_returncode := login_returncode healthy_env;
     poll_alive := poll_alive healthy_env;
     call_fails := call_fails healthy_env;
     execute_outcome := fun _ => ExecRaise e;
     str_hash := str_hash healthy_env;
     re_word := re_word healthy_env |}.

(** As [healthy_env], but the calls of [o] raise [e]. *)
Definition broken_env (o : op) (e : exn) : Env :=
  {| random := random healthy_env;
     port_in_use := port_in_use healthy_env;
     kube_config := kube_config healthy_env;
     login_returncode := login_returncode healthy_env;
     poll_alive := poll_alive healthy_env;
     call_fails := fun o' _ => if decide (o' = o) then Some e else None;
     execute_outcome := execute_outcome healthy_env;
     str_hash := str_hash healthy_env;
     re_word := re_word healthy_env |}.

(** As [healthy_env], but the call of [o] numbered [k] raises [e]. *)
Definition failing_at (o : op) (k : nat) (e : exn) : Env :=
  {| random := random healthy_env;
     port_in_use := port_in_use healthy_env;
     kube_config := kube_config healthy_env;
     login_returncode := login_returncode healthy_env;
     poll_alive := poll_alive healthy_env;
     call_fails := fun o' i =>
       if decide (o' = o) then if Nat.eqb i k then Some e else None else None;
     execute_outcome := execute_outcome healthy_env;
     str_hash := str_hash healthy_env;
     re_word := re_word healthy_env |}.

(** Eleven parameter rows. *)
Definition eleven_rows : list pyval := repeat (PTuple [PInt 1]) 11.

(** An INSERT whose column list cannot be read off the text: there is no
    parenthesis. *)
Definition unparsable_insert : string := "INSERT INTO t VALUES %s".

(** Three single-column rows. *)
Definition three_rows : list pyval :=
  [PTuple [PInt 1]; PTuple [PInt 2]; PTuple [PInt 3]].

(** As [healthy_env], but the forwarding process exits at once, and the
    random source keeps returning the same number. *)
Definition dead_tunnel_env : Env :=
  {| random := fun _ => 0%Z;
     port_in_use := port_in_use healthy_env;
     kube_config := kube_config healthy_env;
     login_returncode := login_returncode healthy_env;
     poll_alive := fun _ => false;
     call_fails := call_fails healthy_env;
     execute_outcome := execute_outcome healthy_env;
     str_hash := str_hash healthy_env;
     re_word := re_word healthy_env |}.

(** A connector after a successful [__enter__]: tunnel 0, connection 0 at
    read committed, pool 0. *)
Definition activated (max_retries' : Z) : State :=
  {| local_port := 30007; connection := Some 0; connection_pool := Some 0;
     port_forward_process := Some 0;
     max_retries := max_retries'; retry_delay := 2000;
     is_ci := false; prepared_statements := ∅;
     conns := {[ 0 := {| isolation_level := ISOLATION_LEVEL_READ_COMMITTED;
                         closed := false |} ]};
     calls := fun _ => 1; trace := [] |}.

(** An activated connector whose connection was switched to the
    serializable level (3). *)
Definition serializable : State :=
  set_conns {[ 0 := {| isolation_level := Some 3%Z; closed := false |} ]}
    (activated 5).

(** The same connector once ["stmt_1"] has been prepared. *)
Definition prepared_state : State :=
  set_prepared_statements {[ "stmt_1" ]} (activated 5).

(** A connector that was constructed and never activated. *)
Definition constructed : State :=
  {| local_port := 30007; connection := None; connection_pool := None;
     port_forward_process := None;
     max_retries := 5; retry_delay := 2000;
     is_ci := false; prepared_statements := ∅;
     conns := ∅; calls := fun _ => 0; trace := [] |}.

End Scenarios.

(* ===================================================================== *)
(** * Frame reasoning *)
(* ===================================================================== *)

(** A computation [steps] along a relation [R] when every run takes a state
    to an [R]-related one, whatever the outcome. For a reflexive and
    transitive [R] this is closed under the control structures. *)
Module Frame.

Import Driver Connector.

Section Steps.

Variable R : State -> State -> Prop.
Hypothesis R_refl : forall s, R s s.
Hypothesis R_trans : forall a b c, R a b -> R b c -> R a c.

Definition steps {A} (m : M A) : Prop := forall s, R s (snd (m s)).

Lemma steps_ret {A} (a : A) : steps (ret a).
Proof using R_refl. intros s. apply R_refl. Qed.

Lemma steps_raise {A} (e : exn) : steps (@raise A e).
Proof using R_refl. intros s. apply R_refl. Qed.

Lemma steps_get : steps get.
Proof using R_refl. intros s. apply R_refl. Qed.

Lemma steps_bind {A B} (m : M A) (k : A -> M B) :
  steps m -> (forall a, steps (k a)) -> steps (bind m k).
Proof using R_trans.
  intros Hm Hk s. unfold bind. specialize (Hm s).
  destruct (m s) as [[a|e] s1]; cbn in *; [|exact Hm].
  eapply R_trans; [exact Hm|apply Hk].
Qed.

Lemma steps_try_except {A} (m : M A) (h : exn -> M A) :
  steps m -> (forall e, steps (h e)) -> steps (try_except m h).
Proof using R_trans.
  intros Hm Hh s. unfold try_except. specialize (Hm s).
  destruct (m s) as [[a|e] s1]; cbn in *; [exact Hm|].
  eapply R_trans; [exact Hm|apply Hh].
Qed.

Lemma steps_try_finally {A} (m : M A) (fin : M unit) :
  steps m -> steps fin -> steps (try_finally m fin).
Proof using R_trans.
  intros Hm Hf s. unfold try_finally. specialize (Hm s).
  destruct (m s) as [r s1]. specialize (Hf s1).
  destruct (fin s1) as [[u|e] s2]; cbn in *; eapply R_trans; eauto.
Qed.

Lemma steps_for_loop {A B} (xs : list A) (body : A -> M (option B)) :
  (forall x, steps (body x)) -> steps (for_loop xs body).
Proof using R_refl R_trans.
  intros Hb. induction xs as [|x xs IH]; cbn [for_loop].
  - apply steps_ret.
  - apply steps_bind; [apply Hb|].
    intros [b|]; [apply steps_ret|exact IH].
Qed.

Lemma steps_index {A} (l : list A) (i : nat) : steps (index l i).
Proof using R_refl.
  unfold index. destruct (nth_error l i); [apply steps_ret|apply steps_raise].
Qed.

Lemma steps_range3 (a b c : Z) : steps (range3 a b c).
Proof using R_refl.
  unfold range3. destruct (c =? 0)%Z; [apply steps_raise|].
  destruct (0 <? c)%Z; apply steps_ret.
Qed.

End Steps.

(** ** Frames

    [keeps view P s s']: going from [s] to [s'] the part of the state
    selected by [view] is unchanged and the events appended to the trace all
    satisfy [P]. The view never looks at the trace. *)
Definition keeps {X} (view : State -> X) (P : event -> Prop) (s s' : State)
  : Prop :=
  view s' = view s /\ exists d, trace s' = trace s ++ d /\ Forall P d.

Lemma keeps_refl {X} (view : State -> X) P s : keeps view P s s.
Proof. split; auto. exists []. split; [by rewrite app_nil_r|constructor]. Qed.

Lemma keeps_trans {X} (view : State -> X) P a b c :
  keeps view P a b -> keeps view P b c -> keeps view P a c.
Proof.
  intros (H1 & d1 & Hd1 & HP1) (G1 & d2 & Hd2 & HP2).
  split; [congruence|].
  exists (d1 ++ d2). split.
  - rewrite Hd2, Hd1, app_assoc. reflexivity.
  - apply Forall_app. auto.
Qed.

Section FramePrimitives.

Variable env : Env.
Context {X : Type}.
Variable view : State -> X.
Variable P : event -> Prop.

Abbreviation fsteps := (steps (keeps view P)).

(** The view does not depend on the trace, or on the count of [o]. *)
Definition blind_to_trace : Prop :=
  forall s v, view (set_trace v s) = view s.

Definition blind_to_calls (o : op) : Prop :=
  forall s n,
    view (set_calls (fun o' => if decide (o' = o) then n else calls s o') s)
    = view s.

Lemma fsteps_modify (f : State -> State) :
  (forall s, view (f s) = view s) -> (forall s, trace (f s) = trace s) ->
  fsteps (modify f).
Proof.
  intros Hv Ht s. cbn. split; [apply Hv|].
  exists []. split; [by rewrite app_nil_r|constructor].
Qed.

Lemma fsteps_emit (e : event) : blind_to_trace -> P e -> fsteps (emit e).
Proof.
  intros Hb He s. cbn. split; [apply Hb|].
  exists [e]. split; [reflexivity|]. constructor; [exact He|constructor].
Qed.

Lemma fsteps_log lvl msg :
  blind_to_trace -> P (EvLog lvl msg) -> fsteps (log lvl msg).
Proof. apply fsteps_emit. Qed.

Lemma fsteps_sleep site ms :
  blind_to_trace -> P (EvSleep site ms) -> fsteps (sleep site ms).
Proof. apply fsteps_emit. Qed.

Lemma fsteps_tick (o : op) : blind_to_calls o -> fsteps (tick o).
Proof.
  intros Hb s. unfold tick. cbn. split; [apply Hb|].
  exists []. split; [by rewrite app_nil_r|constructor].
Qed.

Lemma fsteps_ret {A} (a : A) : fsteps (ret a).
Proof. apply steps_ret, keeps_refl. Qed.

Lemma fsteps_raise {A} (e : exn) : fsteps (@raise A e).
Proof. apply steps_raise, keeps_refl. Qed.

Lemma fsteps_get : fsteps get.
Proof. apply steps_get, keeps_refl. Qed.

Lemma fsteps_bind {A B} (m : M A) (k : A -> M B) :
  fsteps m -> (forall a, fsteps (k a)) -> fsteps (bind m k).
Proof. apply steps_bind, keeps_trans. Qed.

Lemma fsteps_try_except {A} (m : M A) (h : exn -> M A) :
  fsteps m -> (forall e, fsteps (h e)) -> fsteps (try_except m h).
Proof. apply steps_try_except, keeps_trans. Qed.

Lemma fsteps_try_finally {A} (m : M A) (fin : M unit) :
  fsteps m -> fsteps fin -> fsteps (try_finally m fin).
Proof. apply steps_try_finally, keeps_trans. Qed.

Lemma fsteps_for_loop {A B} (xs : list A) (body : A -> M (option B)) :
  (forall x, fsteps (body x)) -> fsteps (for_loop xs body).
Proof. apply steps_for_loop; [apply keeps_refl|apply keeps_trans]. Qed.

Lemma fsteps_index {A} (l : list A) (i : nat) : fsteps (index l i).
Proof. apply steps_index, keeps_refl. Qed.

Lemma fsteps_range3 (a b c : Z) : fsteps (range3 a b c).
Proof. apply steps_range3, keeps_refl. Qed.

Lemma fsteps_call (o : op) (ev : event) :
  blind_to_trace -> blind_to_calls o -> P ev -> fsteps (call env o ev).
Proof.
  intros Ht Hc Hev. unfold call.
  apply fsteps_bind; [apply fsteps_emit; assumption|].
  intros _. apply fsteps_bind; [apply fsteps_tick; exact Hc|].
  intros k. destruct (call_fails env o k);
    [apply fsteps_raise|apply fsteps_ret].
Qed.

End FramePrimitives.

(** Side conditions: the view is blind to what the step changes, and the
    event is allowed. *)
Ltac fside :=
  first [ intros ? ?; reflexivity | intros ?; reflexivity | reflexivity
        | exact I ].

(** One step of a proof that a computation stays within a frame. *)
Ltac fstep :=
  first
    [ apply fsteps_ret | apply fsteps_raise | apply fsteps_get
    | apply fsteps_index | apply fsteps_range3
    | apply fsteps_log; [fside|fside] | apply fsteps_sleep; [fside|fside]
    | apply fsteps_emit; [fside|fside]
    | apply fsteps_tick; fside
    | apply fsteps_call; [fside|fside|fside]
    | apply fsteps_modify; [fside|fside]
    | apply fsteps_bind | apply fsteps_try_except | apply fsteps_try_finally
    | apply fsteps_for_loop
    | match goal with
      | |- steps _ (match ?x with _ => _ end) => destruct x
      | |- steps _ (let (_, _) := ?x in _) => destruct x
      end ].

Ltac fsteps_auto := repeat (intros; fstep).

End Frame.

(* ===================================================================== *)
(** * The infrastructure: tunnel, connection, pool *)
(* ===================================================================== *)

Module Infrastructure.

Import Driver Connector Frame.
Local Open Scope string_scope.

(** The events of the tunnel, connection and pool management, the opening
    message of [reconnect] excepted. *)
Definition infra (e : event) : bool :=
  match e with
  | EvLog _ msg => negb (String.eqb msg reconnecting)
  | EvSleep SettleWait _ | EvSleep RetryDelay _ => true
  | EvProbe _ | EvKubeBackup | EvLogin | EvSpawn _ _ | EvTerminate _
  | EvConnect _ _ | EvPoolCreate _ _ | EvPoolCloseAll _ => true
  | _ => false
  end.

(** What the infrastructure leaves alone: the configuration of the
    connector, the prepared-statement registry, and the oracles behind the
    execution of statements. *)
Definition infra_view (s : State) :=
  (is_ci s, max_retries s, retry_delay s, prepared_statements s,
   calls s OpExecute, calls s OpExecuteMany, calls s OpCommit).

Abbreviation isteps := (steps (keeps infra_view (fun e => infra e = true))).

Ltac isteps_auto := fsteps_auto.

Section Facts.

Variable env : Env.

Lemma isteps_get_random_available_port :
  isteps (get_random_available_port env).
Proof. unfold get_random_available_port, probe_port. isteps_auto. Qed.

Lemma isteps_validate_kube_config : isteps (validate_kube_config env).
Proof. unfold validate_kube_config. isteps_auto. Qed.

Lemma isteps_backup_kube_config : isteps (backup_kube_config env).
Proof.
  unfold backup_kube_config.
  apply fsteps_bind; [apply isteps_validate_kube_config|]. isteps_auto.
Qed.

Lemma isteps_login : isteps (login env).
Proof.
  unfold login. apply fsteps_bind; [apply fsteps_get|]. intros s.
  apply fsteps_bind.
  - apply fsteps_for_loop. intros attempt. unfold login_attempt.
    do 3 (apply fsteps_bind; [isteps_auto|]; intros).
    apply fsteps_bind.
    + destruct (login_returncode env a0 =? 0)%Z;
        [apply isteps_validate_kube_config|apply fsteps_ret].
    + isteps_auto.
  - isteps_auto.
Qed.

Lemma isteps_forward : isteps (forward env).
Proof.
  unfold forward. apply fsteps_bind; [apply fsteps_get|]. intros s.
  apply fsteps_bind; [|isteps_auto].
  apply fsteps_for_loop. intros attempt. unfold forward_attempt.
  apply fsteps_bind; [apply isteps_get_random_available_port|].
  isteps_auto.
Qed.

Lemma isteps_port_forward_postgres : isteps (port_forward_postgres env).
Proof.
  unfold port_forward_postgres.
  apply fsteps_bind; [apply isteps_backup_kube_config|]. intros _.
  apply fsteps_bind; [apply isteps_login|]. intros _.
  apply isteps_forward.
Qed.

Lemma isteps_connect_to_postgres : isteps (connect_to_postgres env).
Proof. unfold connect_to_postgres. isteps_auto. Qed.

Lemma isteps_create_connection_pool a b :
  isteps (create_connection_pool env a b).
Proof. unfold create_connection_pool. isteps_auto. Qed.

Lemma isteps_closeall p : isteps (closeall env p).
Proof. unfold closeall. isteps_auto. Qed.

Lemma isteps_terminate p : isteps (terminate env p).
Proof. unfold terminate. isteps_auto. Qed.

(** What [reconnect] does after its opening message. *)
Definition reconnect_body : M unit :=
  let* s := get in
  match port_forward_process s with
  | Some pid =>
      if negb (is_ci s)
      then terminate env pid ;;;
           log Info "Terminated the previous port-forwarding process."
      else ret tt
  | None => ret tt
  end ;;;
  let* s := get in
  (if negb (is_ci s) then
     let* pid := port_forward_postgres env in
     modify (set_port_forward_process (Some pid))
   else ret tt) ;;;
  let* c := connect_to_postgres env in
  modify (set_connection (Some c)) ;;;
  let* s := get in
  match connection_pool s with
  | Some p => closeall env p ;;; create_connection_pool env 1 10 ;;; ret tt
  | None => ret tt
  end ;;;
  log Info "Reconnected successfully to the database.".

Lemma reconnect_unfold :
  reconnect env = (log Info reconnecting ;;; reconnect_body).
Proof. reflexivity. Qed.

Lemma isteps_reconnect_body : isteps reconnect_body.
Proof.
  unfold reconnect_body.
  apply fsteps_bind; [apply fsteps_get|]. intros s.
  apply fsteps_bind.
  { destruct (port_forward_process s); [|apply fsteps_ret].
    destruct (negb (is_ci s)); [|apply fsteps_ret].
    apply fsteps_bind; [apply isteps_terminate|]. isteps_auto. }
  intros _. apply fsteps_bind; [apply fsteps_get|]. intros s1.
  apply fsteps_bind.
  { destruct (negb (is_ci s1)); [|apply fsteps_ret].
    apply fsteps_bind; [apply isteps_port_forward_postgres|]. isteps_auto. }
  intros _. apply fsteps_bind; [apply isteps_connect_to_postgres|]. intros c.
  apply fsteps_bind; [isteps_auto|]. intros _.
  apply fsteps_bind; [apply fsteps_get|]. intros s2.
  apply fsteps_bind; [|isteps_auto].
  destruct (connection_pool s2); [|apply fsteps_ret].
  apply fsteps_bind; [apply isteps_closeall|]. intros _.
  apply fsteps_bind; [apply isteps_create_connection_pool|]. isteps_auto.
Qed.

End Facts.

End Infrastructure.

(* ===================================================================== *)
(** * Observing a run *)
(* ===================================================================== *)

Module Observe.

Import Driver Connector.
Local Open Scope string_scope.

(** The events a computation added to the trace, going from [s] to [s']. *)
Definition new_events (s s' : State) : list event :=
  skipn (length (trace s)) (trace s').

(** The outcome and the events of running [m] from [s]. *)
Definition outcome {A} (m : M A) (s : State) : result A := fst (m s).

Definition events_of {A} (m : M A) (s : State) : list event :=
  new_events s (snd (m s)).

Definition is_commit (e : event) : bool :=
  match e with EvCommit _ => true | _ => false end.

Definition is_rollback (e : event) : bool :=
  match e with EvRollback _ => true | _ => false end.

Definition is_execute (e : event) : bool :=
  match e with EvExecute _ _ _ => true | _ => false end.

Definition is_executemany (e : event) : bool :=
  match e with EvExecuteMany _ _ _ => true | _ => false end.

(** The opening message of [reconnect]. *)
Definition is_reconnect (e : event) : bool :=
  match e with
  | EvLog Info msg => String.eqb msg reconnecting
  | _ => false
  end.

Definition count (f : event -> bool) (t : list event) : nat :=
  length (List.filter f t).

(** The statements passed to [cursor.execute], in order. *)
Definition executed (t : list event) : list string :=
  omap (fun e => match e with EvExecute _ sql _ => Some sql | _ => None end) t.

(** The chunks passed to [cursor.executemany], in order. *)
Definition chunks_sent (t : list event) : list (list pyval) :=
  omap (fun e => match e with EvExecuteMany _ _ b => Some b | _ => None end) t.

(** The statement texts passed to [cursor.executemany], in order. *)
Definition chunk_statements (t : list event) : list string :=
  omap (fun e => match e with EvExecuteMany _ sql _ => Some sql | _ => None end) t.

(** The delays of the exponential backoff, in order. *)
Definition backoff_delays (t : list event) : list Z :=
  omap (fun e => match e with EvSleep Backoff ms => Some ms | _ => None end) t.

(** The local ports handed to the forwarding process, in order. *)
Definition spawned_ports (t : list event) : list Z :=
  omap (fun e => match e with EvSpawn _ port => Some port | _ => None end) t.

(** The steps of the retry loop of [run_query], as the trace shows them:
    the statement executed, the rollback, the backoff delay, the opening
    message of [reconnect], the commit. *)
Inductive step : Type :=
| SExecute (sql : string)
| SRollback
| SBackoff (ms : Z)
| SReconnect
| SCommit.

Definition key_step (e : event) : option step :=
  match e with
  | EvExecute _ sql _ => Some (SExecute sql)
  | EvRollback _ => Some SRollback
  | EvSleep Backoff ms => Some (SBackoff ms)
  | EvLog Info msg => if String.eqb msg reconnecting then Some SReconnect else None
  | EvCommit _ => Some SCommit
  | _ => None
  end.

Definition key_steps (t : list event) : list step := omap key_step t.

(** The error raised by the [execute] numbered [k], if it raises. *)
Definition error_at (env : Env) (k : nat) : exn :=
  match execute_outcome env k with
  | ExecRaise e => e
  | ExecOk _ => ProgrammingError
  end.

(** The steps of the failed attempt numbered [j + t] of a call with
    [max_retries'] attempts, its [execute] being the one numbered [k + t]:
    the statement, the rollback, the backoff delay and, for an error of the
    connection class before the last attempt, the reconnect. *)
Definition failed_attempt (env : Env) (query : string) (max_retries' : Z)
    (k j t : nat) : list step :=
  let attempt := Z.of_nat (j + t) in
  [SExecute query; SRollback; SBackoff (backoff_ms attempt)] ++
  if connection_class (error_at env (k + t)) && (attempt <? max_retries' - 1)%Z
  then [SReconnect] else [].

Definition step_sql (st : step) : option string :=
  match st with SExecute sql => Some sql | _ => None end.

Definition step_delay (st : step) : option Z :=
  match st with SBackoff ms => Some ms | _ => None end.

(** Every [execute] raises an error that the retry loop catches. *)
Definition always_transient (env : Env) : Prop :=
  forall k, exists e, execute_outcome env k = ExecRaise e /\ retryable e = true.

(** The cleanup calls of [__exit__]. *)
Definition is_cleanup (e : event) : bool :=
  match e with
  | EvPoolCloseAll _ | EvConnClose _ | EvTerminate _ => true
  | _ => false
  end.

Definition cleanup_calls (t : list event) : list event :=
  List.filter is_cleanup t.

(** The cleanup steps whose resource is present in [s], in the order of
    [__exit__]: the call and the oracle that answers it. *)
Definition cleanup_plan (s : State) : list (op * event) :=
  match connection_pool s with
  | Some p => [(OpPoolCloseAll, EvPoolCloseAll p)]
  | None => []
  end ++
  match connection s with
  | Some c => [(OpConnClose, EvConnClose c)]
  | None => []
  end ++
  match port_forward_process s with
  | Some pid => if is_ci s then [] else [(OpTerminate, EvTerminate pid)]
  | None => []
  end.

(** Running a plan: the steps are taken in order and the first one that
    raises ends the run with its exception. *)
Fixpoint run_plan (env : Env) (s : State) (plan : list (op * event))
  : result unit * list event :=
  match plan with
  | [] => (Ok tt, [])
  | (o, ev) :: later =>
      match call_fails env o (calls s o) with
      | Some e => (Raise e, [ev])
      | None =>
          let '(r, evs) := run_plan env s later in
          (r, ev :: evs)
      end
  end.

End Observe.

(* ===================================================================== *)
(** * Running a computation step by step *)
(* ===================================================================== *)

Module Run.

Import Driver Connector Frame Observe.

Lemma bind_ok_inv {A B} (m : M A) (k : A -> M B) s b s' :
  bind m k s = (Ok b, s') ->
  exists a s1, m s = (Ok a, s1) /\ k a s1 = (Ok b, s').
Proof.
  unfold bind. destruct (m s) as [[a|e] s1]; intros H; [eauto|discriminate].
Qed.

Lemma bind_ok {A B} (m : M A) (k : A -> M B) s a s1 :
  m s = (Ok a, s1) -> bind m k s = k a s1.
Proof. unfold bind. intros ->. reflexivity. Qed.

Lemma bind_raise {A B} (m : M A) (k : A -> M B) s e s1 :
  m s = (Raise e, s1) -> bind m k s = (Raise e, s1).
Proof. unfold bind. intros ->. reflexivity. Qed.

(** A run along [keeps] in terms of [new_events]. *)
Lemma new_events_app s s' d : trace s' = trace s ++ d -> new_events s s' = d.
Proof.
  unfold new_events. intros ->. rewrite drop_app_length. reflexivity.
Qed.

Lemma new_events_refl s : new_events s s = [].
Proof. apply new_events_app. by rewrite app_nil_r. Qed.

(** Every computation only appends to the trace: the frame with the
    trivial view. *)
Definition grows : State -> State -> Prop :=
  keeps (fun _ : State => tt) (fun _ : event => True).

Lemma grows_trace s s' : grows s s' -> exists d, trace s' = trace s ++ d.
Proof. intros (_ & d & Hd & _). eauto. Qed.

Lemma keeps_weaken {X} (view : State -> X) (P Q : event -> Prop) s s' :
  (forall e, P e -> Q e) -> keeps view P s s' -> keeps view Q s s'.
Proof.
  intros HPQ (Hv & d & Hd & HP). split; [exact Hv|].
  exists d. split; [exact Hd|]. eapply Forall_impl; eauto.
Qed.

Lemma keeps_grows {X} (view : State -> X) (P : event -> Prop) s s' :
  keeps view P s s' -> grows s s'.
Proof.
  intros (_ & d & Hd & _). split; [reflexivity|].
  exists d. split; [exact Hd|]. apply Forall_forall. auto.
Qed.

End Run.

(* ===================================================================== *)
(** * Theorems: reconnect and the prepared-statement registry *)
(* ===================================================================== *)

Module ReconnectFacts.

Import Driver Connector Frame Observe Run Infrastructure.
Local Open Scope string_scope.

(** The connection objects and the primary connection. *)
Definition conn_view (s : State) := (connection s, conns s).

Abbreviation csteps := (steps (keeps conn_view (fun _ : event => True))).

Section Facts.

Variable env : Env.

Lemma reconnect_infra s :
  keeps infra_view (fun _ => True) s (snd (reconnect env s)).
Proof.
  revert s. change (steps (keeps infra_view (fun _ => True)) (reconnect env)).
  rewrite reconnect_unfold.
  apply fsteps_bind; [fstep|]. intros _ s.
  eapply keeps_weaken; [|apply isteps_reconnect_body]. auto.
Qed.

Lemma reconnect_prepared_statements s :
  prepared_statements (snd (reconnect env s)) = prepared_statements s.
Proof.
  destruct (reconnect_infra s) as [Hv _].
  unfold infra_view in Hv. congruence.
Qed.

Lemma connect_to_postgres_ok s c s1 :
  connect_to_postgres env s = (Ok c, s1) ->
  connection s1 = connection s /\ conn_closed s1 c = false.
Proof.
  unfold connect_to_postgres, bind, get, try_except, tick. cbn.
  destruct (target s) as [host port]. cbn.
  destruct (call_fails env OpConnect (calls s OpConnect)); cbn; [discriminate|].
  intros H. injection H as <- <-. cbn. split; [reflexivity|].
  unfold conn_closed. cbn. rewrite lookup_insert_eq. reflexivity.
Qed.

Lemma csteps_pool_part (s0 : State) :
  csteps (match connection_pool s0 with
          | Some p => closeall env p ;;; create_connection_pool env 1 10 ;;; ret tt
          | None => ret tt
          end ;;; log Info "Reconnected successfully to the database.").
Proof.
  unfold closeall, create_connection_pool. fsteps_auto.
Qed.

Lemma conn_closed_view s s' c :
  conn_view s' = conn_view s -> conn_closed s' c = conn_closed s c.
Proof. unfold conn_view, conn_closed. intros [= _ ->]. reflexivity. Qed.

(** A completed [reconnect] leaves an open primary connection. *)
Lemma reconnect_ok_connection s u s' :
  reconnect env s = (Ok u, s') ->
  exists c, connection s' = Some c /\ conn_closed s' c = false.
Proof.
  unfold reconnect. intros H.
  apply bind_ok_inv in H as (_ & sa & _ & H).
  apply bind_ok_inv in H as (? & ? & _ & H).
  apply bind_ok_inv in H as (_ & sb & _ & H).
  apply bind_ok_inv in H as (? & ? & _ & H).
  apply bind_ok_inv in H as (_ & sc & _ & H).
  apply bind_ok_inv in H as (c & sd & Hc & H).
  apply bind_ok_inv in H as (? & se & He & H).
  apply bind_ok_inv in H as (s2 & sf & Hget & H).
  unfold get, modify in Hget, He. simplify_eq.
  apply connect_to_postgres_ok in Hc as [_ Hopen].
  pose proof (csteps_pool_part (set_connection (Some c) sd)
                (set_connection (Some c) sd)) as [Hv _].
  rewrite H in Hv. cbn [snd] in Hv.
  exists c. split.
  - unfold conn_view in Hv. injection Hv as -> _. reflexivity.
  - rewrite (conn_closed_view _ _ c Hv). exact Hopen.
Qed.

End Facts.

End ReconnectFacts.

(* ===================================================================== *)
(** * Theorems: prepared statements *)
(* ===================================================================== *)

Module PreparedFacts.

Import Driver Connector Frame Observe Run.
Local Open Scope string_scope.

(** Unfolding of the monad and of the primitive calls. *)
Ltac run :=
  cbv beta iota delta
    [bind ret raise get modify emit log sleep tick call try_except try_finally
     self_connection cursor cursor_close execute executemany commit rollback
     closeall close terminate
     fst snd negb];
  cbn [trace calls connection conns prepared_statements connection_pool
       port_forward_process is_ci max_retries retry_delay local_port
       set_trace set_calls set_connection set_conns set_prepared_statements
       set_connection_pool set_port_forward_process set_local_port
       conn_closed];
  repeat match goal with
         | |- context [decide (?a = ?b)] =>
             let d := eval vm_compute in (decide (a = b)) in
             change (decide (a = b)) with d; cbv iota
         end.

(** The same in a hypothesis. *)
Ltac run_in H :=
  match goal with
  | |- ?G =>
      let g := fresh "G" in
      set (g := G); revert H; run; intros H; subst g
  end.

(** The index of an oracle is settled: a count of the initial state. *)
Ltac settled k :=
  lazymatch k with
  | calls ?s _ => is_var s
  | S ?k' => settled k'
  end.

(** Case analysis on the next answer of the outside world. *)
Ltac oracle :=
  match goal with
  | |- context [match execute_outcome ?e ?k with _ => _ end] =>
      settled k; destruct (execute_outcome e k) eqn:?
  | |- context [match call_fails ?e ?o ?k with _ => _ end] =>
      settled k; destruct (call_fails e o k) eqn:?
  | |- context [if slow ?a then _ else _] => destruct (slow a) eqn:?
  | |- context [has_description ?a] => destruct (has_description a) eqn:?
  | |- context [bool_decide ?P] => destruct (bool_decide P) eqn:?
  end.

(** A list ends with a given suffix. *)
Ltac ends_with :=
  match goal with
  | |- exists pre, ?l = (pre ++ ?t)%list =>
      exists (take (length l - length t) l); reflexivity
  end.

(** The events of a run whose final trace is explicit. *)
Ltac events :=
  unfold new_events;
  cbn [trace set_trace set_calls set_prepared_statements set_conns
       set_connection];
  rewrite <- ?app_assoc; cbn [app]; rewrite ?drop_app_length, ?drop_all.

Section Facts.

Variable env : Env.

Lemma cursor_ok s c :
  connection s = Some c -> conn_closed s c = false -> cursor s = (Ok c, s).
Proof.
  intros Hc Ho. unfold cursor, self_connection, bind, get. rewrite Hc. cbn.
  rewrite Ho. reflexivity.
Qed.

Lemma known_statement_executes s c name query params fetch :
  connection s = Some c -> conn_closed s c = false ->
  name ∈ prepared_statements s ->
  exists rest,
    events_of (execute_prepared_statement env name query params fetch) s
    = EvExecute c (execute_text name params) (bound_params params) :: rest
    /\ Forall (fun e => is_execute e = false) rest.
Proof.
  intros Hc Ho Hin. unfold events_of, execute_prepared_statement.
  rewrite (bind_ok _ _ _ _ _ (cursor_ok s c Hc Ho)).
  unfold prepare_and_execute, prepared_failed. run.
  rewrite (bool_decide_eq_true_2 _ Hin).
  repeat (run; rewrite ?Hc; try oracle).
  all: events.
  all: eexists; split; [reflexivity|].
  all: repeat constructor.
Qed.

Lemma new_statement_prepares s c name query params fetch :
  connection s = Some c -> conn_closed s c = false ->
  name ∉ prepared_statements s ->
  exists rest,
    events_of (execute_prepared_statement env name query params fetch) s
    = EvExecute c (prepare_text name query) None :: rest.
Proof.
  intros Hc Ho Hin. unfold events_of, execute_prepared_statement.
  rewrite (bind_ok _ _ _ _ _ (cursor_ok s c Hc Ho)).
  unfold prepare_and_execute, prepared_failed. run.
  rewrite (bool_decide_eq_false_2 _ Hin).
  repeat (run; rewrite ?Hc; try oracle).
  all: events.
  all: eexists; reflexivity.
Qed.

(** What a failed call leaves behind. *)
Definition failed_call_state (s : State) (c : nat) (name : string)
    (e : exn) (s' : State) : Prop :=
  (name ∉ prepared_statements s')
  /\ connection s' = Some c
  /\ conn_closed s' c = false
  /\ exists pre,
       new_events s s'
       = (pre ++ [EvRollback c;
                  EvLog Error ("Prepared statement execution failed: " +:+ exn_str e);
                  EvCursorClose c])%list.

Lemma failed_call s c name query params fetch :
  connection s = Some c -> conn_closed s c = false ->
  match execute_prepared_statement env name query params fetch s with
  | (Raise e, s') => failed_call_state s c name e s'
  | (Ok _, _) => True
  end.
Proof.
  intros Hc Ho. unfold execute_prepared_statement.
  rewrite (bind_ok _ _ _ _ _ (cursor_ok s c Hc Ho)).
  unfold prepare_and_execute, prepared_failed.
  repeat (run; rewrite ?Hc; try oracle).
  all: try exact I.
  all: unfold failed_call_state, conn_closed in *.
  all: cbn [prepared_statements connection conns set_trace set_calls
            set_prepared_statements].
  all: (split; [apply not_elem_of_difference; right;
                 apply elem_of_singleton; reflexivity|]);
       (split; [exact Hc|]); (split; [exact Ho|]).
  all: events; ends_with.
Qed.


End Facts.


End PreparedFacts.

(* ===================================================================== *)
(** * Theorems: the registry across a reconnect *)
(* ===================================================================== *)

Module RegistryFacts.

Import Driver Connector Frame Observe Run ReconnectFacts PreparedFacts.
Local Open Scope string_scope.

(** C1, as amended. [reconnect] does not touch the prepared-statement
    registry: once it has completed, the registry holds exactly the names
    it held before. A name prepared before the reconnect is therefore still
    taken as prepared on its first use afterwards: the call issues the
    EXECUTE on the new connection, and no PREPARE. *)
Theorem reconnect_keeps_prepared_statements
    (env : Env) (s : State) (u : unit) (s' : State)
    (name query : string) (params : option (list pyval)) (fetch : fetch_mode) :
  reconnect env s = (Ok u, s') ->
  name ∈ prepared_statements s ->
  prepared_statements s' = prepared_statements s
  /\ exists c rest,
       connection s' = Some c
       /\ events_of (execute_prepared_statement env name query params fetch) s'
          = EvExecute c (execute_text name params) (bound_params params) :: rest
       /\ Forall (fun e => is_execute e = false) rest.
Proof.
  intros Hrec Hin.
  pose proof (reconnect_prepared_statements env s) as Hreg.
  rewrite Hrec in Hreg. cbn [snd] in Hreg.
  split; [exact Hreg|].
  destruct (reconnect_ok_connection env s u s' Hrec) as (c & Hc & Ho).
  rewrite <- Hreg in Hin.
  destruct (known_statement_executes env s' c name query params fetch Hc Ho Hin)
    as (rest & Hev & Hrest).
  exists c, rest. auto.
Qed.

(** The first use of ["stmt_1"] after a reconnect. *)
Lemma reconnect_keeps_prepared_statements_witness :
  let env := Scenarios.healthy_env in
  let s := Scenarios.prepared_state in
  let s' := snd (reconnect env s) in
  reconnect env s = (Ok tt, s')
  /\ "stmt_1" ∈ prepared_statements s
  /\ prepared_statements s' = prepared_statements s
  /\ exists c rest,
       connection s' = Some c
       /\ events_of (execute_prepared_statement env "stmt_1" "SELECT 1" None
                       FetchOne) s'
          = EvExecute c (execute_text "stmt_1" None) (bound_params None) :: rest
       /\ Forall (fun e => is_execute e = false) rest.
Proof.
  intros env s s'.
  assert (Hrec : reconnect env s = (Ok tt, s')) by (vm_compute; reflexivity).
  assert (Hin : "stmt_1" ∈ prepared_statements s)
    by (vm_compute; reflexivity).
  split; [exact Hrec|]. split; [exact Hin|].
  exact (reconnect_keeps_prepared_statements env s tt s' "stmt_1" "SELECT 1"
           None FetchOne Hrec Hin).
Defined.

(** C1, as stated, fails: after a completed reconnect the registry of
    [prepared_state] is not empty, and the next use of ["stmt_1"] sends the
    EXECUTE alone. *)
Lemma reconnect_does_not_clear_registry :
  let env := Scenarios.healthy_env in
  let s := Scenarios.prepared_state in
  let s' := snd (reconnect env s) in
  outcome (reconnect env) s = Ok tt
  /\ elements (prepared_statements s') = ["stmt_1"]
  /\ prepared_statements s' <> ∅
  /\ executed (events_of (execute_prepared_statement env "stmt_1" "SELECT 1"
                            None FetchOne) s')
     = ["EXECUTE stmt_1"].
Proof.
  intros env s s'.
  assert (Hel : elements (prepared_statements s') = ["stmt_1"])
    by (vm_compute; reflexivity).
  split; [vm_compute; reflexivity|]. split; [exact Hel|].
  split; [|vm_compute; reflexivity].
  intros Hempty. rewrite Hempty, elements_empty in Hel. discriminate.
Qed.

End RegistryFacts.

(* ===================================================================== *)
(** * Theorems: deactivation *)
(* ===================================================================== *)

Module ExitFacts.

Import Driver Connector Frame Observe Run PreparedFacts.
Local Open Scope string_scope.

(** C2, as amended. [__exit__] takes, in this order, the cleanup steps
    whose resource is present: closing the pool, closing the primary
    connection, and (outside CI mode) terminating the tunnel process. The
    guards test the presence of the resource and nothing else: the first
    step that raises ends the deactivation with its exception, and the steps
    after it are not taken. When no step raises, all the steps of the plan
    are taken; this holds in every state, also those left by a partial
    activation. *)
Theorem exit_runs_cleanup_plan (env : Env) (s : State) :
  (outcome (exit env) s, cleanup_calls (events_of (exit env) s))
  = run_plan env s (cleanup_plan s).
Proof.
  unfold outcome, events_of, exit, exit_pool, exit_connection, exit_tunnel,
    cleanup_plan.
  destruct (connection_pool s) as [p|] eqn:Hp;
    destruct (connection s) as [c|] eqn:Hc;
    destruct (port_forward_process s) as [pid|] eqn:Hpid;
    destruct (is_ci s) eqn:Hci;
    cbn [app run_plan];
    repeat (run; rewrite ?Hp, ?Hc, ?Hpid, ?Hci; try oracle);
    events; cbv [cleanup_calls List.filter is_cleanup]; congruence.
Qed.

(** C2, as stated, fails: when closing the pool raises, the connection is
    not closed and the tunnel process is not terminated. *)
Lemma exit_stops_at_first_failure :
  let env := Scenarios.broken_env OpPoolCloseAll PoolError in
  let s := Scenarios.activated 5 in
  connection_pool s = Some 0 /\ connection s = Some 0
  /\ port_forward_process s = Some 0 /\ is_ci s = false
  /\ outcome (exit env) s = Raise PoolError
  /\ events_of (exit env) s = [EvPoolCloseAll 0].
Proof. vm_compute. repeat split; reflexivity. Qed.

End ExitFacts.

(* ===================================================================== *)
(** * Theorems: transaction *)
(* ===================================================================== *)

Module TransactionFacts.

Import Driver Connector Frame Observe Run PreparedFacts.
Local Open Scope string_scope.

(** The state in which the block of [with transaction()] starts. *)
Definition block_entry (c : nat) (s : State) : State :=
  snd (set_isolation_level c ISOLATION_LEVEL_READ_COMMITTED s).

(** What [transaction] appends to the trace after the block, and how it
    ends, given the outcome [rb] of the block and the state [s1] it left. *)
Definition block_exit {A} (env : Env) (c : nat) (old : option Z)
    (rb : result A) (s1 : State) : result A * list event :=
  match rb with
  | Ok a =>
      match call_fails env OpCommit (calls s1 OpCommit) with
      | None => (Ok a, [EvCommit c; EvSetIsolation c old])
      | Some e =>
          (Raise e,
           [EvCommit c; EvRollback c;
            EvLog Error ("Transaction failed: " +:+ exn_str e);
            EvSetIsolation c old])
      end
  | Raise e =>
      (Raise e,
       [EvRollback c; EvLog Error ("Transaction failed: " +:+ exn_str e);
        EvSetIsolation c old])
  end.

Lemma isolation_after_set c level s :
  conn_isolation_level (snd (set_isolation_level c level s)) c = level.
Proof.
  unfold conn_isolation_level, set_isolation_level. run.
  rewrite lookup_insert_eq. reflexivity.
Qed.



Example transaction_restores_serializable :
  let env := Scenarios.healthy_env in
  let s := Scenarios.serializable in
  let run := transaction env (execute env 0 "UPDATE t SET a = 1" None) in
  events_of run s
  = [EvSetIsolation 0 (Some 1%Z); EvExecute 0 "UPDATE t SET a = 1" None;
     EvCommit 0; EvSetIsolation 0 (Some 3%Z)]
  /\ conn_isolation_level (snd (run s)) 0 = Some 3%Z.
Proof. vm_compute. split; reflexivity. Qed.

End TransactionFacts.

(* ===================================================================== *)
(** * Theorems: batch_insert *)
(* ===================================================================== *)

Module BatchFacts.

Import Driver Connector Frame Observe Run PreparedFacts.
Local Open Scope string_scope.

(** ** Chunks, as the specification describes them *)

(** Consecutive chunks of [b] rows, the last one possibly shorter. *)
Fixpoint chunks_of_fuel {A} (fuel b : nat) (l : list A) : list (list A) :=
  match fuel with
  | O => []
  | S f =>
      match l with
      | [] => []
      | _ => take b l :: chunks_of_fuel f b (drop b l)
      end
  end.

Definition chunks_of {A} (b : nat) (l : list A) : list (list A) :=
  chunks_of_fuel (length l) b l.

(** The chunks the loop of [batch_insert] cuts: one slice per start. *)
Definition loop_chunks {A} (batch_size : Z) (values_list : list A)
  : list (list A) :=
  map (fun i => slice values_list i (i + batch_size))
      (range_up (length values_list) 0 (Z.of_nat (length values_list)) batch_size).

(** What the loop sends for a list of chunks, the [k]-th chunk being
    answered by the oracles at [i_exec + k] and [i_commit + k]: the first
    call that raises ends it. *)
Fixpoint send_chunks (env : Env) (c : nat) (sql : string)
    (i_exec i_commit : nat) (chunks : list (list pyval))
  : option exn * list event :=
  match chunks with
  | [] => (None, [])
  | ch :: later =>
      match call_fails env OpExecuteMany i_exec with
      | Some e => (Some e, [EvExecuteMany c sql ch])
      | None =>
          match call_fails env OpCommit i_commit with
          | Some e => (Some e, [EvExecuteMany c sql ch; EvCommit c])
          | None =>
              let '(r, evs) :=
                send_chunks env c sql (S i_exec) (S i_commit) later in
              (r, EvExecuteMany c sql ch :: EvCommit c :: evs)
          end
      end
  end.

(** One statement and one commit per chunk. *)
Definition committed_chunks (c : nat) (sql : string)
    (chunks : list (list pyval)) : list event :=
  flat_map (fun ch => [EvExecuteMany c sql ch; EvCommit c]) chunks.

Section Chunks.

Context {A : Type}.
Variable b : nat.
Hypothesis b_pos : 0 < b.

Lemma chunks_of_fuel_concat fuel (l : list A) :
  length l <= fuel -> concat (chunks_of_fuel fuel b l) = l.
Proof using b_pos.
  revert l. induction fuel as [|f IH]; intros l Hl.
  - destruct l; [reflexivity|cbn in Hl; lia].
  - destruct l as [|x l]; [reflexivity|].
    cbn [chunks_of_fuel concat]. rewrite IH.
    + apply take_drop.
    + rewrite length_drop. cbn [length] in *. lia.
Qed.

Lemma chunks_of_fuel_length fuel (l : list A) :
  length l <= fuel ->
  length (chunks_of_fuel fuel b l) = (length l + b - 1) / b.
Proof using b_pos.
  revert l. induction fuel as [|f IH]; intros l Hl.
  - destruct l; [|cbn in Hl; lia]. cbn. symmetry. apply Nat.div_small. lia.
  - destruct l as [|x l].
    + cbn. symmetry. apply Nat.div_small. lia.
    + cbn [chunks_of_fuel length]. rewrite IH
        by (rewrite length_drop; cbn [length] in *; lia).
      rewrite length_drop. cbn [length].
      destruct (le_lt_dec b (S (length l))) as [Hge|Hlt].
      * replace (S (length l) + b - 1) with ((S (length l) - b + b - 1) + 1 * b)
          by lia.
        rewrite Nat.div_add by lia. lia.
      * replace (S (length l) - b) with 0 by lia.
        rewrite (Nat.div_small (0 + b - 1)) by lia.
        replace (S (length l) + b - 1) with (length l + 1 * b) by lia.
        rewrite Nat.div_add by lia. rewrite Nat.div_small by lia. reflexivity.
Qed.

Lemma chunks_of_fuel_bounded fuel (l : list A) :
  Forall (fun ch => 0 < length ch <= b) (chunks_of_fuel fuel b l).
Proof using b_pos.
  revert l. induction fuel as [|f IH]; intros l; [constructor|].
  destruct l as [|x l]; [constructor|].
  cbn [chunks_of_fuel]. constructor; [|apply IH].
  rewrite length_take. cbn [length]. lia.
Qed.

End Chunks.

Lemma loop_chunks_spec {A} (batch_size : Z) (values_list : list A) :
  (0 < batch_size)%Z ->
  loop_chunks batch_size values_list
  = chunks_of (Z.to_nat batch_size) values_list.
Proof.
  intros HB. unfold loop_chunks, chunks_of.
  set (N := Z.of_nat (length values_list)).
  assert (H : forall fuel i,
    (0 <= i)%Z -> Z.to_nat (N - i) <= fuel ->
    map (fun x => slice values_list x (x + batch_size))
        (range_up fuel i N batch_size)
    = chunks_of_fuel fuel (Z.to_nat batch_size) (drop (Z.to_nat i) values_list)).
  { induction fuel as [|f IH]; intros i Hi Hf; [reflexivity|].
    cbn [range_up]. destruct (i <? N)%Z eqn:Hlt.
    - apply Z.ltb_lt in Hlt.
      cbn [map chunks_of_fuel].
      destruct (drop (Z.to_nat i) values_list) as [|x l] eqn:Hd.
      { apply (f_equal length) in Hd. rewrite length_drop in Hd.
        cbn in Hd. unfold N in Hlt. lia. }
      rewrite <- Hd. f_equal.
      + unfold slice. f_equal. lia.
      + rewrite IH by lia. f_equal. rewrite drop_drop. f_equal. lia.
    - apply Z.ltb_ge in Hlt. cbn [map].
      rewrite drop_ge by (unfold N in Hlt; lia). reflexivity. }
  specialize (H (length values_list) 0%Z).
  rewrite H by (unfold N; lia). reflexivity.
Qed.

Lemma batch_insert_nonempty env table_name columns (values_list : list pyval)
    batch_size :
  values_list <> [] ->
  batch_insert env table_name columns values_list batch_size
  = (let* cur := cursor in
     try_finally
       (try_except
          (insert_chunks env cur table_name columns values_list batch_size)
          batch_failed)
       (cursor_close cur)).
Proof. destruct values_list; [congruence|reflexivity]. Qed.

Section Loop.

Variable env : Env.
Variables (c : nat) (table_name : string) (columns : list string).
Variables (values_list : list pyval) (batch_size : Z).

Let sql := batch_statement table_name columns.
Let chunk (i : Z) := slice values_list i (i + batch_size).

Lemma insert_chunks_loop (starts : list Z) :
  forall s, connection s = Some c ->
  let sent := send_chunks env c sql (calls s OpExecuteMany) (calls s OpCommit)
                (map chunk starts) in
  exists s',
    for_loop starts
      (insert_chunk env c table_name columns values_list batch_size) s
    = (match fst sent with None => Ok None | Some e => Raise e end, s')
    /\ trace s' = (trace s ++ snd sent)%list
    /\ connection s' = Some c.
Proof using Type.
  induction starts as [|i starts IH]; intros s Hc.
  - exists s. cbn. rewrite app_nil_r. auto.
  - cbn [for_loop map send_chunks]. unfold insert_chunk at 1.
    fold sql. fold (chunk i).
    run. destruct (call_fails env OpExecuteMany (calls s OpExecuteMany)) eqn:He.
    { run. eexists. split; [reflexivity|]. split; [reflexivity|exact Hc]. }
    run. rewrite Hc. run.
    destruct (call_fails env OpCommit (calls s OpCommit)) eqn:Hk.
    { run. eexists. split; [reflexivity|].
      split; [rewrite <- app_assoc; reflexivity|exact Hc]. }
    run.
    match goal with
    | |- context [for_loop starts _ ?s2] =>
        destruct (IH s2 Hc) as (s' & Hrun & Htr & Hc')
    end.
    revert Hrun Htr. run. intros Hrun Htr.
    destruct (send_chunks env c sql (S (calls s OpExecuteMany))
                (S (calls s OpCommit)) (map chunk starts)) as [r evs].
    cbn [fst snd] in *. exists s'. rewrite Hrun.
    split; [reflexivity|]. split; [|exact Hc'].
    rewrite Htr, <- !app_assoc. reflexivity.
Qed.

Lemma range3_positive (n : nat) :
  (0 < batch_size)%Z ->
  range3 0 (Z.of_nat n) batch_size
  = ret (range_up n 0 (Z.of_nat n) batch_size).
Proof using Type.
  intros HB. unfold range3.
  destruct (batch_size =? 0)%Z eqn:H0; [apply Z.eqb_eq in H0; lia|].
  destruct (0 <? batch_size)%Z eqn:H1; [|apply Z.ltb_ge in H1; lia].
  rewrite Z.sub_0_r, Nat2Z.id. reflexivity.
Qed.

(** The run of [batch_insert] on a non-empty list with a positive batch
    size, in terms of what the chunks meet. *)
Lemma batch_insert_run (s : State) :
  values_list <> [] -> (0 < batch_size)%Z ->
  connection s = Some c -> conn_closed s c = false ->
  let run := batch_insert env table_name columns values_list batch_size in
  let sent := send_chunks env c sql (calls s OpExecuteMany) (calls s OpCommit)
                (chunks_of (Z.to_nat batch_size) values_list) in
  (outcome run s, events_of run s)
  = match fst sent with
    | None =>
        (Ok true,
         snd sent ++
         [EvLog Info ("Batch inserted "
                      +:+ Py.str_of_Z (Z.of_nat (length values_list))
                      +:+ " records into " +:+ table_name);
          EvCursorClose c])%list
    | Some e =>
        (Raise e,
         snd sent ++
         [EvRollback c; EvLog Error ("Batch insert failed: " +:+ exn_str e);
          EvCursorClose c])%list
    end.
Proof using Type.
  intros Hne HB Hc Ho run sent. subst run.
  unfold outcome, events_of. rewrite batch_insert_nonempty by exact Hne.
  rewrite (bind_ok _ _ _ _ _ (cursor_ok s c Hc Ho)).
  unfold try_finally, try_except, insert_chunks, batch_failed.
  rewrite range3_positive by exact HB.
  rewrite (bind_ok _ _ s _ s) by reflexivity.
  destruct (insert_chunks_loop
              (range_up (length values_list) 0 (Z.of_nat (length values_list))
                 batch_size) s Hc) as (s' & Hrun & Htr & Hc').
  assert (Hch : map chunk (range_up (length values_list) 0
                             (Z.of_nat (length values_list)) batch_size)
                = chunks_of (Z.to_nat batch_size) values_list)
    by (apply loop_chunks_spec; exact HB).
  rewrite Hch in Hrun, Htr. fold sent in Hrun, Htr.
  clearbody sent. destruct sent as [[e|] evs]. all: cbn [fst snd] in *.
  all: run; rewrite !Hrun.
  - run. rewrite Hc'. run. unfold new_events.
    cbn [trace set_trace]. rewrite Htr, <- !app_assoc, drop_app_length.
    reflexivity.
  - run. unfold new_events.
    cbn [trace set_trace]. rewrite Htr, <- !app_assoc, drop_app_length.
    reflexivity.
Qed.

End Loop.

(** The first [k] chunks meet no failure, counting from the oracle
    positions [i_exec] and [i_commit]. *)
Definition quiet (env : Env) (i_exec i_commit k : nat) : Prop :=
  forall i, i < k ->
    call_fails env OpExecuteMany (i_exec + i) = None
    /\ call_fails env OpCommit (i_commit + i) = None.

Lemma quiet_tail env i_exec i_commit k :
  quiet env i_exec i_commit (S k) ->
  call_fails env OpExecuteMany i_exec = None
  /\ call_fails env OpCommit i_commit = None
  /\ quiet env (S i_exec) (S i_commit) k.
Proof.
  intros H. destruct (H 0 ltac:(lia)) as [H1 H2].
  rewrite !Nat.add_0_r in *. split; [exact H1|]. split; [exact H2|].
  intros i Hi. destruct (H (S i) ltac:(lia)) as [G1 G2].
  rewrite !Nat.add_succ_r in *. auto.
Qed.

Lemma send_chunks_quiet env c sql chunks :
  forall i_exec i_commit,
    quiet env i_exec i_commit (length chunks) ->
    send_chunks env c sql i_exec i_commit chunks
    = (None, committed_chunks c sql chunks).
Proof.
  induction chunks as [|ch chunks IH]; intros i_exec i_commit Hq;
    [reflexivity|].
  apply quiet_tail in Hq as (H1 & H2 & Hq).
  cbn [send_chunks]. rewrite H1, H2, (IH _ _ Hq). reflexivity.
Qed.

Lemma send_chunks_fails env c sql e :
  forall k chunks ch i_exec i_commit,
    chunks !! k = Some ch ->
    quiet env i_exec i_commit k ->
    call_fails env OpExecuteMany (i_exec + k) = Some e ->
    send_chunks env c sql i_exec i_commit chunks
    = (Some e,
       (committed_chunks c sql (take k chunks) ++ [EvExecuteMany c sql ch])%list).
Proof.
  induction k as [|k IH]; intros chunks ch i_exec i_commit Hk Hq He;
    destruct chunks as [|ch0 chunks]; try discriminate.
  - cbn in Hk. injection Hk as ->. rewrite Nat.add_0_r in He.
    cbn [send_chunks]. rewrite He. reflexivity.
  - cbn in Hk. apply quiet_tail in Hq as (H1 & H2 & Hq).
    cbn [send_chunks]. rewrite H1, H2.
    rewrite (IH chunks ch (S i_exec) (S i_commit) Hk Hq)
      by (rewrite Nat.add_succ_l, <- Nat.add_succ_r; exact He).
    reflexivity.
Qed.




End BatchFacts.

(* ===================================================================== *)
(** * Theorems: the forwarding attempts *)
(* ===================================================================== *)

Module TunnelFacts.

Import Driver Connector Frame Observe Run PreparedFacts.
Local Open Scope string_scope.

(** Steps 1 and 2 of [port_forward_postgres]: the configuration file and
    the login. *)
Definition login_phase (env : Env) : M unit :=
  backup_kube_config env ;;; login env.

(** What the login phase leaves alone, and the events it never emits. *)
Definition tunnel_view (s : State) := (max_retries s, calls s OpRandint).

Definition not_spawn (e : event) : Prop :=
  match e with EvSpawn _ _ => False | _ => True end.

(** The port selected by the draw numbered [k]. *)
Definition drawn_port (env : Env) (k : nat) : Z := randint env 30000 40000 k.

Section Facts.

Variable env : Env.

Lemma login_phase_frame :
  steps (keeps tunnel_view not_spawn) (login_phase env).
Proof.
  unfold login_phase, backup_kube_config, login, login_attempt,
    validate_kube_config.
  fsteps_auto.
Qed.

Lemma spawned_ports_app (d1 d2 : list event) :
  spawned_ports (d1 ++ d2) = (spawned_ports d1 ++ spawned_ports d2)%list.
Proof. apply omap_app. Qed.

Lemma spawned_ports_not_spawn (d : list event) :
  Forall not_spawn d -> spawned_ports d = [].
Proof.
  induction 1 as [|e d He _ IH]; [reflexivity|].
  destruct e; cbn in He; try exact IH. contradiction.
Qed.

Hypothesis never_alive : forall k, poll_alive env k = false.
Hypothesis ports_free : forall k, port_in_use env k = false.
Hypothesis terminate_ok : forall k, call_fails env OpTerminate k = None.

(** With a free port at the first probe, the selection takes one draw. *)
Lemma get_random_available_port_first (s : State) :
  exists s',
    get_random_available_port env s = (Ok (drawn_port env (calls s OpRandint)), s')
    /\ calls s' OpRandint = S (calls s OpRandint)
    /\ trace s' = (trace s ++ [EvProbe (drawn_port env (calls s OpRandint))])%list
    /\ retry_delay s' = retry_delay s.
Proof using ports_free.
  unfold get_random_available_port.
  change (seq 0 100) with (0 :: seq 1 99). cbn [for_loop]. unfold probe_port.
  run. rewrite ports_free. run.
  eexists. split; [reflexivity|]. cbn. auto.
Qed.

(** One failed attempt. *)
Lemma forward_attempt_fails (attempt : Z) (s : State) :
  exists s' d,
    forward_attempt env attempt s = (Ok None, s')
    /\ calls s' OpRandint = S (calls s OpRandint)
    /\ trace s' = (trace s ++ d)%list
    /\ spawned_ports d = [drawn_port env (calls s OpRandint)].
Proof using never_alive ports_free terminate_ok.
  unfold forward_attempt.
  destruct (get_random_available_port_first s) as (s1 & Hrun & Hcalls & Htr & _).
  rewrite (bind_ok _ _ _ _ _ Hrun). run.
  rewrite never_alive. run. rewrite terminate_ok. run.
  eexists. eexists. split; [reflexivity|]. cbn [calls set_calls set_trace trace].
  split; [exact Hcalls|]. rewrite Htr. rewrite <- !app_assoc. cbn [app].
  split; [reflexivity|]. reflexivity.
Qed.

Lemma forward_attempts_fail (attempts : list Z) :
  forall s, exists s' d,
    for_loop attempts (forward_attempt env) s = (Ok None, s')
    /\ calls s' OpRandint = calls s OpRandint + length attempts
    /\ trace s' = (trace s ++ d)%list
    /\ spawned_ports d
       = map (fun i => drawn_port env (calls s OpRandint + i))
             (seq 0 (length attempts)).
Proof using never_alive ports_free terminate_ok.
  induction attempts as [|a attempts IH]; intros s.
  - exists s, []. cbn. rewrite app_nil_r. auto.
  - destruct (forward_attempt_fails a s) as (s1 & d1 & Hrun & Hcalls & Htr & Hp).
    destruct (IH s1) as (s2 & d2 & Hrun2 & Hcalls2 & Htr2 & Hp2).
    exists s2, (d1 ++ d2)%list. cbn [for_loop].
    rewrite (bind_ok _ _ _ _ _ Hrun), Hrun2.
    split; [reflexivity|]. split; [cbn [length]; lia|].
    split; [rewrite Htr2, Htr, app_assoc; reflexivity|].
    rewrite spawned_ports_app, Hp, Hp2. cbn [length seq map app].
    rewrite Nat.add_0_r. f_equal.
    rewrite <- seq_shift, map_map. apply map_ext. intros i.
    rewrite Hcalls. f_equal. lia.
Qed.

End Facts.

Lemma port_forward_after_login env s s1 :
  login_phase env s = (Ok tt, s1) ->
  port_forward_postgres env s = forward env s1.
Proof.
  unfold login_phase, port_forward_postgres, bind.
  destruct (backup_kube_config env s) as [[u|e] sa]; [|discriminate].
  destruct (login env sa) as [[[]|e] sb]; [|discriminate].
  intros [= ->]. reflexivity.
Qed.

Lemma length_range2 (a b : Z) : length (range2 a b) = Z.to_nat (b - a).
Proof. unfold range2. rewrite length_map, length_seq. reflexivity. Qed.




End TunnelFacts.

(* ===================================================================== *)
(** * Theorems: run_query, the bulk-insert redirection *)
(* ===================================================================== *)

Module RedirectFacts.

Import Driver Connector Frame Observe Run PreparedFacts.
Local Open Scope string_scope.

(** The message of line 423 and the redirected execution. *)
Definition redirected (env : Env) (table_match : string)
    (columns : list string) (params : option (list pyval)) : M bool :=
  log Info ("Converting to batch insert: " +:+ table_match +:+ " with "
            +:+ Py.str_of_Z (Z.of_nat (length (params_list params)))
            +:+ " rows") ;;;
  batch_insert env table_match columns (params_list params) 1000.

(** The message of line 426 and what follows it. *)
Definition fallback (env : Env) (query query_type : string)
    (fetch : fetch_mode) (max_retries' : Z) (params : option (list pyval))
    (use_prepared : bool) (e : exn) : M qresult :=
  log Warning ("Could not convert to batch insert: " +:+ exn_str e
               +:+ ". Using standard execution.") ;;;
  single_statement env query query_type fetch max_retries' params use_prepared.

(** Parsing reads the text only. *)
Lemma parse_insert_pure (query : string) (s : State) :
  parse_insert query s = (outcome (parse_insert query) s, s).
Proof.
  unfold outcome, parse_insert, index, bind, ret, raise.
  repeat match goal with
         | |- context [nth_error ?l ?i] => destruct (nth_error l i)
         end; reflexivity.
Qed.

Lemma ensure_connected_open env s c :
  connection s = Some c -> conn_closed s c = false ->
  ensure_connected env s = (Ok tt, s).
Proof.
  intros Hc Ho. unfold ensure_connected, bind, get. rewrite Hc, Ho.
  reflexivity.
Qed.

Section Facts.

Variable env : Env.


End Facts.



End RedirectFacts.

(* ===================================================================== *)
(** * Reconnecting in a healthy environment *)
(* ===================================================================== *)

Module HealthyFacts.

Import Driver Connector Frame Observe Run PreparedFacts Infrastructure
  ReconnectFacts.
Local Open Scope string_scope.

(** The infrastructure works: the configuration file is valid, the login
    succeeds, the probed ports are free, the forwarding process stays
    alive, and the calls that manage the tunnel, the connection and the
    pool do not raise. *)
Record healthy (env : Env) : Prop := {
  kube_valid : forall k, kube_config env k = KubeValid;
  login_ok : forall k, login_returncode env k = 0%Z;
  ports_free : forall k, port_in_use env k = false;
  tunnel_alive : forall k, poll_alive env k = true;
  terminate_ok : forall k, call_fails env OpTerminate k = None;
  connect_ok : forall k, call_fails env OpConnect k = None;
  closeall_ok : forall k, call_fails env OpPoolCloseAll k = None;
  pool_create_ok : forall k, call_fails env OpPoolCreate k = None
}.

(** The connector can build its tunnel: it runs in CI mode, where there is
    none, or it is allowed at least one attempt. *)
Definition can_tunnel (s : State) : Prop :=
  is_ci s = true \/ (1 <= max_retries s)%Z.

Definition completes {A} (m : M A) (s : State) : Prop :=
  exists a s', m s = (Ok a, s').

Lemma completes_bind {A B} (m : M A) (k : A -> M B) s :
  completes m s ->
  (forall a s', m s = (Ok a, s') -> completes (k a) s') ->
  completes (bind m k) s.
Proof.
  intros (a & s' & Hm) Hk. destruct (Hk a s' Hm) as (b & s'' & Hb).
  exists b, s''. rewrite (bind_ok _ _ _ _ _ Hm). exact Hb.
Qed.

Lemma completes_get {B} (k : State -> M B) s :
  completes (k s) s -> completes (bind get k) s.
Proof. intros H. exact H. Qed.

Lemma range2_cons (a b : Z) :
  (a < b)%Z -> range2 a b = a :: range2 (a + 1) b.
Proof.
  intros Hab. unfold range2.
  replace (Z.to_nat (b - a)) with (S (Z.to_nat (b - (a + 1)))) by lia.
  cbn [seq map]. f_equal; [lia|].
  rewrite <- seq_shift, map_map. apply map_ext. intros i. lia.
Qed.

Section Facts.

Variable env : Env.
Hypothesis Henv : healthy env.

Lemma backup_completes s : completes (backup_kube_config env) s.
Proof using Henv.
  unfold completes, backup_kube_config, validate_kube_config. run.
  rewrite (kube_valid env Henv). run. eauto.
Qed.

Lemma login_completes s :
  (1 <= max_retries s)%Z -> completes (login env) s.
Proof using Henv.
  intros Hn. unfold completes, login.
  rewrite (bind_ok _ _ s s s) by reflexivity.
  rewrite range2_cons by lia. cbn [for_loop].
  unfold login_attempt, validate_kube_config. run.
  rewrite (login_ok env Henv). cbn [Z.eqb]. run.
  rewrite (kube_valid env Henv). run. eauto.
Qed.

Lemma forward_completes s :
  (1 <= max_retries s)%Z -> completes (forward env) s.
Proof using Henv.
  intros Hn. unfold completes, forward.
  rewrite (bind_ok _ _ s s s) by reflexivity.
  rewrite range2_cons by lia. cbn [for_loop]. unfold forward_attempt.
  destruct (TunnelFacts.get_random_available_port_first env
              (ports_free env Henv) s) as (s1 & Hrun & _).
  run. rewrite Hrun. run.
  rewrite (tunnel_alive env Henv). run. eauto.
Qed.

Lemma can_tunnel_view s s' :
  infra_view s' = infra_view s -> can_tunnel s -> can_tunnel s'.
Proof using Type.
  intros Hv Hs. unfold infra_view in Hv. unfold can_tunnel in *.
  injection Hv as Hci Hmax _ _ _ _ _. rewrite Hci, Hmax. exact Hs.
Qed.

Lemma can_tunnel_keeps (P : event -> Prop) s s' :
  keeps infra_view P s s' -> can_tunnel s -> can_tunnel s'.
Proof using Type. intros (Hv & _). apply can_tunnel_view. exact Hv. Qed.

(** Sequencing under the frame of the infrastructure. *)
Lemma completes_then {A B} (m : M A) (k : A -> M B) s :
  isteps m -> can_tunnel s -> completes m s ->
  (forall a s', can_tunnel s' -> completes (k a) s') ->
  completes (bind m k) s.
Proof using Type.
  intros Hsteps Hs Hm Hk. apply completes_bind; [exact Hm|].
  intros a s' Hrun. apply Hk.
  eapply can_tunnel_keeps; [|exact Hs].
  specialize (Hsteps s). rewrite Hrun in Hsteps. exact Hsteps.
Qed.

Lemma port_forward_completes s :
  (1 <= max_retries s)%Z -> completes (port_forward_postgres env) s.
Proof using Henv.
  intros Hn. assert (Hs : can_tunnel s) by (right; exact Hn).
  unfold port_forward_postgres.
  assert (Hkeep : forall (P : event -> Prop) s1 s2,
            keeps infra_view P s1 s2 ->
            (1 <= max_retries s1)%Z -> (1 <= max_retries s2)%Z).
  { intros P s1 s2 (Hv & _) H1. unfold infra_view in Hv.
    injection Hv as _ Hmax _ _ _ _ _. rewrite Hmax. exact H1. }
  apply completes_bind; [apply backup_completes|].
  intros u1 s1 Hrun1.
  assert (H1 : (1 <= max_retries s1)%Z).
  { pose proof (isteps_backup_kube_config env s) as Hf.
    rewrite Hrun1 in Hf. exact (Hkeep _ _ _ Hf Hn). }
  apply completes_bind; [apply login_completes; exact H1|].
  intros u2 s2 Hrun2.
  apply forward_completes.
  pose proof (isteps_login env s1) as Hf.
  rewrite Hrun2 in Hf. exact (Hkeep _ _ _ Hf H1).
Qed.

Lemma reconnect_body_completes s :
  can_tunnel s -> completes (reconnect_body env) s.
Proof using Henv.
  intros Hs. unfold reconnect_body.
  apply completes_get.
  apply completes_then; [| exact Hs | |].
  { destruct (port_forward_process s); [|apply fsteps_ret].
    destruct (negb (is_ci s)); [|apply fsteps_ret].
    apply fsteps_bind; [apply isteps_terminate|]. isteps_auto. }
  { unfold completes, terminate.
    destruct (port_forward_process s); [|run; eauto].
    destruct (negb (is_ci s)); [|run; eauto].
    run. rewrite (terminate_ok env Henv). run. eauto. }
  intros _ s1 Hs1. apply completes_get.
  apply completes_then; [| exact Hs1 | |].
  { destruct (negb (is_ci s1)); [|apply fsteps_ret].
    apply fsteps_bind; [apply isteps_port_forward_postgres|]. isteps_auto. }
  { destruct (is_ci s1) eqn:Hci; cbn [negb]; [unfold completes; run; eauto|].
    destruct Hs1 as [Hci'|Hn]; [congruence|].
    apply completes_bind; [apply port_forward_completes; exact Hn|].
    intros pid s' _. unfold completes. run. eauto. }
  intros _ s2 Hs2.
  apply completes_then; [apply isteps_connect_to_postgres | exact Hs2 | |].
  { unfold completes, connect_to_postgres. run.
    destruct (target s2) as [host port]. run.
    rewrite (connect_ok env Henv). run. eauto. }
  intros c s3 Hs3. unfold completes. run.
  unfold closeall, create_connection_pool.
  destruct (connection_pool s3); run; [|eauto].
  rewrite (closeall_ok env Henv). run.
  rewrite (pool_create_ok env Henv). run. eauto.
Qed.

(** In a healthy environment [reconnect] completes; it leaves an open
    primary connection, keeps what the infrastructure never touches, and
    adds to the trace its opening message followed by events of the
    infrastructure. *)
Lemma reconnect_healthy s :
  can_tunnel s ->
  exists s' c' d,
    reconnect env s = (Ok tt, s')
    /\ connection s' = Some c' /\ conn_closed s' c' = false
    /\ infra_view s' = infra_view s
    /\ trace s' = (trace s ++ EvLog Info reconnecting :: d)%list
    /\ Forall (fun e => infra e = true) d.
Proof using Henv.
  intros Hs.
  pose (s0 := set_trace (trace s ++ [EvLog Info reconnecting]) s).
  assert (Hs0 : can_tunnel s0) by exact Hs.
  destruct (reconnect_body_completes s0 Hs0) as ([] & s' & Hbody).
  assert (Hrec : reconnect env s = (Ok tt, s')).
  { rewrite reconnect_unfold. unfold bind, log, emit, modify. exact Hbody. }
  destruct (reconnect_ok_connection env s tt s' Hrec) as (c' & Hc' & Ho').
  pose proof (isteps_reconnect_body env s0) as (Hv & d & Hd & HP).
  rewrite Hbody in Hv, Hd. cbn [snd] in Hv, Hd.
  exists s', c', d. split; [exact Hrec|]. split; [exact Hc'|].
  split; [exact Ho'|]. split; [exact Hv|]. split; [|exact HP].
  rewrite Hd. unfold s0. cbn [trace set_trace].
  rewrite <- app_assoc. reflexivity.
Qed.

End Facts.

End HealthyFacts.

(* ===================================================================== *)
(** * Theorems: run_query, the standard path *)
(* ===================================================================== *)

Module RetryFacts.

Import Driver Connector Frame Observe Run PreparedFacts Infrastructure
  ReconnectFacts HealthyFacts RedirectFacts.
Local Open Scope string_scope.

Lemma key_steps_app (d1 d2 : list event) :
  key_steps (d1 ++ d2) = (key_steps d1 ++ key_steps d2)%list.
Proof. apply omap_app. Qed.

Lemma flat_map_seq_shift {B} (f : nat -> list B) (m : nat) :
  forall a, flat_map f (seq (S a) m) = flat_map (fun t => f (S t)) (seq a m).
Proof.
  induction m as [|m IH]; intros a; [reflexivity|].
  cbn [seq flat_map]. rewrite IH. reflexivity.
Qed.

Lemma key_steps_cons (e : event) (t : list event) :
  key_steps (e :: t)
  = match key_step e with
    | Some y => y :: key_steps t
    | None => key_steps t
    end.
Proof. reflexivity. Qed.

Lemma key_step_infra (e : event) : infra e = true -> key_step e = None.
Proof.
  destruct e as [lvl msg|site ms| | | | | | | | | | | | | | |];
    cbn; try discriminate; try reflexivity.
  - destruct (String.eqb msg reconnecting); [discriminate|].
    destruct lvl; reflexivity.
  - destruct site; [reflexivity|reflexivity|discriminate].
Qed.

Lemma key_steps_infra (d : list event) :
  Forall (fun e => infra e = true) d -> key_steps d = [].
Proof.
  induction 1 as [|e d He _ IH]; [reflexivity|].
  change (key_steps (e :: d))
    with (match key_step e with
          | Some y => y :: key_steps d
          | None => key_steps d
          end).
  rewrite (key_step_infra e He). exact IH.
Qed.

Section Loop.

Variable env : Env.
Hypothesis Henv : healthy env.
Hypothesis Hfail : always_transient env.

Variables (query query_type : string) (params : option (list pyval)).
Variable max_retries' : Z.

(** One failed attempt: the [execute] raises, the handler runs. *)
Lemma failed_attempt_run (j cur : nat) (s : State) (c : nat) :
  can_tunnel s -> connection s = Some c ->
  exists e s1 cur' s2 c2 d,
    execute env cur query params s = (Raise e, s1)
    /\ retryable e = true
    /\ after_failure env max_retries' (Z.of_nat j) e cur s1 = (Ok cur', s2)
    /\ can_tunnel s2 /\ connection s2 = Some c2
    /\ calls s2 OpExecute = S (calls s OpExecute)
    /\ trace s2 = (trace s ++ d)%list
    /\ key_steps d = failed_attempt env query max_retries' (calls s OpExecute) j 0.
Proof using Henv Hfail.
  intros Hs Hc.
  destruct (Hfail (calls s OpExecute)) as (e & He & Hre).
  assert (Herr : error_at env (calls s OpExecute) = e)
    by (unfold error_at; rewrite He; reflexivity).
  assert (Hexec : forall s1, s1 = snd (execute env cur query params s) ->
            execute env cur query params s = (Raise e, s1)).
  { intros s1 ->. unfold execute. run. rewrite He. reflexivity. }
  pose (s1 := snd (execute env cur query params s)).
  assert (Hc1 : connection s1 = Some c) by (subst s1; unfold execute; run; rewrite He; exact Hc).
  assert (Hs1 : can_tunnel s1) by (subst s1; unfold execute; run; rewrite He; exact Hs).
  assert (Hk1 : calls s1 OpExecute = S (calls s OpExecute))
    by (subst s1; unfold execute; run; rewrite He; run; reflexivity).
  assert (Ht1 : trace s1 = (trace s ++ [EvExecute cur query params])%list)
    by (subst s1; unfold execute; run; rewrite He; reflexivity).
  specialize (Hexec s1 eq_refl). clearbody s1.
  unfold failed_attempt. rewrite !Nat.add_0_r, Herr.
  unfold after_failure.
  destruct (connection_class e && (Z.of_nat j <? max_retries' - 1)%Z) eqn:Hcond.
  - pose (sx := snd ((rollback c ;;;
                      log Warning ("Attempt " +:+ Py.str_of_Z (Z.of_nat j + 1) +:+ "/"
                                   +:+ Py.str_of_Z max_retries' +:+ " failed: "
                                   +:+ exn_str e) ;;;
                      sleep Backoff (backoff_ms (Z.of_nat j))) s1)).
    assert (Hsx : can_tunnel sx) by exact Hs1.
    assert (Hkx : calls sx OpExecute = calls s1 OpExecute) by reflexivity.
    assert (Htx : trace sx
                  = (trace s1 ++ [EvRollback c;
                       EvLog Warning ("Attempt " +:+ Py.str_of_Z (Z.of_nat j + 1) +:+ "/"
                                      +:+ Py.str_of_Z max_retries' +:+ " failed: "
                                      +:+ exn_str e);
                       EvSleep Backoff (backoff_ms (Z.of_nat j))])%list)
      by (subst sx; run; rewrite <- !app_assoc; reflexivity).
    destruct (reconnect_healthy env Henv sx Hsx)
      as (s' & c' & d & Hrec & Hc' & Ho' & Hv & Htr & Hd).
    exists e, s1, c', s', c'. eexists. split; [exact Hexec|]. split; [exact Hre|].
    split.
    { run. rewrite Hc1. run. rewrite Hcond.
      match goal with
      | |- context [reconnect env ?s0] =>
          change (reconnect env s0) with (reconnect env sx)
      end.
      rewrite Hrec. run. rewrite Hc'. run. rewrite Ho'. reflexivity. }
    split.
    { exact (can_tunnel_view sx s' Hv Hsx). }
    split; [exact Hc'|]. split.
    { unfold infra_view in Hv. injection Hv as _ _ _ _ HcE _ _. congruence. }
    split.
    { rewrite Htr, Htx, Ht1. rewrite <- !app_assoc. cbn [app]. reflexivity. }
    rewrite !key_steps_cons. cbn [key_step]. rewrite String.eqb_refl.
    rewrite (key_steps_infra d Hd). reflexivity.
  - exists e, s1, cur. eexists. exists c. eexists.
    split; [exact Hexec|]. split; [exact Hre|].
    split; [run; rewrite Hc1; run; rewrite Hcond; reflexivity|].
    split; [exact Hs1|]. split; [exact Hc1|]. split; [exact Hk1|].
    split; [cbn [trace set_trace]; rewrite Ht1, <- !app_assoc; cbn [app];
            reflexivity|].
    reflexivity.
Qed.

Lemma retry_loop_all_fail (m : nat) :
  forall (j : nat) (cur : nat) (s : State) (c : nat),
    can_tunnel s -> connection s = Some c ->
    exists cur' s1 d,
      retry_loop env query query_type params max_retries'
        (map Z.of_nat (seq j m)) cur s
      = (cur', Ok None, s1)
      /\ trace s1 = (trace s ++ d)%list
      /\ key_steps d
         = flat_map (failed_attempt env query max_retries' (calls s OpExecute) j)
             (seq 0 m).
Proof using Henv Hfail.
  induction m as [|m IH]; intros j cur s c Hs Hc.
  - exists cur, s, []. cbn. rewrite app_nil_r. auto.
  - destruct (failed_attempt_run j cur s c Hs Hc)
      as (e & s1 & cur1 & s2 & c2 & d & Hexec & Hre & Hafter & Hs2 & Hc2
          & Hk2 & Ht2 & Hd).
    destruct (IH (S j) cur1 s2 c2 Hs2 Hc2) as (cur' & s3 & d' & Hrun & Ht3 & Hd').
    exists cur', s3, (d ++ d')%list.
    cbn [seq map retry_loop]. rewrite Hexec, Hre, Hafter, Hrun.
    split; [reflexivity|]. split; [rewrite Ht3, Ht2, app_assoc; reflexivity|].
    rewrite key_steps_app, Hd, Hd', Hk2. cbn [seq flat_map]. f_equal.
    rewrite flat_map_seq_shift.
    apply flat_map_ext. intros t.
    unfold failed_attempt.
    replace (j + S t) with (S j + t) by lia.
    replace (calls s OpExecute + S t) with (S (calls s OpExecute) + t) by lia.
    reflexivity.
Qed.

End Loop.

Lemma executed_key_steps (t : list event) :
  executed t = omap step_sql (key_steps t).
Proof.
  induction t as [|e t IH]; [reflexivity|].
  rewrite key_steps_cons.
  destruct e as [lvl msg|site ms| | | | | | | | | | | | | | |];
    try exact IH.
  - cbn [key_step]. destruct lvl; try exact IH.
    destruct (String.eqb msg reconnecting); exact IH.
  - destruct site; exact IH.
  - cbn [key_step]. change (executed (EvExecute conn sql params :: t))
      with (sql :: executed t). rewrite IH. reflexivity.
Qed.

Lemma backoff_key_steps (t : list event) :
  backoff_delays t = omap step_delay (key_steps t).
Proof.
  induction t as [|e t IH]; [reflexivity|].
  rewrite key_steps_cons.
  destruct e as [lvl msg|site ms| | | | | | | | | | | | | | |];
    try exact IH.
  - cbn [key_step]. destruct lvl; try exact IH.
    destruct (String.eqb msg reconnecting); exact IH.
  - destruct site; try exact IH.
    cbn [key_step]. change (backoff_delays (EvSleep Backoff ms :: t))
      with (ms :: backoff_delays t). rewrite IH. reflexivity.
Qed.

Lemma failed_attempts_sql env query n k j (m : nat) :
  omap step_sql (flat_map (failed_attempt env query n k j) (seq 0 m))
  = repeat query m.
Proof.
  generalize 0 at 1. induction m as [|m IH]; intros a; [reflexivity|].
  cbn [seq flat_map repeat]. rewrite omap_app, IH. unfold failed_attempt.
  destruct (connection_class _ && _); reflexivity.
Qed.

Lemma failed_attempts_delays env query n k (m : nat) :
  forall a,
    omap step_delay (flat_map (failed_attempt env query n k 0) (seq a m))
    = map (fun t => backoff_ms (Z.of_nat t)) (seq a m).
Proof.
  induction m as [|m IH]; intros a; [reflexivity|].
  cbn [seq flat_map map]. rewrite omap_app, IH. unfold failed_attempt.
  cbn [Nat.add]. destruct (connection_class _ && _); reflexivity.
Qed.

Lemma backoff_ms_doubles (attempt : Z) :
  (0 <= attempt)%Z ->
  backoff_ms 0 = 200%Z
  /\ backoff_ms (attempt + 1) = (2 * backoff_ms attempt)%Z
  /\ (backoff_ms attempt <= backoff_ms (attempt + 1))%Z.
Proof.
  intros Ha. unfold backoff_ms. rewrite Z.pow_add_r by lia.
  assert (0 < 2 ^ attempt)%Z by (apply Z.pow_pos_nonneg; lia).
  split; [reflexivity|]. split; lia.
Qed.

Lemma run_query_not_bulk env query fetch n params use_prepared :
  let q := DataHelper.escape_single_quotes (re_word env) query in
  let qt := query_type_of q in
  is_bulk_insert q qt params = false ->
  use_prepared = false \/ params = None ->
  run_query env query fetch n params use_prepared
  = (ensure_connected env ;;; standard_execution env q qt fetch n params).
Proof.
  intros q qt Hbulk Hstd. unfold run_query, batch_redirect. fold q qt.
  rewrite Hbulk. unfold single_statement.
  destruct Hstd as [-> | ->]; [reflexivity|].
  destruct use_prepared; reflexivity.
Qed.

Lemma range2_from_0 (n : Z) :
  range2 0 n = map Z.of_nat (seq 0 (Z.to_nat n)).
Proof.
  unfold range2. rewrite Z.sub_0_r. apply map_ext. intros i. lia.
Qed.


Lemma failing_env_healthy (e : exn) : healthy (Scenarios.failing_env e).
Proof. constructor; intros k; reflexivity. Qed.


Example three_attempts_with_reconnects :
  let env := Scenarios.failing_env OperationalError in
  let run := run_query env "SELECT 1" FetchOne 3 None false in
  key_steps (events_of run (Scenarios.activated 5))
  = [SExecute "SELECT 1"; SRollback; SBackoff 200; SReconnect;
     SExecute "SELECT 1"; SRollback; SBackoff 400; SReconnect;
     SExecute "SELECT 1"; SRollback; SBackoff 800].
Proof. vm_compute. reflexivity. Qed.


End RetryFacts.

(* ===================================================================== *)
(** * Theorems: run_query, commit and result *)
(* ===================================================================== *)

Module CommitFacts.

Import Driver Connector Frame Observe Run PreparedFacts Infrastructure
  ReconnectFacts RedirectFacts RetryFacts.
Local Open Scope string_scope.

(** The number of [execute] calls made so far. *)
Definition exec_view (s : State) : nat := calls s OpExecute.

Definition no_commit (e : event) : Prop := is_commit e = false.

Abbreviation xsteps := (steps (keeps exec_view no_commit)).

Lemma count_app (f : event -> bool) (a b : list event) :
  count f (a ++ b) = count f a + count f b.
Proof. unfold count. rewrite List.filter_app, length_app. reflexivity. Qed.

Lemma count_no_commit (d : list event) :
  Forall no_commit d -> count is_commit d = 0.
Proof.
  induction 1 as [|e d He _ IH]; [reflexivity|].
  unfold count in *. cbn [List.filter]. rewrite He. exact IH.
Qed.

Lemma infra_no_commit (e : event) : infra e = true -> no_commit e.
Proof. destruct e; cbn; intros H; try reflexivity; discriminate. Qed.

Section Facts.

Variable env : Env.

Lemma xsteps_reconnect : xsteps (reconnect env).
Proof.
  rewrite reconnect_unfold. apply fsteps_bind; [fstep|]. intros _ s.
  destruct (isteps_reconnect_body env s) as (Hv & d & Hd & HP).
  split.
  - unfold infra_view in Hv. unfold exec_view. congruence.
  - exists d. split; [exact Hd|].
    eapply Forall_impl; [exact HP|]. apply infra_no_commit.
Qed.

Lemma xsteps_ensure_connected : xsteps (ensure_connected env).
Proof.
  unfold ensure_connected. apply fsteps_bind; [fstep|]. intros s.
  destruct (match connection s with Some c => conn_closed s c | None => true end);
    [|fstep].
  apply fsteps_bind; [fstep|]. intros _. apply xsteps_reconnect.
Qed.

Lemma xsteps_after_failure n attempt e cur :
  xsteps (after_failure env n attempt e cur).
Proof.
  unfold after_failure, self_connection, rollback, cursor.
  do 4 (apply fsteps_bind; [fsteps_auto|]; intros).
  destruct (connection_class e && (attempt <? n - 1)%Z); [|fstep].
  apply fsteps_bind; [apply xsteps_reconnect|]. fsteps_auto.
Qed.

(** The retry loop commits nothing, and when it leaves with the cursor of
    a successful [execute], that call was the last one made. *)
Lemma retry_loop_frame query query_type params n (attempts : list Z) :
  forall cur s,
    match retry_loop env query query_type params n attempts cur s with
    | (cur', r, s1) =>
        (exists d, trace s1 = (trace s ++ d)%list /\ Forall no_commit d)
        /\ forall out, r = Ok (Some out) ->
             execute_outcome env (pred (calls s1 OpExecute)) = ExecOk out
    end.
Proof.
  induction attempts as [|a attempts IH]; intros cur s.
  - cbn. split; [exists []; split; [by rewrite app_nil_r|constructor]|].
    discriminate.
  - cbn [retry_loop]. unfold execute. run.
    destruct (execute_outcome env (calls s OpExecute)) as [e|out] eqn:He; run.
    + destruct (retryable e).
      * match goal with
        | |- context [after_failure env n a e cur ?s0] =>
            pose proof (xsteps_after_failure n a e cur s0) as (_ & d1 & Hd1 & HP1);
            destruct (after_failure env n a e cur s0) as [[cur1|e1] s2]
        end; cbn [snd] in Hd1.
        -- specialize (IH cur1 s2).
           destruct (retry_loop env query query_type params n attempts cur1 s2)
             as [[cur' r] s3].
           destruct IH as ((d2 & Hd2 & HP2) & Hlast). split; [|exact Hlast].
           exists ((EvExecute cur query params :: d1) ++ d2)%list. split.
           ++ rewrite Hd2, Hd1. cbn [trace set_trace set_calls].
              rewrite <- !app_assoc. reflexivity.
           ++ apply Forall_app. split; [|exact HP2].
              constructor; [reflexivity|exact HP1].
        -- split; [|discriminate].
           exists (EvExecute cur query params :: d1). split.
           ++ rewrite Hd1. cbn [trace set_trace set_calls].
              rewrite <- !app_assoc. reflexivity.
           ++ constructor; [reflexivity|exact HP1].
      * split; [|discriminate].
        exists [EvExecute cur query params]. split; [reflexivity|].
        constructor; [reflexivity|constructor].
    + unfold report_slow.
      destruct (slow out); run; [destruct (String.eqb query_type "insert"); run|].
      all: split;
        [eexists; split;
           [cbn [trace set_trace set_calls]; rewrite <- ?app_assoc; reflexivity
           |repeat constructor]
        |intros out' [= <-]; cbn [calls set_calls set_trace]; run; exact He].
Qed.


End Facts.



End CommitFacts.


(* ===================================================================== *)
(** * Further properties: the selection of a local port *)
(* ===================================================================== *)

Module PortFacts.

Import Driver Connector Frame Observe Run PreparedFacts TunnelFacts.
Local Open Scope string_scope.

(** The probes of the candidates drawn from the draw numbered [r] on. *)
Definition probes (env : Env) (r n : nat) : list event :=
  map (fun i => EvProbe (drawn_port env (r + i))) (seq 0 n).

Definition no_free_port : string :=
  "Failed to find an available port for port-forwarding.".

Lemma probes_succ env r n :
  probes env r (S n)
  = EvProbe (drawn_port env r) :: probes env (S r) n.
Proof.
  unfold probes. cbn [seq map]. rewrite Nat.add_0_r. f_equal.
  rewrite <- seq_shift, map_map. apply map_ext. intros i.
  f_equal. f_equal. lia.
Qed.

Section Facts.

Variable env : Env.

(** The loop over the candidates, when the candidate of index [t] is the
    first one found free. *)
Lemma probe_loop_finds (t : nat) :
  forall (xs : list nat) (s : State),
    t < length xs ->
    (forall i, i < t -> port_in_use env (calls s OpProbe + i) = true) ->
    port_in_use env (calls s OpProbe + t) = false ->
    exists s',
      for_loop xs (fun _ => probe_port env) s
      = (Ok (Some (drawn_port env (calls s OpRandint + t))), s')
      /\ trace s' = (trace s ++ probes env (calls s OpRandint) (S t))%list.
Proof using Type.
  induction t as [|t IH]; intros xs s Hlen Hbusy Hfree;
    (destruct xs as [|x xs]; [cbn in Hlen; lia|]).
  - cbn [for_loop]. unfold probe_port. run.
    rewrite Nat.add_0_r in Hfree. rewrite Hfree. run.
    eexists. split; [rewrite Nat.add_0_r; reflexivity|].
    cbn [trace set_trace]. rewrite probes_succ. reflexivity.
  - cbn [for_loop]. unfold probe_port at 1. run.
    rewrite <- (Nat.add_0_r (calls s OpProbe)), (Hbusy 0) by lia. run.
    match goal with
    | |- context [for_loop xs _ ?s1] =>
        destruct (IH xs s1) as (s' & Hrun & Htr)
    end.
    + cbn [length] in Hlen. lia.
    + intros i Hi. run. rewrite Nat.add_0_r.
      rewrite Nat.add_succ_l, <- Nat.add_succ_r. apply Hbusy. lia.
    + run. rewrite Nat.add_0_r.
      rewrite Nat.add_succ_l, <- Nat.add_succ_r. exact Hfree.
    + revert Hrun Htr. run. rewrite !Nat.add_0_r. intros Hrun Htr.
      rewrite Hrun. eexists. split.
      * rewrite Nat.add_succ_l, <- Nat.add_succ_r. reflexivity.
      * rewrite Htr. rewrite (probes_succ env (calls s OpRandint) (S t)).
        rewrite <- app_assoc. reflexivity.
Qed.

(** The loop over the candidates, when all of them are in use. *)
Lemma probe_loop_exhausted :
  forall (xs : list nat) (s : State),
    (forall i, i < length xs -> port_in_use env (calls s OpProbe + i) = true) ->
    exists s',
      for_loop xs (fun _ => probe_port env) s = (Ok None, s')
      /\ trace s' = (trace s ++ probes env (calls s OpRandint) (length xs))%list.
Proof using Type.
  induction xs as [|x xs IH]; intros s Hbusy.
  - exists s. cbn. rewrite app_nil_r. auto.
  - cbn [for_loop]. unfold probe_port at 1. run.
    rewrite <- (Nat.add_0_r (calls s OpProbe)), (Hbusy 0) by (cbn; lia). run.
    match goal with
    | |- context [for_loop xs _ ?s1] =>
        destruct (IH s1) as (s' & Hrun & Htr)
    end.
    + intros i Hi. run. rewrite Nat.add_0_r.
      rewrite Nat.add_succ_l, <- Nat.add_succ_r. apply Hbusy. cbn. lia.
    + revert Hrun Htr. run. rewrite !Nat.add_0_r. intros Hrun Htr.
      rewrite Hrun. eexists. split; [reflexivity|].
      rewrite Htr. cbn [length]. rewrite probes_succ, <- app_assoc.
      reflexivity.
Qed.

Lemma drawn_port_in_range (k : nat) :
  (30000 <= drawn_port env k <= 40000)%Z.
Proof using Type.
  unfold drawn_port, randint.
  pose proof (Z.mod_pos_bound (random env k) (40000 - 30000 + 1)). lia.
Qed.

(** X1. [get_random_available_port] returns the first candidate that its
    probe finds free: when the candidates before the one of index [t] (less
    than 100) are in use and that one is free, the result is that
    candidate, a port between 30000 and 40000, and exactly the [t + 1]
    candidates up to it were probed. *)
Theorem get_random_available_port_first_free (s : State) (t : nat) :
  t < 100 ->
  (forall i, i < t -> port_in_use env (calls s OpProbe + i) = true) ->
  port_in_use env (calls s OpProbe + t) = false ->
  let run := get_random_available_port env in
  let port := drawn_port env (calls s OpRandint + t) in
  outcome run s = Ok port
  /\ (30000 <= port <= 40000)%Z
  /\ events_of run s = probes env (calls s OpRandint) (S t).
Proof using Type.
  intros Ht Hbusy Hfree run port.
  destruct (probe_loop_finds t (seq 0 100) s) as (s' & Hrun & Htr);
    [rewrite length_seq; exact Ht|exact Hbusy|exact Hfree|].
  unfold run, outcome, events_of, get_random_available_port.
  rewrite (bind_ok _ _ _ _ _ Hrun). cbn [ret fst snd].
  split; [reflexivity|]. split; [apply drawn_port_in_range|].
  apply new_events_app. exact Htr.
Qed.

(** X2. When the first 100 candidates are all in use,
    [get_random_available_port] gives up: it raises its exception after
    having probed exactly 100 candidates. *)
Theorem get_random_available_port_gives_up (s : State) :
  (forall i, i < 100 -> port_in_use env (calls s OpProbe + i) = true) ->
  let run := get_random_available_port env in
  outcome run s = Raise (PyException no_free_port)
  /\ events_of run s = probes env (calls s OpRandint) 100
  /\ length (events_of run s) = 100.
Proof using Type.
  intros Hbusy run.
  destruct (probe_loop_exhausted (seq 0 100) s) as (s' & Hrun & Htr);
    [rewrite length_seq; exact Hbusy|].
  rewrite length_seq in Htr.
  assert (Hev : events_of run s = probes env (calls s OpRandint) 100).
  { unfold run, events_of, get_random_available_port.
    rewrite (bind_ok _ _ _ _ _ Hrun). cbn [raise snd].
    apply new_events_app. exact Htr. }
  split.
  - unfold run, outcome, get_random_available_port.
    rewrite (bind_ok _ _ _ _ _ Hrun). reflexivity.
  - split; [exact Hev|]. rewrite Hev. unfold probes.
    rewrite length_map, length_seq. reflexivity.
Qed.

End Facts.

(** As [Scenarios.healthy_env], but the first [busy] probes find their port
    in use. *)
Definition crowded_env (busy : nat) : Env :=
  {| random := random Scenarios.healthy_env;
     port_in_use := fun k => Nat.ltb k busy;
     kube_config := kube_config Scenarios.healthy_env;
     login_returncode := login_returncode Scenarios.healthy_env;
     poll_alive := poll_alive Scenarios.healthy_env;
     call_fails := call_fails Scenarios.healthy_env;
     execute_outcome := execute_outcome Scenarios.healthy_env;
     str_hash := str_hash Scenarios.healthy_env;
     re_word := re_word Scenarios.healthy_env |}.

(** Two ports in use, then a free one. *)
Lemma get_random_available_port_first_free_witness :
  let env := crowded_env 2 in
  let s := Scenarios.constructed in
  let run := get_random_available_port env in
  2 < 100
  /\ (forall i, i < 2 -> port_in_use env (calls s OpProbe + i) = true)
  /\ port_in_use env (calls s OpProbe + 2) = false
  /\ outcome run s = Ok 30014%Z
  /\ events_of run s = [EvProbe 30000; EvProbe 30007; EvProbe 30014].
Proof.
  intros env s run.
  assert (H1 : 2 < 100) by lia.
  assert (H2 : forall i, i < 2 -> port_in_use env (calls s OpProbe + i) = true).
  { intros i Hi. cbn. apply Nat.leb_le. lia. }
  assert (H3 : port_in_use env (calls s OpProbe + 2) = false) by reflexivity.
  split; [exact H1|]. split; [exact H2|]. split; [exact H3|].
  destruct (get_random_available_port_first_free env s 2 H1 H2 H3)
    as (Hout & _ & Hev).
  split; [exact Hout|exact Hev].
Defined.

(** A hundred ports in use. *)
Lemma get_random_available_port_gives_up_witness :
  let env := crowded_env 100 in
  let s := Scenarios.constructed in
  let run := get_random_available_port env in
  (forall i, i < 100 -> port_in_use env (calls s OpProbe + i) = true)
  /\ outcome run s = Raise (PyException no_free_port)
  /\ length (events_of run s) = 100.
Proof.
  intros env s run.
  assert (H : forall i, i < 100 -> port_in_use env (calls s OpProbe + i) = true).
  { intros i Hi. cbn. apply Nat.leb_le. lia. }
  split; [exact H|].
  destruct (get_random_available_port_gives_up env s H) as (Hout & _ & Hlen).
  split; [exact Hout|exact Hlen].
Defined.

End PortFacts.

(* ===================================================================== *)
(** * Further properties: the forwarding processes *)
(* ===================================================================== *)

Module ForwardFacts.

Import Driver Connector Frame Observe Run PreparedFacts TunnelFacts.
Local Open Scope string_scope.

(** The forwarding processes started, with their local ports, in order. *)
Definition spawned (t : list event) : list (nat * Z) :=
  omap (fun e => match e with EvSpawn pid port => Some (pid, port) | _ => None end) t.

(** The forwarding processes on which [terminate] was called, in order. *)
Definition terminated (t : list event) : list nat :=
  omap (fun e => match e with EvTerminate pid => Some pid | _ => None end) t.

(** The number of runs of [oc login]. *)
Definition logins (t : list event) : nat :=
  length (List.filter (fun e => match e with EvLogin => true | _ => false end) t).

(** The pauses of [retry_delay], in order. *)
Definition retry_sleeps (t : list event) : list Z :=
  omap (fun e => match e with EvSleep RetryDelay ms => Some ms | _ => None end) t.

(** Neither the start nor the end of a forwarding process. *)
Definition no_process (e : event) : Prop :=
  match e with EvSpawn _ _ | EvTerminate _ => False | _ => True end.

(** The events of the inspection of the configuration file: messages and
    the backup. *)
Definition config_event (e : event) : Prop :=
  match e with EvLog _ _ | EvKubeBackup => True | _ => False end.

(** What the inspection of the configuration file leaves alone. *)
Definition login_view (s : State) :=
  (max_retries s, retry_delay s, is_ci s).

Lemma spawned_app (d1 d2 : list event) :
  spawned (d1 ++ d2) = (spawned d1 ++ spawned d2)%list.
Proof. apply omap_app. Qed.

Lemma terminated_app (d1 d2 : list event) :
  terminated (d1 ++ d2) = (terminated d1 ++ terminated d2)%list.
Proof. apply omap_app. Qed.

Lemma retry_sleeps_app (d1 d2 : list event) :
  retry_sleeps (d1 ++ d2) = (retry_sleeps d1 ++ retry_sleeps d2)%list.
Proof. apply omap_app. Qed.

Lemma logins_app (d1 d2 : list event) :
  logins (d1 ++ d2) = logins d1 + logins d2.
Proof. unfold logins. rewrite List.filter_app, length_app. reflexivity. Qed.

Lemma no_process_spawned (d : list event) :
  Forall no_process d -> spawned d = [] /\ terminated d = [].
Proof.
  induction 1 as [|e d He _ IH]; [auto|].
  destruct e; cbn in He; try exact IH; contradiction.
Qed.

Lemma config_event_quiet (d : list event) :
  Forall config_event d ->
  logins d = 0 /\ retry_sleeps d = [] /\ spawned d = [].
Proof.
  induction 1 as [|e d He _ IH]; [auto|].
  destruct e; cbn in He; try exact IH; contradiction.
Qed.

Lemma range2_nil (a b : Z) : (b <= a)%Z -> range2 a b = [].
Proof.
  intros Hab. unfold range2.
  replace (Z.to_nat (b - a)) with 0 by lia. reflexivity.
Qed.

(** The processes started by a run are accounted for: each one was handed
    to [terminate], the one returned excepted, whose local port is the one
    the connector holds. *)
Definition accounted_for (returned : option nat) (port : Z) (d : list event)
  : Prop :=
  match returned with
  | Some pid =>
      map fst (spawned d) = (terminated d ++ [pid])%list
      /\ last (map snd (spawned d)) = Some port
  | None => map fst (spawned d) = terminated d
  end.

Definition returned_process {A} (returned : A -> option nat) (r : result A)
  : option nat :=
  match r with
  | Ok a => returned a
  | Raise _ => None
  end.

Definition accounted {A} (returned : A -> option nat) (s : State)
    (run : result A * State) : Prop :=
  exists d,
    trace (snd run) = (trace s ++ d)%list
    /\ accounted_for (returned_process returned (fst run))
         (local_port (snd run)) d.

Section Facts.

Variable env : Env.

Lemma login_phase_no_process :
  steps (keeps (fun _ : State => tt) no_process) (login_phase env).
Proof.
  unfold login_phase, backup_kube_config, login, login_attempt,
    validate_kube_config.
  fsteps_auto.
Qed.

Lemma port_selection_no_process :
  steps (keeps (fun _ : State => tt) no_process)
    (get_random_available_port env).
Proof.
  unfold get_random_available_port.
  apply fsteps_bind; [apply fsteps_for_loop; intros _|fsteps_auto].
  unfold probe_port. fsteps_auto.
Qed.

Lemma forward_attempt_accounted (attempt : Z) (s : State) :
  accounted id s (forward_attempt env attempt s).
Proof.
  unfold accounted, forward_attempt.
  destruct (port_selection_no_process s) as (_ & d0 & Hd0 & Hq).
  apply no_process_spawned in Hq as [Hs0 Ht0].
  destruct (get_random_available_port env s) as [[port|e] s1] eqn:Hrun;
    cbn [snd] in Hd0.
  - rewrite (bind_ok _ _ _ _ _ Hrun). run.
    destruct (poll_alive env (calls s1 OpPoll)); run; [|oracle; run].
    all: cbn [trace set_trace set_calls set_local_port local_port].
    all: rewrite Hd0, <- !app_assoc.
    all: eexists; (split; [reflexivity|]).
    all: unfold accounted_for, returned_process, id.
    all: rewrite !spawned_app, !terminated_app, Hs0, Ht0; cbn.
    all: auto.
  - rewrite (bind_raise _ _ _ _ _ Hrun). cbn [fst snd].
    exists d0. split; [exact Hd0|]. cbn. rewrite Hs0, Ht0. reflexivity.
Qed.

Lemma accounted_for_app (d1 d2 : list event) (r : option nat) (port : Z) :
  accounted_for None port d1 -> accounted_for r port d2 ->
  accounted_for r port (d1 ++ d2).
Proof.
  unfold accounted_for. intros H1 H2.
  rewrite spawned_app, terminated_app, !map_app, H1.
  destruct r as [pid|].
  - destruct H2 as [H2 Hlast]. rewrite H2, app_assoc. split; [reflexivity|].
    destruct (map snd (spawned d2)) as [|x l] eqn:Hl using rev_ind.
    + apply (f_equal (@length nat)) in H2.
      rewrite length_map, length_app in H2.
      apply (f_equal (@length Z)) in Hl. rewrite length_map in Hl.
      cbn in H2, Hl. lia.
    + rewrite app_assoc, last_snoc. rewrite last_snoc in Hlast. exact Hlast.
  - rewrite H2. reflexivity.
Qed.

Lemma forward_loop_accounted (attempts : list Z) :
  forall s, accounted id s (for_loop attempts (forward_attempt env) s).
Proof.
  induction attempts as [|a attempts IH]; intros s.
  - exists []. cbn. rewrite app_nil_r. auto.
  - cbn [for_loop]. unfold bind.
    destruct (forward_attempt_accounted a s) as (d1 & Hd1 & H1).
    destruct (forward_attempt env a s) as [[[pid|]|e] s1]; cbn [fst snd] in *.
    + exists d1. auto.
    + destruct (IH s1) as (d2 & Hd2 & H2).
      exists (d1 ++ d2)%list. split; [rewrite Hd2, Hd1, app_assoc; reflexivity|].
      apply accounted_for_app; [exact H1|exact H2].
    + exists d1. auto.
Qed.

Lemma port_forward_accounted (s : State) :
  accounted Some s (port_forward_postgres env s).
Proof.
  destruct (login_phase_no_process s) as (_ & d0 & Hd0 & Hq).
  apply no_process_spawned in Hq as [Hs0 Ht0].
  destruct (login_phase env s) as [[[]|e] s1] eqn:Hlogin; cbn [snd] in Hd0.
  - rewrite (port_forward_after_login env s s1 Hlogin).
    unfold forward. rewrite (bind_ok _ _ s1 s1 s1) by reflexivity.
    destruct (forward_loop_accounted (range2 1 (max_retries s1 + 1)) s1)
      as (d1 & Hd1 & H1).
    unfold bind.
    destruct (for_loop (range2 1 (max_retries s1 + 1)) (forward_attempt env) s1)
      as [[[pid|]|e] s2]; cbn [fst snd] in *; unfold accounted; run.
    + exists (d0 ++ d1)%list.
      split; [rewrite Hd1, Hd0, app_assoc; reflexivity|].
      apply accounted_for_app; [|exact H1].
      cbn. rewrite Hs0, Ht0. reflexivity.
    + eexists (d0 ++ d1 ++ [_])%list.
      split; [rewrite Hd1, Hd0, <- !app_assoc; reflexivity|].
      apply accounted_for_app; [cbn; rewrite Hs0, Ht0; reflexivity|].
      apply accounted_for_app; [exact H1|reflexivity].
    + exists (d0 ++ d1)%list.
      split; [rewrite Hd1, Hd0, app_assoc; reflexivity|].
      apply accounted_for_app; [|exact H1].
      cbn. rewrite Hs0, Ht0. reflexivity.
  - assert (Hrun : port_forward_postgres env s = (Raise e, s1)).
    { revert Hlogin. unfold login_phase, port_forward_postgres, bind.
      destruct (backup_kube_config env s) as [[u|e0] sa]; [|congruence].
      destruct (login env sa) as [[u'|e1] sb]; [discriminate|].
      intros [= -> ->]. reflexivity. }
    rewrite Hrun. exists d0. split; [exact Hd0|].
    cbn. rewrite Hs0, Ht0. reflexivity.
Qed.

(** X3. [port_forward_postgres] leaves no forwarding process behind: in
    every run, whatever the outside world answers, each process it started
    was handed to [terminate], in the order of the starts, except the one
    it returns, which is the last one started and listens on the port kept
    in [local_port]. *)
Theorem port_forward_processes_accounted (s : State) :
  let run := port_forward_postgres env in
  let d := events_of run s in
  match outcome run s with
  | Ok pid =>
      map fst (spawned d) = (terminated d ++ [pid])%list
      /\ last (map snd (spawned d)) = Some (local_port (snd (run s)))
  | Raise _ => map fst (spawned d) = terminated d
  end.
Proof.
  intros run d.
  destruct (port_forward_accounted s) as (d' & Hd' & H).
  unfold d, events_of, outcome, run.
  rewrite (new_events_app _ _ _ Hd').
  destruct (fst (port_forward_postgres env s)) as [pid|e]; exact H.
Qed.

Lemma backup_frame :
  steps (keeps login_view config_event) (backup_kube_config env).
Proof. unfold backup_kube_config, validate_kube_config. fsteps_auto. Qed.

Lemma backup_returns (s : State) :
  exists s1, backup_kube_config env s = (Ok tt, s1).
Proof.
  unfold backup_kube_config, validate_kube_config.
  repeat (run; try match goal with
                   | |- context [match kube_config ?e ?k with _ => _ end] =>
                       destruct (kube_config e k)
                   end); eauto.
Qed.

Section LoginFails.

Hypothesis login_fails : forall k, login_returncode env k <> 0%Z.

Lemma login_attempts_fail (attempts : list Z) :
  forall s, exists s' d,
    for_loop attempts (login_attempt env) s = (Ok None, s')
    /\ login_view s' = login_view s
    /\ trace s' = (trace s ++ d)%list
    /\ logins d = length attempts
    /\ retry_sleeps d = repeat (retry_delay s) (length attempts)
    /\ spawned d = [].
Proof using login_fails.
  induction attempts as [|a attempts IH]; intros s.
  - exists s, []. cbn. rewrite app_nil_r. repeat (split; [reflexivity|]).
    reflexivity.
  - cbn [for_loop]. unfold login_attempt at 1. run.
    destruct (Z.eqb_spec (login_returncode env (calls s OpLogin)) 0)
      as [Heq|_]; [destruct (login_fails _ Heq)|].
    run.
    match goal with
    | |- context [for_loop attempts _ ?s1] =>
        destruct (IH s1) as (s' & d & Hrun & Hv & Htr & Hl & Hr & Hs)
    end.
    rewrite Hrun. eexists. eexists. split; [reflexivity|].
    split; [rewrite Hv; reflexivity|].
    split; [rewrite Htr; cbn [trace set_trace set_calls];
            rewrite <- !app_assoc; reflexivity|].
    rewrite !logins_app, !retry_sleeps_app, !spawned_app, Hl, Hr, Hs.
    repeat split.
Qed.

(** X4. When [oc login] never succeeds, [port_forward_postgres], allowed at
    least one attempt, runs it exactly [max_retries] times, pauses for
    [retry_delay] after every failure, the last one included, never starts a
    forwarding process, and raises an exception of its own. *)
Theorem login_never_succeeds (s : State) :
  (1 <= max_retries s)%Z ->
  let run := port_forward_postgres env in
  let d := events_of run s in
  (exists msg, outcome run s = Raise (PyException msg))
  /\ logins d = Z.to_nat (max_retries s)
  /\ retry_sleeps d = repeat (retry_delay s) (Z.to_nat (max_retries s))
  /\ spawned d = [].
Proof using login_fails.
  intros Hn run d.
  destruct (backup_frame s) as (Hv0 & d0 & Hd0 & Hq).
  apply config_event_quiet in Hq as (Hl0 & Hr0 & Hs0).
  destruct (backup_returns s) as (s1 & Hbackup).
  rewrite Hbackup in Hv0, Hd0. cbn [snd] in Hv0, Hd0.
  unfold login_view in Hv0. injection Hv0 as Hmax Hdelay _.
  destruct (login_attempts_fail (range2 1 (max_retries s1 + 1)) s1)
    as (s2 & d1 & Hrun & _ & Hd1 & Hl1 & Hr1 & Hs1).
  rewrite length_range2 in Hl1, Hr1.
  replace (max_retries s1 + 1 - 1)%Z with (max_retries s) in Hl1, Hr1 by lia.
  assert (Hlogin : exists msg s3,
             login env s1 = (Raise (PyException msg), s3)
             /\ exists e, trace s3 = (trace s2 ++ [EvLog Error e])%list).
  { unfold login. rewrite (bind_ok _ _ s1 s1 s1) by reflexivity.
    rewrite (bind_ok _ _ _ _ _ Hrun).
    destruct (range2 1 (max_retries s1 + 1)) as [|a l] eqn:Hrange.
    { apply (f_equal (@length Z)) in Hrange. rewrite length_range2 in Hrange.
      cbn in Hrange. lia. }
    run. eauto. }
  destruct Hlogin as (msg & s3 & Hlogin & e & Hd3).
  assert (Htotal : run s = (Raise (PyException msg), s3)).
  { unfold run, port_forward_postgres.
    rewrite (bind_ok _ _ _ _ _ Hbackup).
    rewrite (bind_raise _ _ _ _ _ Hlogin). reflexivity. }
  unfold d, events_of, outcome. rewrite Htotal. cbn [fst snd].
  split; [eauto|].
  unfold new_events.
  rewrite Hd3, Hd1, Hd0, <- !app_assoc, drop_app_length.
  rewrite !logins_app, !retry_sleeps_app, !spawned_app.
  rewrite Hl0, Hr0, Hs0, Hl1, Hr1, Hs1, Hdelay. cbn.
  rewrite Nat.add_0_r, app_nil_r. auto.
Qed.

End LoginFails.

End Facts.

(** As [Scenarios.healthy_env], but [oc login] exits with code 1. *)
Definition locked_out_env : Env :=
  {| random := random Scenarios.healthy_env;
     port_in_use := port_in_use Scenarios.healthy_env;
     kube_config := kube_config Scenarios.healthy_env;
     login_returncode := fun _ => 1%Z;
     poll_alive := poll_alive Scenarios.healthy_env;
     call_fails := call_fails Scenarios.healthy_env;
     execute_outcome := execute_outcome Scenarios.healthy_env;
     str_hash := str_hash Scenarios.healthy_env;
     re_word := re_word Scenarios.healthy_env |}.

(** Five refused logins. *)
Lemma login_never_succeeds_witness :
  let env := locked_out_env in
  let s := Scenarios.constructed in
  let run := port_forward_postgres env in
  (forall k, login_returncode env k <> 0%Z)
  /\ (1 <= max_retries s)%Z
  /\ (exists msg, outcome run s = Raise (PyException msg))
  /\ logins (events_of run s) = 5
  /\ retry_sleeps (events_of run s) = [2000; 2000; 2000; 2000; 2000]%Z
  /\ spawned (events_of run s) = [].
Proof.
  intros env s run.
  assert (H1 : forall k, login_returncode env k <> 0%Z) by (intros k; discriminate).
  assert (H2 : (1 <= max_retries s)%Z) by (cbn; lia).
  split; [exact H1|]. split; [exact H2|].
  exact (login_never_succeeds env H1 s H2).
Defined.

End ForwardFacts.

(* ===================================================================== *)
(** * Further properties: activation *)
(* ===================================================================== *)

Module ActivationFacts.

Import Driver Connector Frame Observe Run PreparedFacts Infrastructure
  ReconnectFacts HealthyFacts TunnelFacts ForwardFacts.
Local Open Scope string_scope.

(** The targets of the connection attempts, in order. *)
Definition connect_targets (t : list event) : list (string * Z) :=
  omap (fun e => match e with EvConnect host port => Some (host, port) | _ => None end) t.

(** The sizes of the pools created, in order. *)
Definition pools_created (t : list event) : list (Z * Z) :=
  omap (fun e => match e with EvPoolCreate a b => Some (a, b) | _ => None end) t.

Lemma connect_targets_app (d1 d2 : list event) :
  connect_targets (d1 ++ d2) = (connect_targets d1 ++ connect_targets d2)%list.
Proof. apply omap_app. Qed.

Lemma pools_created_app (d1 d2 : list event) :
  pools_created (d1 ++ d2) = (pools_created d1 ++ pools_created d2)%list.
Proof. apply omap_app. Qed.

(** Lines 87-89 of [__enter__]: the tunnel. *)
Definition start_tunnel (env : Env) : M unit :=
  let* s := get in
  if negb (is_ci s) then
    log Info "Attempting to start port-forwarding..." ;;;
    let* pid := port_forward_postgres env in
    modify (set_port_forward_process (Some pid))
  else ret tt.

(** Lines 92-113 of [__enter__]: the connection attempts. *)
Definition connect_with_retries (env : Env) : M unit :=
  let* s := get in
  let n := max_retries s in
  for_loop (range2 1 (n + 1)) (enter_attempt env n) ;;;
  ret tt.

Lemma enter_unfold (env : Env) :
  enter env = (start_tunnel env ;;; connect_with_retries env).
Proof. reflexivity. Qed.

Definition connection_failed : string :=
  "Failed to connect to the database after multiple retries.".

(** Neither a connection attempt nor the creation of a pool. *)
Definition no_connect (e : event) : Prop :=
  match e with EvConnect _ _ | EvPoolCreate _ _ => False | _ => True end.

(** What the construction of the tunnel leaves alone. *)
Definition tunnel_frame (s : State) :=
  (is_ci s, max_retries s, retry_delay s, connection s, connection_pool s,
   conns s).

Lemma no_connect_quiet (d : list event) :
  Forall no_connect d -> connect_targets d = [] /\ pools_created d = [].
Proof.
  induction 1 as [|e d He _ IH]; [auto|].
  destruct e; cbn in He; try exact IH; contradiction.
Qed.

Section Facts.

Variable env : Env.

Lemma start_tunnel_frame :
  steps (keeps tunnel_frame no_connect) (start_tunnel env).
Proof.
  assert (Hport : steps (keeps tunnel_frame no_connect)
                    (get_random_available_port env)).
  { unfold get_random_available_port.
    apply fsteps_bind; [apply fsteps_for_loop; intros _|fsteps_auto].
    unfold probe_port. fsteps_auto. }
  unfold start_tunnel, port_forward_postgres, backup_kube_config, login,
    login_attempt, validate_kube_config, forward, forward_attempt.
  set (select := get_random_available_port env) in *. clearbody select.
  fsteps_auto. exact Hport.
Qed.

(** A started tunnel is held by the connector. *)
Lemma start_tunnel_ok s s1 :
  start_tunnel env s = (Ok tt, s1) ->
  is_ci s = true \/ exists pid, port_forward_process s1 = Some pid.
Proof.
  unfold start_tunnel. rewrite (bind_ok _ _ s s s) by reflexivity.
  destruct (is_ci s); [auto|]. cbn [negb]. intros H. right.
  apply bind_ok_inv in H as (? & ? & _ & H).
  apply bind_ok_inv in H as (pid & s2 & _ & H).
  unfold modify in H. injection H as <-. exists pid. reflexivity.
Qed.

(** The events of the inspection of the configuration file and of the
    login. *)
Definition login_event (e : event) : Prop :=
  match e with
  | EvConnect _ _ | EvPoolCreate _ _ | EvSpawn _ _ | EvTerminate _ => False
  | _ => True
  end.

Lemma login_event_quiet (d : list event) :
  Forall login_event d ->
  connect_targets d = [] /\ pools_created d = [] /\ spawned d = [].
Proof.
  induction 1 as [|e d He _ IH]; [auto|].
  destruct e; cbn in He; try exact IH; contradiction.
Qed.

Lemma login_phase_quiet :
  steps (keeps tunnel_frame login_event) (login_phase env).
Proof.
  unfold login_phase, backup_kube_config, login, login_attempt,
    validate_kube_config.
  fsteps_auto.
Qed.

Section Healthy.

Hypothesis Henv : healthy env.

(** Symbolic execution in a healthy world. *)
Ltac healthy_run :=
  repeat (run;
          repeat match goal with
                 | Hc : is_ci ?s = _ |- context [is_ci ?s] => rewrite Hc
                 | Hp : port_forward_process ?s = _
                   |- context [port_forward_process ?s] => rewrite Hp
                 end;
          rewrite ?(kube_valid env Henv), ?(login_ok env Henv),
            ?(ports_free env Henv), ?(tunnel_alive env Henv),
            ?(connect_ok env Henv), ?(pool_create_ok env Henv);
          cbn [Z.eqb andb]).

Lemma forward_healthy (s : State) :
  (1 <= max_retries s)%Z ->
  exists s' d,
    forward env s = (Ok (calls s OpSpawn), s')
    /\ tunnel_frame s' = tunnel_frame s
    /\ trace s' = (trace s ++ d)%list
    /\ spawned d = [(calls s OpSpawn, local_port s')]
    /\ connect_targets d = [] /\ pools_created d = [].
Proof using Henv.
  intros Hn. unfold forward.
  rewrite (bind_ok _ _ s s s) by reflexivity.
  rewrite range2_cons by lia. cbn [for_loop].
  unfold forward_attempt, get_random_available_port.
  change (seq 0 100) with (0 :: seq 1 99). cbn [for_loop]. unfold probe_port.
  healthy_run.
  eexists. eexists. split; [reflexivity|]. split; [reflexivity|].
  cbn [trace set_trace set_calls set_local_port local_port].
  rewrite <- !app_assoc. split; [reflexivity|]. repeat split.
Qed.

Lemma start_tunnel_healthy (s : State) :
  (1 <= max_retries s)%Z -> is_ci s = false ->
  exists s1 pid d,
    start_tunnel env s = (Ok tt, s1)
    /\ port_forward_process s1 = Some pid
    /\ tunnel_frame s1 = tunnel_frame s
    /\ trace s1 = (trace s ++ d)%list
    /\ spawned d = [(pid, local_port s1)]
    /\ connect_targets d = [] /\ pools_created d = [].
Proof using Henv.
  intros Hn Hci. unfold start_tunnel.
  rewrite (bind_ok _ _ s s s) by reflexivity. rewrite Hci. cbn [negb].
  pose (s0 := set_trace
                (trace s ++ [EvLog Info "Attempting to start port-forwarding..."]) s).
  rewrite (bind_ok _ _ s tt s0) by reflexivity.
  assert (Hlogin : completes (login_phase env) s0).
  { unfold login_phase. apply completes_bind; [apply backup_completes, Henv|].
    intros u sa Hrun. apply login_completes; [exact Henv|].
    pose proof (isteps_backup_kube_config env s0) as (Hv & _).
    rewrite Hrun in Hv. unfold infra_view in Hv.
    injection Hv as _ Hmax _ _ _ _ _. cbn [snd] in Hmax. rewrite Hmax.
    exact Hn. }
  destruct Hlogin as ([] & s1 & Hlogin).
  destruct (login_phase_quiet s0) as (Hv1 & d1 & Hd1 & Hq1).
  rewrite Hlogin in Hv1, Hd1. cbn [snd] in Hv1, Hd1.
  rename Hv1 into Hframe1.
  assert (Hq : connect_targets d1 = [] /\ pools_created d1 = []
               /\ spawned d1 = [])
    by (apply login_event_quiet; exact Hq1).
  destruct Hq as (Hc1 & Hp1 & Hs1).
  assert (Hn1 : (1 <= max_retries s1)%Z).
  { pose proof Hframe1 as Hf. unfold tunnel_frame in Hf.
    injection Hf as _ Hmax _ _ _ _. rewrite Hmax. exact Hn. }
  destruct (forward_healthy s1 Hn1) as (s2 & d2 & Hfw & Hframe2 & Hd2 & Hs2 & Hc2 & Hp2).
  rewrite <- (port_forward_after_login env s0 s1 Hlogin) in Hfw.
  rewrite (bind_ok _ _ _ _ _ Hfw). run.
  eexists. exists (calls s1 OpSpawn). eexists.
  split; [reflexivity|]. split; [reflexivity|].
  split; [change (tunnel_frame s2 = tunnel_frame s0);
          rewrite Hframe2; exact Hframe1|].
  split.
  { cbn [trace set_port_forward_process]. rewrite Hd2, Hd1. unfold s0.
    cbn [trace set_trace]. rewrite <- !app_assoc. reflexivity. }
  rewrite !spawned_app, !connect_targets_app, !pools_created_app.
  rewrite Hc1, Hp1, Hs1, Hs2, Hc2, Hp2. repeat split.
Qed.

(** What the connection attempts leave alone. *)
Definition connect_frame (s : State) :=
  (is_ci s, max_retries s, local_port s, port_forward_process s).

Lemma connect_with_retries_healthy (s : State) :
  (1 <= max_retries s)%Z ->
  (is_ci s = true \/ exists pid, port_forward_process s = Some pid) ->
  exists s' c p d,
    connect_with_retries env s = (Ok tt, s')
    /\ connection s' = Some c /\ conn_closed s' c = false
    /\ conn_isolation_level s' c = ISOLATION_LEVEL_READ_COMMITTED
    /\ connection_pool s' = Some p
    /\ connect_frame s' = connect_frame s
    /\ trace s' = (trace s ++ d)%list
    /\ connect_targets d = [target s]
    /\ pools_created d = [(1, 10)%Z]
    /\ spawned d = [].
Proof using Henv.
  intros Hn Htunnel. unfold connect_with_retries.
  rewrite (bind_ok _ _ s s s) by reflexivity.
  rewrite range2_cons by lia. cbn [for_loop].
  unfold enter_attempt, is_port_forwarding_running, connect_to_postgres,
    create_connection_pool, set_isolation_level, target.
  destruct (is_ci s) eqn:Hci.
  - destruct (port_forward_process s) eqn:Hp.
    all: healthy_run.
    all: do 4 eexists; split; [reflexivity|].
    all: unfold conn_closed, conn_isolation_level, connect_frame.
    all: cbn [connection conns connection_pool port_forward_process is_ci
              local_port max_retries set_trace set_connection_pool set_calls
              set_conns set_connection trace].
    all: rewrite ?lookup_insert_eq; cbn [closed isolation_level].
    all: rewrite <- !app_assoc.
    all: repeat (split; [reflexivity|]).
    all: reflexivity.
  - destruct Htunnel as [?|[pid Hp]]; [discriminate|].
    healthy_run.
    do 4 eexists; split; [reflexivity|].
    unfold conn_closed, conn_isolation_level, connect_frame.
    cbn [connection conns connection_pool port_forward_process is_ci
              local_port max_retries set_trace set_connection_pool set_calls
              set_conns set_connection trace].
    rewrite ?lookup_insert_eq; cbn [closed isolation_level].
    rewrite <- !app_assoc.
    repeat (split; [reflexivity|]).
    reflexivity.
Qed.

(** X5. In a world where the infrastructure works, [__enter__], allowed at
    least one attempt, completes at the first one: the connector holds an
    open connection at the read-committed level and a pool of 1 to 10
    connections; exactly one connection attempt was made, to the target of
    the mode. Outside CI mode exactly one forwarding process was started,
    the connector holds it, and it listens on the port the connection was
    made to; in CI mode no process was started. *)
Theorem enter_healthy (s : State) :
  (1 <= max_retries s)%Z ->
  exists s' c p,
    enter env s = (Ok tt, s')
    /\ connection s' = Some c /\ conn_closed s' c = false
    /\ conn_isolation_level s' c = ISOLATION_LEVEL_READ_COMMITTED
    /\ connection_pool s' = Some p
    /\ pools_created (new_events s s') = [(1, 10)%Z]
    /\ connect_targets (new_events s s') = [target s']
    /\ if is_ci s
       then port_forward_process s' = port_forward_process s
            /\ spawned (new_events s s') = []
            /\ target s' = (CI_NODE_PORT_IP, 31021%Z)
       else exists pid,
            port_forward_process s' = Some pid
            /\ spawned (new_events s s') = [(pid, local_port s')]
            /\ target s' = ("localhost", local_port s').
Proof using Henv.
  intros Hn. rewrite enter_unfold.
  destruct (is_ci s) eqn:Hci.
  - assert (Hstart : start_tunnel env s = (Ok tt, s)).
    { unfold start_tunnel. rewrite (bind_ok _ _ s s s) by reflexivity.
      rewrite Hci. reflexivity. }
    rewrite (bind_ok _ _ _ _ _ Hstart).
    destruct (connect_with_retries_healthy s Hn (or_introl Hci))
      as (s' & c & p & d & Hrun & Hc & Ho & Hi & Hp & Hf & Hd & Hct & Hpc & Hsp).
    unfold connect_frame in Hf. injection Hf as Hci' _ Hport Hproc.
    exists s', c, p. rewrite (new_events_app _ _ _ Hd).
    repeat (split; [assumption|]).
    assert (Ht : target s' = target s)
      by (unfold target; rewrite Hci', Hport; reflexivity).
    split; [rewrite Ht; exact Hct|].
    split; [exact Hproc|]. split; [exact Hsp|].
    unfold target. rewrite Hci', Hci. reflexivity.
  - destruct (start_tunnel_healthy s Hn Hci)
      as (s1 & pid & d1 & Hstart & Hproc1 & Hf1 & Hd1 & Hs1 & Hc1 & Hp1).
    rewrite (bind_ok _ _ _ _ _ Hstart).
    unfold tunnel_frame in Hf1. injection Hf1 as Hci1 Hmax1 _ _ _ _.
    assert (Hn1 : (1 <= max_retries s1)%Z) by (rewrite Hmax1; exact Hn).
    destruct (connect_with_retries_healthy s1 Hn1
                (or_intror (ex_intro _ pid Hproc1)))
      as (s' & c & p & d & Hrun & Hc & Ho & Hi & Hp & Hf & Hd & Hct & Hpc & Hsp).
    unfold connect_frame in Hf. injection Hf as Hci' _ Hport Hproc.
    exists s', c, p.
    assert (Hev : new_events s s' = (d1 ++ d)%list).
    { apply new_events_app. rewrite Hd, Hd1, app_assoc. reflexivity. }
    rewrite Hev, !spawned_app, !connect_targets_app, !pools_created_app.
    rewrite Hc1, Hp1, Hs1, Hct, Hpc, Hsp. cbn [app].
    repeat (split; [assumption|]). split; [reflexivity|].
    assert (Ht : target s' = target s1)
      by (unfold target; rewrite Hci', Hport; reflexivity).
    split; [rewrite Ht; reflexivity|].
    exists pid. split; [rewrite Hproc; exact Hproc1|].
    split; [rewrite Hport; reflexivity|].
    unfold target. rewrite Hci', Hci1, Hci. reflexivity.
Qed.

End Healthy.

Lemma config_event_no_connect (d : list event) :
  Forall config_event d -> connect_targets d = [].
Proof.
  induction 1 as [|e d He _ IH]; [auto|].
  destruct e; cbn in He; try exact IH; contradiction.
Qed.

(** X6. A connector with [max_retries <= 0] is never activated, and the
    two modes differ in how. In CI mode [__enter__] returns normally
    without having done anything: no connection is attempted and the
    connector is left as it was. Outside CI mode it raises the
    [AttributeError] of the login step, which reads the result of a login
    that never ran; nothing was started. *)
Theorem enter_without_attempts (s : State) :
  (max_retries s <= 0)%Z ->
  if is_ci s
  then enter env s = (Ok tt, s)
  else outcome (enter env) s = Raise AttributeError
       /\ logins (events_of (enter env) s) = 0
       /\ spawned (events_of (enter env) s) = []
       /\ connect_targets (events_of (enter env) s) = [].
Proof.
  intros Hn. destruct (is_ci s) eqn:Hci.
  - unfold enter. rewrite (bind_ok _ _ s s s) by reflexivity.
    rewrite Hci. cbn [negb]. rewrite (bind_ok _ _ s tt s) by reflexivity.
    rewrite (bind_ok _ _ s s s) by reflexivity.
    rewrite range2_nil by lia. reflexivity.
  - pose (s0 := set_trace
                  (trace s ++ [EvLog Info "Attempting to start port-forwarding..."]) s).
    destruct (backup_returns env s0) as (s1 & Hbackup).
    destruct (backup_frame env s0) as (Hv & d & Hd & Hq).
    rewrite Hbackup in Hv, Hd. cbn [snd] in Hv, Hd.
    unfold login_view in Hv. injection Hv as Hmax _ _.
    assert (Hrun : enter env s
                   = (Raise AttributeError,
                      set_trace
                        (trace s1 ++
                         [EvLog Error
                            "Failed to log in to OpenShift after multiple attempts."])
                        s1)).
    { unfold enter. rewrite (bind_ok _ _ s s s) by reflexivity.
      rewrite Hci. cbn [negb].
      apply bind_raise. rewrite (bind_ok _ _ s tt s0) by reflexivity.
      apply bind_raise. unfold port_forward_postgres.
      rewrite (bind_ok _ _ _ _ _ Hbackup). apply bind_raise.
      unfold login. rewrite (bind_ok _ _ s1 s1 s1) by reflexivity.
      rewrite range2_nil by (cbn [max_retries set_trace] in Hmax; lia).
      reflexivity. }
    unfold outcome, events_of. rewrite Hrun. cbn [fst snd].
    split; [reflexivity|].
    pose proof (config_event_no_connect d Hq) as Hc.
    apply config_event_quiet in Hq as (Hl & _ & Hs).
    unfold new_events. cbn [trace set_trace]. rewrite Hd. unfold s0.
    cbn [trace set_trace]. rewrite <- !app_assoc, drop_app_length.
    rewrite !logins_app, !spawned_app, !connect_targets_app, Hl, Hs, Hc.
    repeat split.
Qed.

Section Refused.

Hypothesis connect_fails : forall k, call_fails env OpConnect k <> None.

(** What the failed attempts leave alone. *)
Definition attempt_frame (s : State) :=
  (is_ci s, retry_delay s, local_port s, port_forward_process s,
   connection s, connection_pool s).

(** The attempts numbered from [a] to [n], [k] of them. *)
Lemma refused_attempts (n : Z) (k : nat) :
  forall (a : Z) (s : State),
    (a + Z.of_nat k = n)%Z ->
    (is_ci s = true
     \/ (exists pid, port_forward_process s = Some pid)
        /\ forall j, poll_alive env j = true) ->
    exists s' d,
      for_loop (range2 a (n + 1)) (enter_attempt env n) s
      = (Raise (PyException connection_failed), s')
      /\ attempt_frame s' = attempt_frame s
      /\ trace s' = (trace s ++ d)%list
      /\ connect_targets d = repeat (target s) (S k)
      /\ retry_sleeps d = repeat (retry_delay s) k
      /\ pools_created d = [].
Proof using connect_fails.
  induction k as [|k IH]; intros a s Ha Htunnel.
  all: rewrite range2_cons by lia; cbn [for_loop].
  all: unfold enter_attempt at 1, is_port_forwarding_running,
         connect_to_postgres, target.
  all: run.
  all: destruct (is_ci s) eqn:Hci;
         [destruct (port_forward_process s) eqn:Hp
         |destruct Htunnel as [?|[[pid Hp] Halive]]; [discriminate|];
          rewrite Hp].
  all: run; rewrite ?Hci, ?Halive, ?andb_false_r; cbn [andb negb]; run.
  all: rewrite ?Hci; run.
  all: match goal with
       | |- context [call_fails env OpConnect ?i] =>
           destruct (call_fails env OpConnect i) as [e|] eqn:Hfail;
             [|destruct (connect_fails _ Hfail)]
       end.
  all: run.
  1-3: replace (a <? n)%Z with false by (symmetry; apply Z.ltb_ge; lia).
  1-3: run; eexists; eexists; split; [reflexivity|];
       (split; [unfold attempt_frame; cbn; rewrite ?Hci, ?Hp; reflexivity|]);
       cbn [trace set_trace set_calls]; rewrite <- !app_assoc;
       (split; [reflexivity|]); rewrite ?Hci; repeat split.
  all: replace (a <? n)%Z with true by (symmetry; apply Z.ltb_lt; lia).
  all: run.
  all: match goal with
       | |- context [for_loop _ _ ?s1] =>
           destruct (IH (a + 1)%Z s1) as (s' & d & Hrun & Hf & Hd & Hc & Hr & Hpc);
             [lia|cbn; rewrite ?Hci, ?Hp; eauto|]
       end.
  all: rewrite Hrun; eexists; eexists; split; [reflexivity|].
  all: split; [rewrite Hf; unfold attempt_frame; cbn; reflexivity|].
  all: rewrite Hd; cbn [trace set_trace set_calls]; rewrite <- !app_assoc.
  all: split; [reflexivity|].
  all: rewrite !connect_targets_app, !retry_sleeps_app, !pools_created_app.
  all: rewrite Hc, Hr, Hpc.
  all: unfold target; cbn [is_ci local_port retry_delay set_trace set_calls].
  all: rewrite ?Hci; repeat split.
Qed.

(** X7. When the tunnel stands (or the connector runs in CI mode) but
    every connection attempt is refused, [__enter__], allowed at least one
    attempt, makes exactly [max_retries] attempts, all to the same target,
    pauses for [retry_delay] between two attempts and not after the last,
    and raises "Failed to connect to the database after multiple
    retries."; the connector holds no connection and no pool it did not
    hold before. *)
Theorem enter_connection_refused (s s1 : State) :
  start_tunnel env s = (Ok tt, s1) ->
  (is_ci s = true \/ forall k, poll_alive env k = true) ->
  (1 <= max_retries s)%Z ->
  let s' := snd (enter env s) in
  outcome (enter env) s = Raise (PyException connection_failed)
  /\ connect_targets (events_of (enter env) s)
     = repeat (target s1) (Z.to_nat (max_retries s))
  /\ retry_sleeps (new_events s1 s')
     = repeat (retry_delay s) (Z.to_nat (max_retries s) - 1)
  /\ pools_created (events_of (enter env) s) = []
  /\ connection s' = connection s
  /\ connection_pool s' = connection_pool s.
Proof using connect_fails.
  intros Hstart Halive Hn s'.
  destruct (start_tunnel_frame s) as (Hv & d1 & Hd1 & Hq).
  rewrite Hstart in Hv, Hd1. cbn [snd] in Hv, Hd1.
  apply no_connect_quiet in Hq as [Hc1 Hp1].
  unfold tunnel_frame in Hv. injection Hv as Hci Hmax Hdelay Hconn Hpool _.
  assert (Htunnel : is_ci s1 = true
                    \/ (exists pid, port_forward_process s1 = Some pid)
                       /\ forall j, poll_alive env j = true).
  { rewrite Hci.
    destruct (start_tunnel_ok s s1 Hstart) as [?|Hp]; [auto|].
    destruct Halive as [?|Halive]; auto. }
  destruct (refused_attempts (max_retries s1) (Z.to_nat (max_retries s1 - 1))
              1%Z s1 ltac:(lia) Htunnel)
    as (s2 & d & Hrun & Hf & Hd & Hc & Hr & Hpc).
  assert (Henter : enter env s = (Raise (PyException connection_failed), s2)).
  { rewrite enter_unfold, (bind_ok _ _ _ _ _ Hstart).
    unfold connect_with_retries. rewrite (bind_ok _ _ s1 s1 s1) by reflexivity.
    apply bind_raise. exact Hrun. }
  unfold s', outcome, events_of. rewrite Henter. cbn [fst snd].
  unfold attempt_frame in Hf. injection Hf as _ _ _ _ Hconn2 Hpool2.
  split; [reflexivity|].
  rewrite (new_events_app s1 s2 d Hd).
  rewrite (new_events_app s s2 (d1 ++ d)%list)
    by (rewrite Hd, Hd1, app_assoc; reflexivity).
  rewrite !connect_targets_app, !pools_created_app, Hc1, Hp1, Hc, Hr, Hpc.
  cbn [app]. rewrite Hdelay, Hmax.
  replace (S (Z.to_nat (max_retries s - 1))) with (Z.to_nat (max_retries s))
    by lia.
  replace (Z.to_nat (max_retries s - 1)) with (Z.to_nat (max_retries s) - 1)
    by lia.
  repeat split; congruence.
Qed.

End Refused.

(** The attempts numbered from [a] to [n], [k] of them, when the
    forwarding process is found dead from now on. *)
Lemma stranded_attempts (n : Z) (k : nat) :
  forall (a : Z) (s : State) (pid : nat),
    (a + Z.of_nat k = n)%Z ->
    is_ci s = false -> port_forward_process s = Some pid ->
    (forall j, calls s OpPoll <= j -> poll_alive env j = false) ->
    exists s' d,
      for_loop (range2 a (n + 1)) (enter_attempt env n) s
      = (Raise (PyException connection_failed), s')
      /\ trace s' = (trace s ++ d)%list
      /\ connect_targets d = [] /\ spawned d = []
      /\ retry_sleeps d = repeat (retry_delay s) k
      /\ connection s' = connection s.
Proof.
  induction k as [|k IH]; intros a s pid Ha Hci Hp Hdead.
  all: rewrite range2_cons by lia; cbn [for_loop].
  all: unfold enter_attempt at 1, is_port_forwarding_running.
  all: run; rewrite Hp; run; rewrite Hci, (Hdead _ (le_n _)).
  all: cbn [andb negb]; run.
  - replace (a <? n)%Z with false by (symmetry; apply Z.ltb_ge; lia).
    run. eexists. eexists. split; [reflexivity|].
    cbn [trace set_trace set_calls]. rewrite <- ?app_assoc.
    split; [reflexivity|]. repeat split.
  - replace (a <? n)%Z with true by (symmetry; apply Z.ltb_lt; lia).
    run.
    match goal with
    | |- context [for_loop _ _ ?s1] =>
        destruct (IH (a + 1)%Z s1 pid) as (s' & d & Hrun & Hd & Hc & Hs & Hr & Hconn);
          [lia|exact Hci|exact Hp| |]
    end.
    { intros j Hj. apply Hdead. revert Hj. run. lia. }
    rewrite Hrun. eexists. eexists. split; [reflexivity|].
    rewrite Hd. cbn [trace set_trace set_calls]. rewrite <- ?app_assoc.
    split; [reflexivity|].
    rewrite !connect_targets_app, !retry_sleeps_app, !spawned_app, Hc, Hs, Hr.
    repeat split. exact Hconn.
Qed.

(** X8. [__enter__] does not restart a tunnel that died: outside CI mode,
    when the forwarding process is found dead at every check that follows
    its start, no connection is attempted and no other process is started;
    after [max_retries] checks, [retry_delay] apart, [__enter__] raises
    "Failed to connect to the database after multiple retries.". *)
Theorem enter_tunnel_lost (s s1 : State) :
  start_tunnel env s = (Ok tt, s1) ->
  is_ci s = false ->
  (forall j, calls s1 OpPoll <= j -> poll_alive env j = false) ->
  (1 <= max_retries s)%Z ->
  let s' := snd (enter env s) in
  outcome (enter env) s = Raise (PyException connection_failed)
  /\ connect_targets (events_of (enter env) s) = []
  /\ spawned (new_events s1 s') = []
  /\ retry_sleeps (new_events s1 s')
     = repeat (retry_delay s) (Z.to_nat (max_retries s) - 1)
  /\ connection s' = connection s.
Proof.
  intros Hstart Hci Hdead Hn s'.
  destruct (start_tunnel_frame s) as (Hv & d1 & Hd1 & Hq).
  rewrite Hstart in Hv, Hd1. cbn [snd] in Hv, Hd1.
  apply no_connect_quiet in Hq as [Hc1 _].
  unfold tunnel_frame in Hv. injection Hv as Hci1 Hmax Hdelay Hconn _ _.
  destruct (start_tunnel_ok s s1 Hstart) as [?|[pid Hp]]; [congruence|].
  destruct (stranded_attempts (max_retries s1) (Z.to_nat (max_retries s1 - 1))
              1%Z s1 pid ltac:(lia) ltac:(congruence) Hp Hdead)
    as (s2 & d & Hrun & Hd & Hc & Hs & Hr & Hconn2).
  assert (Henter : enter env s = (Raise (PyException connection_failed), s2)).
  { rewrite enter_unfold, (bind_ok _ _ _ _ _ Hstart).
    unfold connect_with_retries. rewrite (bind_ok _ _ s1 s1 s1) by reflexivity.
    apply bind_raise. exact Hrun. }
  unfold s', outcome, events_of. rewrite Henter. cbn [fst snd].
  split; [reflexivity|].
  rewrite (new_events_app s1 s2 d Hd).
  rewrite (new_events_app s s2 (d1 ++ d)%list)
    by (rewrite Hd, Hd1, app_assoc; reflexivity).
  rewrite !connect_targets_app, Hc1, Hc, Hs, Hr, Hdelay, Hmax.
  replace (Z.to_nat (max_retries s - 1)) with (Z.to_nat (max_retries s) - 1)
    by lia.
  repeat split; congruence.
Qed.

(** What the connection attempts and the closing of the pool and of the
    connection leave alone. *)
Definition process_frame (s : State) := (is_ci s, port_forward_process s).

Lemma connect_with_retries_no_process :
  steps (keeps process_frame no_process) (connect_with_retries env).
Proof.
  unfold connect_with_retries, enter_attempt, is_port_forwarding_running,
    connect_to_postgres, create_connection_pool, set_isolation_level.
  fsteps_auto.
Qed.

Lemma exit_pool_frame :
  steps (keeps (fun s => (process_frame s, connection s, conns s)) no_process)
    (exit_pool env).
Proof. unfold exit_pool, closeall. fsteps_auto. Qed.

Lemma exit_connection_no_process :
  steps (keeps process_frame no_process) (exit_connection env).
Proof. unfold exit_connection, close. fsteps_auto. Qed.

Lemma exit_connection_closes s s' u c :
  exit_connection env s = (Ok u, s') ->
  connection s = Some c -> conn_closed s' c = true.
Proof.
  unfold exit_connection. rewrite (bind_ok _ _ s s s) by reflexivity.
  intros H Hc. rewrite Hc in H. revert H. unfold close. run.
  destruct (call_fails env OpConnClose (calls s OpConnClose)); run;
    [discriminate|].
  intros [= _ <-]. unfold conn_closed. cbn [conns set_trace set_conns].
  rewrite lookup_insert_eq. reflexivity.
Qed.

Lemma exit_tunnel_terminates s s' u :
  exit_tunnel env s = (Ok u, s') ->
  conns s' = conns s
  /\ exists d,
       trace s' = (trace s ++ d)%list
       /\ spawned d = []
       /\ terminated d
          = match port_forward_process s with
            | Some pid => if is_ci s then [] else [pid]
            | None => []
            end.
Proof.
  unfold exit_tunnel, terminate. rewrite (bind_ok _ _ s s s) by reflexivity.
  destruct (port_forward_process s) as [pid|];
    [destruct (is_ci s)|]; cbn [negb]; run.
  2: destruct (call_fails env OpTerminate (calls s OpTerminate)); run;
       [discriminate|].
  all: intros [= _ <-]; cbn [conns trace set_trace set_calls].
  all: split; [reflexivity|].
  1,3: exists []; rewrite app_nil_r; auto.
  rewrite <- app_assoc. eexists. split; [reflexivity|]. auto.
Qed.


(** The connections on which [close] was called, in order. *)
Definition closes (t : list event) : list nat :=
  omap (fun e => match e with EvConnClose c => Some c | _ => None end) t.

Lemma closes_app (d1 d2 : list event) :
  closes (d1 ++ d2) = (closes d1 ++ closes d2)%list.
Proof. apply omap_app. Qed.

Section PoolUnavailable.

Hypothesis connect_ok : forall k, call_fails env OpConnect k = None.
Hypothesis pool_fails : forall k, call_fails env OpPoolCreate k <> None.

(** The attempts numbered from [a] to [n], [k + 1] of them: each opens a
    connection, named by the order of creation. *)
Lemma pool_failed_attempts (n : Z) (k : nat) :
  forall (a : Z) (s : State),
    (a + Z.of_nat k = n)%Z ->
    (is_ci s = true
     \/ (exists pid, port_forward_process s = Some pid)
        /\ forall j, poll_alive env j = true) ->
    exists s' d,
      for_loop (range2 a (n + 1)) (enter_attempt env n) s
      = (Raise (PyException connection_failed), s')
      /\ trace s' = (trace s ++ d)%list
      /\ length (connect_targets d) = S k
      /\ closes d = []
      /\ connection s' = Some (calls s OpConnect + k)
      /\ connection_pool s' = connection_pool s
      /\ (forall i, i <= k -> conn_closed s' (calls s OpConnect + i) = false)
      /\ (forall j, j < calls s OpConnect -> conns s' !! j = conns s !! j).
Proof using connect_ok pool_fails.
  induction k as [|k IH]; intros a s Ha Htunnel.
  all: rewrite range2_cons by lia; cbn [for_loop].
  all: unfold enter_attempt at 1, is_port_forwarding_running,
         connect_to_postgres, create_connection_pool, set_isolation_level,
         target.
  all: run.
  all: destruct (is_ci s) eqn:Hci;
         [destruct (port_forward_process s) eqn:Hp
         |destruct Htunnel as [?|[[pid Hp] Halive]]; [discriminate|];
          rewrite Hp].
  all: run; rewrite ?Hci, ?Halive, ?andb_false_r; cbn [andb negb]; run.
  all: rewrite ?Hci; run.
  all: rewrite connect_ok; run.
  all: match goal with
       | |- context [call_fails env OpPoolCreate ?i] =>
           destruct (call_fails env OpPoolCreate i) as [e|] eqn:Hfail;
             [|destruct (pool_fails _ Hfail)]
       end.
  all: run.
  1-3: replace (a <? n)%Z with false by (symmetry; apply Z.ltb_ge; lia).
  1-3: run; eexists; eexists; split; [reflexivity|];
       cbn [trace set_trace set_calls set_conns set_connection connection
            connection_pool conns];
       rewrite <- !app_assoc;
       (split; [reflexivity|]); rewrite Nat.add_0_r;
       (split; [reflexivity|]); (split; [reflexivity|]);
       (split; [reflexivity|]); (split; [reflexivity|]);
       (split;
        [intros i Hi; replace i with 0 by lia; rewrite Nat.add_0_r;
         unfold conn_closed; cbn [conns set_trace set_calls set_conns
                                  set_connection];
         rewrite lookup_insert_eq; cbn [closed];
         rewrite lookup_insert_eq; reflexivity
        |intros j Hj; rewrite !lookup_insert_ne by lia; reflexivity]).
  all: replace (a <? n)%Z with true by (symmetry; apply Z.ltb_lt; lia).
  all: run.
  all: match goal with
       | |- context [for_loop _ _ ?s1] =>
           destruct (IH (a + 1)%Z s1)
             as (s' & d & Hrun & Hd & Hc & Hcl & Hconn & Hpool & Hopen & Hold);
             [lia|cbn; rewrite ?Hci, ?Hp; eauto|]
       end.
  all: rewrite Hrun; eexists; eexists; split; [reflexivity|].
  all: revert Hd Hconn Hpool Hopen Hold;
       cbn [trace set_trace set_calls set_conns set_connection connection
            connection_pool conns calls];
       run; intros Hd Hconn Hpool Hopen Hold.
  all: rewrite Hd, <- !app_assoc.
  all: split; [reflexivity|].
  all: rewrite !connect_targets_app, !closes_app, !length_app, Hc, Hcl.
  all: split; [reflexivity|]. all: split; [reflexivity|].
  all: split; [rewrite Hconn; f_equal; lia|].
  all: split; [exact Hpool|].
  all: split;
         [intros i Hi; destruct i as [|i];
            [rewrite Nat.add_0_r; unfold conn_closed;
             rewrite Hold by lia;
             rewrite lookup_insert_eq; cbn [closed];
             unfold conn_closed;
             cbn [conns set_trace set_calls set_conns set_connection];
             rewrite lookup_insert_eq; reflexivity
            |replace (calls s OpConnect + S i) with (S (calls s OpConnect) + i)
               by lia;
             apply Hopen; lia]
         |intros j Hj; rewrite Hold by lia;
          rewrite !lookup_insert_ne by lia; reflexivity].
Qed.


End PoolUnavailable.

End Facts.

Lemma healthy_env_healthy : healthy Scenarios.healthy_env.
Proof. constructor; intros k; reflexivity. Defined.

(** A connector in CI mode, constructed and never activated. *)
Definition constructed_ci (max_retries' : Z) : State :=
  {| local_port := 30007; connection := None; connection_pool := None;
     port_forward_process := None;
     max_retries := max_retries'; retry_delay := 2000;
     is_ci := true; prepared_statements := ∅;
     conns := ∅; calls := fun _ => 0; trace := [] |}.

(** As [Scenarios.healthy_env], but the forwarding process is found alive
    at the first check only. *)
Definition dying_tunnel_env : Env :=
  {| random := random Scenarios.healthy_env;
     port_in_use := port_in_use Scenarios.healthy_env;
     kube_config := kube_config Scenarios.healthy_env;
     login_returncode := login_returncode Scenarios.healthy_env;
     poll_alive := fun k => Nat.eqb k 0;
     call_fails := call_fails Scenarios.healthy_env;
     execute_outcome := execute_outcome Scenarios.healthy_env;
     str_hash := str_hash Scenarios.healthy_env;
     re_word := re_word Scenarios.healthy_env |}.

(** The activation of a connector outside CI mode. *)
Lemma enter_healthy_witness :
  let env := Scenarios.healthy_env in
  let s := Scenarios.constructed in
  healthy env /\ (1 <= max_retries s)%Z
  /\ exists s' c p,
       enter env s = (Ok tt, s')
       /\ connection s' = Some c /\ conn_closed s' c = false
       /\ conn_isolation_level s' c = ISOLATION_LEVEL_READ_COMMITTED
       /\ connection_pool s' = Some p
       /\ pools_created (new_events s s') = [(1, 10)%Z]
       /\ connect_targets (new_events s s') = [target s']
       /\ exists pid,
            port_forward_process s' = Some pid
            /\ spawned (new_events s s') = [(pid, local_port s')]
            /\ target s' = ("localhost", local_port s').
Proof.
  intros env s.
  assert (H1 : healthy env) by exact healthy_env_healthy.
  assert (H2 : (1 <= max_retries s)%Z) by (cbn; lia).
  split; [exact H1|]. split; [exact H2|].
  exact (enter_healthy env H1 s H2).
Defined.

(** A connector in CI mode that is allowed no attempt. *)
Lemma enter_without_attempts_witness :
  let env := Scenarios.healthy_env in
  let s := constructed_ci 0 in
  (max_retries s <= 0)%Z
  /\ enter env s = (Ok tt, s) /\ connection s = None.
Proof.
  intros env s.
  assert (H : (max_retries s <= 0)%Z) by (cbn; lia).
  split; [exact H|]. split; [|reflexivity].
  exact (enter_without_attempts env s H).
Defined.

(** Five refused connections in CI mode. *)
Lemma enter_connection_refused_witness :
  let env := Scenarios.broken_env OpConnect OperationalError in
  let s := constructed_ci 5 in
  let s' := snd (enter env s) in
  (forall k, call_fails env OpConnect k <> None)
  /\ start_tunnel env s = (Ok tt, s)
  /\ (is_ci s = true \/ forall k, poll_alive env k = true)
  /\ (1 <= max_retries s)%Z
  /\ outcome (enter env) s = Raise (PyException connection_failed)
  /\ connect_targets (events_of (enter env) s)
     = repeat (target s) (Z.to_nat (max_retries s))
  /\ retry_sleeps (new_events s s')
     = repeat (retry_delay s) (Z.to_nat (max_retries s) - 1)
  /\ pools_created (events_of (enter env) s) = []
  /\ connection s' = connection s
  /\ connection_pool s' = connection_pool s.
Proof.
  intros env s s'.
  assert (H1 : forall k, call_fails env OpConnect k <> None)
    by (intros k; discriminate).
  assert (H2 : start_tunnel env s = (Ok tt, s)) by reflexivity.
  assert (H3 : is_ci s = true \/ forall k, poll_alive env k = true)
    by (left; reflexivity).
  assert (H4 : (1 <= max_retries s)%Z) by (cbn; lia).
  repeat (split; [assumption|]).
  exact (enter_connection_refused env H1 s s H2 H3 H4).
Defined.

(** A forwarding process that dies right after its start. *)
Lemma enter_tunnel_lost_witness :
  let env := dying_tunnel_env in
  let s := Scenarios.constructed in
  let s1 := snd (start_tunnel env s) in
  let s' := snd (enter env s) in
  start_tunnel env s = (Ok tt, s1)
  /\ is_ci s = false
  /\ (forall j, calls s1 OpPoll <= j -> poll_alive env j = false)
  /\ (1 <= max_retries s)%Z
  /\ outcome (enter env) s = Raise (PyException connection_failed)
  /\ connect_targets (events_of (enter env) s) = []
  /\ spawned (new_events s1 s') = []
  /\ retry_sleeps (new_events s1 s')
     = repeat (retry_delay s) (Z.to_nat (max_retries s) - 1)
  /\ connection s' = connection s.
Proof.
  intros env s s1 s'.
  assert (H1 : start_tunnel env s = (Ok tt, s1)) by (vm_compute; reflexivity).
  assert (H2 : is_ci s = false) by reflexivity.
  assert (H3 : forall j, calls s1 OpPoll <= j -> poll_alive env j = false).
  { intros j Hj. change (calls s1 OpPoll) with 1 in Hj.
    destruct j; [lia|reflexivity]. }
  assert (H4 : (1 <= max_retries s)%Z) by (cbn; lia).
  repeat (split; [assumption|]).
  exact (enter_tunnel_lost env s s1 H1 H2 H3 H4).
Defined.



End ActivationFacts.

(* ===================================================================== *)
(** * Further properties: recovery of a lost connection *)
(* ===================================================================== *)

Module RecoveryFacts.

Import Driver Connector Frame Observe Run PreparedFacts Infrastructure
  ReconnectFacts.
Local Open Scope string_scope.

(** A call on a connection object or on one of its cursors. *)
Definition on_connection (e : event) : bool :=
  match e with
  | EvConnClose _ | EvSetIsolation _ _ | EvCursorClose _ | EvExecute _ _ _
  | EvExecuteMany _ _ _ | EvCommit _ | EvRollback _ => true
  | _ => false
  end.

Definition off_connection (e : event) : Prop := on_connection e = false.

Lemma infra_off_connection (e : event) : infra e = true -> off_connection e.
Proof. destruct e; cbn; intros H; try reflexivity; discriminate. Qed.

Lemma infra_not_reconnect (d : list event) :
  Forall (fun e => infra e = true) d -> count is_reconnect d = 0.
Proof.
  induction 1 as [|e d He _ IH]; [reflexivity|].
  unfold count in *. cbn [List.filter].
  replace (is_reconnect e) with false; [exact IH|].
  destruct e as [lvl msg| | | | | | | | | | | | | | | |]; try reflexivity.
  cbn in He |- *. destruct (String.eqb msg reconnecting); [discriminate|].
  destruct lvl; reflexivity.
Qed.

Lemma infra_no_backoff (d : list event) :
  Forall (fun e => infra e = true) d -> backoff_delays d = [].
Proof.
  induction 1 as [|e d He _ IH]; [reflexivity|].
  destruct e as [|site ms| | | | | | | | | | | | | | |]; try exact IH.
  destruct site; try exact IH. discriminate.
Qed.

Section Facts.

Variable env : Env.

(** The events of [reconnect]: its opening message, then events of the
    infrastructure. *)
Lemma reconnect_events (s : State) :
  exists d,
    trace (snd (reconnect env s)) = (trace s ++ EvLog Info reconnecting :: d)%list
    /\ Forall (fun e => infra e = true) d.
Proof.
  rewrite reconnect_unfold.
  pose (s0 := set_trace (trace s ++ [EvLog Info reconnecting]) s).
  destruct (isteps_reconnect_body env s0) as (_ & d & Hd & HP).
  exists d. split; [|exact HP].
  change (trace (snd (reconnect_body env s0))
          = (trace s ++ EvLog Info reconnecting :: d)%list).
  rewrite Hd. unfold s0. cbn [trace set_trace]. rewrite <- app_assoc.
  reflexivity.
Qed.

Lemma connect_to_postgres_fresh s c s1 :
  connect_to_postgres env s = (Ok c, s1) ->
  conn_isolation_level s1 c = ISOLATION_LEVEL_DEFAULT.
Proof.
  unfold connect_to_postgres, bind, get, try_except, tick. cbn.
  destruct (target s) as [host port]. cbn.
  destruct (call_fails env OpConnect (calls s OpConnect)); cbn; [discriminate|].
  intros H. injection H as <- <-.
  unfold conn_isolation_level. cbn. rewrite lookup_insert_eq. reflexivity.
Qed.

Lemma reconnect_ok_isolation s u s' c :
  reconnect env s = (Ok u, s') -> connection s' = Some c ->
  conn_isolation_level s' c = ISOLATION_LEVEL_DEFAULT.
Proof.
  unfold reconnect. intros H Hconn.
  apply bind_ok_inv in H as (_ & sa & _ & H).
  apply bind_ok_inv in H as (? & ? & _ & H).
  apply bind_ok_inv in H as (_ & sb & _ & H).
  apply bind_ok_inv in H as (? & ? & _ & H).
  apply bind_ok_inv in H as (_ & sc & _ & H).
  apply bind_ok_inv in H as (c0 & sd & Hc & H).
  apply bind_ok_inv in H as (? & se & He & H).
  apply bind_ok_inv in H as (s2 & sf & Hget & H).
  unfold get, modify in Hget, He. simplify_eq.
  apply connect_to_postgres_fresh in Hc.
  pose proof (csteps_pool_part env (set_connection (Some c0) sd)
                (set_connection (Some c0) sd)) as [Hv _].
  rewrite H in Hv. cbn [snd] in Hv.
  unfold conn_view in Hv. injection Hv as Hconn' Hconns.
  cbn [connection set_connection] in Hconn'.
  assert (c = c0) as -> by congruence.
  unfold conn_isolation_level in *. rewrite Hconns. exact Hc.
Qed.


(** X12. [run_query] does not retry a failed reconnection: when the
    connection is lost and the reconnection at the start of the call raises,
    that exception reaches the caller as it is, after a single
    reconnection, without backoff, and no statement has been executed,
    committed or rolled back. *)
Theorem run_query_reconnect_failure
    (s : State) (e : exn) (query : string) (fetch : fetch_mode)
    (max_retries' : Z) (params : option (list pyval)) (use_prepared : bool) :
  outcome (ensure_connected env) s = Raise e ->
  let run := run_query env query fetch max_retries' params use_prepared in
  outcome run s = Raise e
  /\ count is_reconnect (events_of run s) = 1
  /\ backoff_delays (events_of run s) = []
  /\ Forall off_connection (events_of run s).
Proof.
  intros Hens run. unfold outcome in Hens.
  destruct (ensure_connected env s) as [r s1] eqn:Hrun.
  cbn [fst] in Hens. subst r.
  assert (Htotal : run s = (Raise e, s1)).
  { unfold run, run_query. apply bind_raise. exact Hrun. }
  unfold outcome, events_of. rewrite Htotal. cbn [fst snd].
  split; [reflexivity|].
  revert Hrun. unfold ensure_connected.
  rewrite (bind_ok _ _ s s s) by reflexivity.
  destruct (match connection s with
            | Some c => conn_closed s c
            | None => true
            end); [|discriminate].
  pose (s0 := set_trace
                (trace s ++
                 [EvLog Warning "Database connection is closed. Reconnecting..."]) s).
  rewrite (bind_ok _ _ s tt s0) by reflexivity.
  intros Hrec. destruct (reconnect_events s0) as (d & Hd & HP).
  rewrite Hrec in Hd. cbn [snd] in Hd.
  rewrite (new_events_app s s1
             (EvLog Warning "Database connection is closed. Reconnecting..."
              :: EvLog Info reconnecting :: d))
    by (rewrite Hd; unfold s0; cbn [trace set_trace];
        rewrite <- app_assoc; reflexivity).
  split; [|split].
  - change (S (count is_reconnect d) = 1).
    rewrite (infra_not_reconnect d HP). reflexivity.
  - change (backoff_delays d = []). apply infra_no_backoff. exact HP.
  - constructor; [reflexivity|]. constructor; [reflexivity|].
    eapply Forall_impl; [exact HP|]. apply infra_off_connection.
Qed.

End Facts.

(** A connector that was never activated, in a world where no connection
    can be made. *)
Lemma run_query_reconnect_failure_witness :
  let env := Scenarios.broken_env OpConnect OperationalError in
  let s := Scenarios.constructed in
  let run := run_query env "SELECT 1" FetchOne 3 None false in
  outcome (ensure_connected env) s = Raise OperationalError
  /\ outcome run s = Raise OperationalError
  /\ count is_reconnect (events_of run s) = 1
  /\ backoff_delays (events_of run s) = []
  /\ Forall off_connection (events_of run s).
Proof.
  intros env s run.
  assert (H : outcome (ensure_connected env) s = Raise OperationalError)
    by (vm_compute; reflexivity).
  split; [exact H|].
  exact (run_query_reconnect_failure env s OperationalError "SELECT 1" FetchOne
           3 None false H).
Defined.

Example reconnect_leaves_default_level :
  let env := Scenarios.healthy_env in
  let s := Scenarios.activated 5 in
  let s' := snd (reconnect env s) in
  conn_isolation_level s 0 = ISOLATION_LEVEL_READ_COMMITTED
  /\ connection s' = Some 1
  /\ conn_isolation_level s' 1 = ISOLATION_LEVEL_DEFAULT
  /\ conn_closed s' 0 = false.
Proof. vm_compute. repeat split; reflexivity. Qed.

End RecoveryFacts.

(* ===================================================================== *)
(** * Further properties: errors on the standard path *)
(* ===================================================================== *)

Module StandardPathFacts.

Import Driver Connector Frame Observe Run PreparedFacts HealthyFacts
  RedirectFacts RetryFacts ForwardFacts.
Local Open Scope string_scope.

Section Facts.

Variable env : Env.

Variables (s : State) (c : nat) (query : string) (fetch : fetch_mode).
Variables (max_retries' : Z) (params : option (list pyval)).
Variable use_prepared : bool.

Let q := DataHelper.escape_single_quotes (re_word env) query.
Let qt := query_type_of q.
Let run := run_query env query fetch max_retries' params use_prepared.

Hypothesis connected : connection s = Some c.
Hypothesis open : conn_closed s c = false.
Hypothesis not_bulk : is_bulk_insert q qt params = false.
Hypothesis standard : use_prepared = false \/ params = None.

Lemma run_standard :
  run s
  = match retry_loop env q qt params max_retries' (range2 0 max_retries') c s with
    | (cur', r, s1) =>
        try_finally (finish env qt fetch max_retries' r) (cursor_close cur') s1
    end.
Proof using connected open not_bulk standard.
  unfold run.
  rewrite (run_query_not_bulk env query fetch max_retries' params use_prepared
             not_bulk standard).
  fold q qt.
  rewrite (bind_ok _ _ _ _ _ (ensure_connected_open env s c connected open)).
  unfold standard_execution.
  rewrite (bind_ok _ _ _ _ _ (cursor_ok s c connected open)). reflexivity.
Qed.

(** X13. An error outside the classes caught by the retry loop ends
    [run_query] at once: when the first [execute] of a call on the standard
    path raises such an error, the statement is not sent again, nothing is
    rolled back and nothing is logged; the cursor is closed and the error
    reaches the caller as it is. *)
Theorem run_query_fatal_error (e : exn) :
  (1 <= max_retries')%Z ->
  execute_outcome env (calls s OpExecute) = ExecRaise e ->
  retryable e = false ->
  outcome run s = Raise e
  /\ events_of run s = [EvExecute c q params; EvCursorClose c].
Proof using connected open not_bulk standard.
  intros Hn Hexec Hfatal. unfold outcome, events_of. rewrite run_standard.
  rewrite range2_cons by lia. cbn [retry_loop]. unfold execute. run.
  rewrite Hexec. run. rewrite Hfatal. unfold finish. run.
  split; [reflexivity|]. events. reflexivity.
Qed.

(** X14. With [max_retries <= 0] the statement is never sent: a call on
    the standard path logs and raises "Failed to execute query after N
    attempts." without a single [execute], and closes its cursor. *)
Theorem run_query_without_attempts :
  (max_retries' <= 0)%Z ->
  outcome run s = Raise (PyException (retries_exhausted max_retries'))
  /\ events_of run s
     = [EvLog Error (retries_exhausted max_retries'); EvCursorClose c].
Proof using connected open not_bulk standard.
  intros Hn. unfold outcome, events_of. rewrite run_standard.
  rewrite range2_nil by lia. cbn [retry_loop]. unfold finish. run.
  split; [reflexivity|]. events. reflexivity.
Qed.

End Facts.

(** A statement with a syntax error. *)
Lemma run_query_fatal_error_witness :
  let env := Scenarios.failing_env ProgrammingError in
  let s := Scenarios.activated 5 in
  let run := run_query env "SELEC 1" FetchOne 3 None false in
  connection s = Some 0 /\ conn_closed s 0 = false
  /\ (1 <= 3)%Z
  /\ execute_outcome env (calls s OpExecute) = ExecRaise ProgrammingError
  /\ retryable ProgrammingError = false
  /\ outcome run s = Raise ProgrammingError
  /\ events_of run s = [EvExecute 0 "SELEC 1" None; EvCursorClose 0].
Proof.
  intros env s run.
  assert (H1 : connection s = Some 0) by reflexivity.
  assert (H2 : conn_closed s 0 = false) by reflexivity.
  assert (H3 : (1 <= 3)%Z) by lia.
  assert (H4 : execute_outcome env (calls s OpExecute) = ExecRaise ProgrammingError)
    by reflexivity.
  assert (H5 : retryable ProgrammingError = false) by reflexivity.
  repeat (split; [assumption|]).
  exact (run_query_fatal_error env s 0 "SELEC 1" FetchOne 3 None false H1 H2
           eq_refl (or_introl eq_refl) ProgrammingError H3 H4 H5).
Defined.

(** A call that allows no attempt. *)
Lemma run_query_without_attempts_witness :
  let env := Scenarios.healthy_env in
  let s := Scenarios.activated 5 in
  let run := run_query env "SELECT 1" FetchOne 0 None false in
  connection s = Some 0 /\ conn_closed s 0 = false /\ (0 <= 0)%Z
  /\ outcome run s
     = Raise (PyException "Failed to execute query after 0 attempts.")
  /\ events_of run s
     = [EvLog Error "Failed to execute query after 0 attempts.";
        EvCursorClose 0].
Proof.
  intros env s run.
  assert (H1 : connection s = Some 0) by reflexivity.
  assert (H2 : conn_closed s 0 = false) by reflexivity.
  assert (H3 : (0 <= 0)%Z) by lia.
  repeat (split; [assumption|]).
  exact (run_query_without_attempts env s 0 "SELECT 1" FetchOne 0 None false
           H1 H2 eq_refl (or_introl eq_refl) H3).
Defined.

End StandardPathFacts.

(* ===================================================================== *)
(** * Further properties: the cache of prepared statements *)
(* ===================================================================== *)

Module CacheFacts.

Import Driver Connector Frame Observe Run PreparedFacts.
Local Open Scope string_scope.

Lemma executed_cons_execute c sql params (t : list event) :
  executed (EvExecute c sql params :: t) = sql :: executed t.
Proof. reflexivity. Qed.

Lemma executed_no_execute (t : list event) :
  Forall (fun e => is_execute e = false) t -> executed t = [].
Proof.
  induction 1 as [|e t He _ IH]; [reflexivity|].
  destruct e; try discriminate; exact IH.
Qed.

Section Facts.

Variable env : Env.

(** What a successful call leaves behind. *)
Lemma successful_call s c name query params fetch :
  connection s = Some c -> conn_closed s c = false ->
  match execute_prepared_statement env name query params fetch s with
  | (Ok _, s') =>
      name ∈ prepared_statements s'
      /\ connection s' = Some c /\ conn_closed s' c = false
      /\ executed (new_events s s')
         = ((if bool_decide (name ∈ prepared_statements s) then []
             else [prepare_text name query])
            ++ [execute_text name params])%list
  | (Raise _, _) => True
  end.
Proof.
  intros Hc Ho. unfold execute_prepared_statement.
  rewrite (bind_ok _ _ _ _ _ (cursor_ok s c Hc Ho)).
  unfold prepare_and_execute, prepared_failed.
  repeat (run; rewrite ?Hc; try oracle).
  all: try exact I.
  all: unfold conn_closed in *.
  all: cbn [prepared_statements connection conns set_trace set_calls
            set_prepared_statements].
  all: split;
         [first [ match goal with
                  | H : bool_decide _ = true |- _ =>
                      apply bool_decide_eq_true in H; exact H
                  end
                | apply elem_of_union; left; apply elem_of_singleton;
                  reflexivity ]|].
  all: (split; [first [exact Hc|reflexivity]|]); (split; [exact Ho|]).
  all: events; reflexivity.
Qed.

(** X15. The registry works as a cache keyed by the name alone. A
    successful [execute_prepared_statement] sends the PREPARE only when the
    name was not registered, then the EXECUTE, and leaves the name
    registered; every later call under that name, whatever its statement
    text, sends the EXECUTE alone. *)
Theorem prepared_statement_cached
    (s : State) (c : nat) (name query : string)
    (params : option (list pyval)) (fetch : fetch_mode)
    (r : qresult) (s' : State) :
  connection s = Some c -> conn_closed s c = false ->
  execute_prepared_statement env name query params fetch s = (Ok r, s') ->
  executed (new_events s s')
  = ((if bool_decide (name ∈ prepared_statements s) then []
      else [prepare_text name query])
     ++ [execute_text name params])%list
  /\ name ∈ prepared_statements s'
  /\ forall query' params' fetch',
       executed (events_of (execute_prepared_statement env name query' params'
                              fetch') s')
       = [execute_text name params'].
Proof.
  intros Hc Ho Hrun.
  pose proof (successful_call s c name query params fetch Hc Ho) as H.
  rewrite Hrun in H. destruct H as (Hin & Hc' & Ho' & Hev).
  split; [exact Hev|]. split; [exact Hin|].
  intros query' params' fetch'.
  destruct (known_statement_executes env s' c name query' params' fetch'
              Hc' Ho' Hin) as (rest & Hev' & Hrest).
  rewrite Hev', executed_cons_execute, (executed_no_execute rest Hrest).
  reflexivity.
Qed.

(** X16. The statement name that [run_query] derives from a statement
    whose hash is negative holds a minus sign: it is ["stmt_-"] followed by
    the digits of the absolute value, and so is the name in the PREPARE
    text sent for it. *)
Theorem statement_name_of_negative_hash (query : string) :
  (str_hash env query < 0)%Z ->
  statement_name_of env query
  = "stmt_-" +:+ Py.str_of_Z (- str_hash env query)
  /\ prepare_text (statement_name_of env query) query
     = "PREPARE stmt_-" +:+ Py.str_of_Z (- str_hash env query)
       +:+ " AS " +:+ query.
Proof.
  intros Hneg. unfold statement_name_of, prepare_text, Py.str_of_Z.
  destruct (str_hash env query) as [|p|p] eqn:Hh; [lia|lia|].
  cbn [Z.opp]. split; reflexivity.
Qed.

End Facts.

(** As [Scenarios.selecting_env], but every statement hashes to -42. *)
Definition negative_hash_env : Env :=
  {| random := random Scenarios.selecting_env;
     port_in_use := port_in_use Scenarios.selecting_env;
     kube_config := kube_config Scenarios.selecting_env;
     login_returncode := login_returncode Scenarios.selecting_env;
     poll_alive := poll_alive Scenarios.selecting_env;
     call_fails := call_fails Scenarios.selecting_env;
     execute_outcome := execute_outcome Scenarios.selecting_env;
     str_hash := fun _ => (-42)%Z;
     re_word := re_word Scenarios.selecting_env |}.

(** A first call under a new name, then a call under the same name with
    another statement text. *)
Lemma prepared_statement_cached_witness :
  let env := Scenarios.selecting_env in
  let s := Scenarios.activated 5 in
  let run := execute_prepared_statement env "stmt_1" "SELECT 1" None FetchOne in
  let s' := snd (run s) in
  connection s = Some 0 /\ conn_closed s 0 = false
  /\ run s = (Ok (RRow [("id", PInt 7)]), s')
  /\ executed (new_events s s') = ["PREPARE stmt_1 AS SELECT 1"; "EXECUTE stmt_1"]
  /\ "stmt_1" ∈ prepared_statements s'
  /\ forall query' params' fetch',
       executed (events_of (execute_prepared_statement env "stmt_1" query'
                              params' fetch') s')
       = [execute_text "stmt_1" params'].
Proof.
  intros env s run s'.
  assert (H1 : connection s = Some 0) by reflexivity.
  assert (H2 : conn_closed s 0 = false) by reflexivity.
  assert (H3 : run s = (Ok (RRow [("id", PInt 7)]), s'))
    by (vm_compute; reflexivity).
  repeat (split; [assumption|]).
  exact (prepared_statement_cached env s 0 "stmt_1" "SELECT 1" None FetchOne
           (RRow [("id", PInt 7)]) s' H1 H2 H3).
Defined.

Lemma statement_name_of_negative_hash_witness :
  let env := negative_hash_env in
  (str_hash env "SELECT 1" < 0)%Z
  /\ statement_name_of env "SELECT 1" = "stmt_-42"
  /\ prepare_text (statement_name_of env "SELECT 1") "SELECT 1"
     = "PREPARE stmt_-42 AS SELECT 1".
Proof.
  intros env.
  assert (H : (str_hash env "SELECT 1" < 0)%Z) by (cbn; lia).
  split; [exact H|].
  exact (statement_name_of_negative_hash env "SELECT 1" H).
Defined.

End CacheFacts.

(* ===================================================================== *)
(** * Further properties: statements inside a transaction block *)
(* ===================================================================== *)

Module BlockFacts.

Import Driver Connector Frame Observe Run PreparedFacts Infrastructure
  ReconnectFacts RedirectFacts RetryFacts CommitFacts TransactionFacts.
Local Open Scope string_scope.

Section Facts.

Variable env : Env.

(** A successful call on the standard path, with the events it added. *)
Lemma standard_path_trace
    (s : State) (query : string) (fetch : fetch_mode) (max_retries' : Z)
    (params : option (list pyval)) (use_prepared : bool)
    (r : qresult) (s' : State) :
  let q := DataHelper.escape_single_quotes (re_word env) query in
  let qt := query_type_of q in
  is_bulk_insert q qt params = false ->
  use_prepared = false \/ params = None ->
  run_query env query fetch max_retries' params use_prepared s = (Ok r, s') ->
  exists out d,
    trace s' = (trace s ++ d)%list
    /\ count is_commit d
       = if modifies qt || negb (has_description out) then 1 else 0.
Proof.
  intros q qt Hbulk Hstd Hrun.
  rewrite (run_query_not_bulk env query fetch max_retries' params
             use_prepared Hbulk Hstd) in Hrun.
  fold q qt in Hrun.
  apply bind_ok_inv in Hrun as ([] & s0 & Hens & Hrun).
  pose proof (xsteps_ensure_connected env s) as (Hv0 & d0 & Hd0 & HP0).
  rewrite Hens in Hv0, Hd0. cbn [snd] in Hv0, Hd0.
  unfold standard_execution in Hrun.
  apply bind_ok_inv in Hrun as (cur & s0' & Hcur & Hrun).
  assert (s0' = s0) as ->.
  { revert Hcur. unfold cursor, self_connection. run.
    destruct (connection s0); [|discriminate].
    destruct (conn_closed s0 n); [discriminate|]. congruence. }
  pose proof (retry_loop_frame env q qt params max_retries'
                (range2 0 max_retries') cur s0) as Hloop.
  destruct (retry_loop env q qt params max_retries' (range2 0 max_retries')
              cur s0) as [[cur' r0] s1].
  destruct Hloop as ((d1 & Hd1 & HP1) & _).
  unfold finish in Hrun.
  destruct r0 as [[out|]|e]; run_in Hrun;
    [|discriminate Hrun|discriminate Hrun].
  exists out.
  assert (Hcount : count is_commit (d0 ++ d1) = 0).
  { rewrite count_app, (count_no_commit d0 HP0), (count_no_commit d1 HP1).
    reflexivity. }
  revert Hrun.
  destruct (modifies qt), (has_description out); cbn [orb negb]; intros Hrun.
  1,2,4: (destruct (connection s1) as [c|] eqn:Hc1; run_in Hrun;
          [|discriminate Hrun];
          destruct (call_fails env OpCommit (calls s1 OpCommit)) eqn:Hk;
          run_in Hrun; [discriminate Hrun|];
          injection Hrun as _ <-;
          exists ((d0 ++ d1) ++ [EvCommit c; EvCursorClose cur'])%list;
          split;
          [cbn [trace set_trace set_calls]; rewrite Hd1, Hd0, <- !app_assoc;
           reflexivity
          |rewrite count_app, Hcount; reflexivity]).
  run_in Hrun. injection Hrun as _ <-.
  exists ((d0 ++ d1) ++ [EvCursorClose cur'])%list. split.
  - cbn [trace set_trace]. rewrite Hd1, Hd0, <- !app_assoc. reflexivity.
  - rewrite count_app, Hcount. reflexivity.
Qed.


End Facts.


End BlockFacts.

(* ===================================================================== *)
(** * Further properties: calls on a connector without connection *)
(* ===================================================================== *)

Module UnconnectedFacts.

Import Driver Connector Frame Observe Run PreparedFacts.
Local Open Scope string_scope.

(** X18. Only [run_query] reconnects. On a connector that holds no
    connection, [batch_insert] (for a list that is not empty),
    [execute_prepared_statement] and [transaction] raise the
    [AttributeError] of the missing connection object and leave the
    connector as it was: nothing is sent or logged, no rollback is
    attempted, and the block of the transaction is not run. For an empty
    list [batch_insert] still returns [True]. *)
Theorem calls_without_connection (env : Env) (s : State) :
  connection s = None ->
  (forall table_name columns values_list batch_size,
     batch_insert env table_name columns values_list batch_size s
     = (match values_list with [] => Ok true | _ => Raise AttributeError end, s))
  /\ (forall name query params fetch,
        execute_prepared_statement env name query params fetch s
        = (Raise AttributeError, s))
  /\ (forall A (body : M A), transaction env body s = (Raise AttributeError, s)).
Proof.
  intros Hc.
  assert (Hcur : cursor s = (Raise AttributeError, s))
    by (unfold cursor, self_connection; run; rewrite Hc; reflexivity).
  split; [|split].
  - intros table_name columns [|v values_list] batch_size; [reflexivity|].
    unfold batch_insert. rewrite (bind_raise _ _ _ _ _ Hcur). reflexivity.
  - intros name query params fetch. unfold execute_prepared_statement.
    rewrite (bind_raise _ _ _ _ _ Hcur). reflexivity.
  - intros A body. unfold transaction, self_connection. run. rewrite Hc.
    reflexivity.
Qed.

Lemma calls_without_connection_witness :
  let env := Scenarios.healthy_env in
  let s := Scenarios.constructed in
  connection s = None
  /\ batch_insert env "t" ["a"] Scenarios.three_rows 1000 s
     = (Raise AttributeError, s)
  /\ batch_insert env "t" ["a"] [] 1000 s = (Ok true, s)
  /\ execute_prepared_statement env "stmt_1" "SELECT 1" None FetchOne s
     = (Raise AttributeError, s)
  /\ transaction env (execute env 0 "SELECT 1" None) s
     = (Raise AttributeError, s).
Proof.
  intros env s.
  assert (H : connection s = None) by reflexivity.
  split; [exact H|].
  destruct (calls_without_connection env s H) as (Hb & Hp & Ht).
  split; [exact (Hb "t" ["a"] Scenarios.three_rows 1000%Z)|].
  split; [exact (Hb "t" ["a"] [] 1000%Z)|].
  split; [exact (Hp "stmt_1" "SELECT 1" None FetchOne)|].
  exact (Ht exec_out (execute env 0 "SELECT 1" None)).
Defined.

End UnconnectedFacts.

(* ===================================================================== *)
(** * Further properties: escape_single_quotes *)
(* ===================================================================== *)

Module EscapeFacts.

Import DataHelper.
Local Open Scope string_scope.
Local Open Scope nat_scope.

Section Facts.

Variable is_word : ascii -> bool.

(** The apostrophe is not a word character. *)
Hypothesis quote_not_word : is_word quote = false.

(** The scan does not change what the look-ahead sees. *)
Lemma lookahead_sub_scan (prev : option ascii) (s : string) :
  lookahead_word is_word (sub_scan is_word prev s) = lookahead_word is_word s.
Proof using quote_not_word.
  destruct s as [|c rest]; [reflexivity|]. cbn [sub_scan].
  destruct (lookbehind_word is_word prev && Ascii.eqb c quote
            && lookahead_word is_word rest) eqn:Hm; [|reflexivity].
  apply andb_prop in Hm as [Hm _]. apply andb_prop in Hm as [_ Hc].
  apply Ascii.eqb_eq in Hc. subst c. cbn [lookahead_word].
  reflexivity.
Qed.

Lemma sub_scan_idempotent (s : string) :
  forall prev,
    sub_scan is_word prev (sub_scan is_word prev s) = sub_scan is_word prev s.
Proof using quote_not_word.
  induction s as [|c rest IH]; intros prev; [reflexivity|].
  cbn [sub_scan].
  destruct (lookbehind_word is_word prev && Ascii.eqb c quote
            && lookahead_word is_word rest) eqn:Hm.
  - pose proof Hm as Hm'.
    apply andb_prop in Hm' as [Hm' _]. apply andb_prop in Hm' as [_ Hc].
    apply Ascii.eqb_eq in Hc. subst c.
    cbn [sub_scan lookahead_word lookbehind_word].
    rewrite quote_not_word, !andb_false_r. cbn [andb].
    rewrite IH. reflexivity.
  - cbn [sub_scan]. rewrite lookahead_sub_scan, Hm, IH. reflexivity.
Qed.

(** X19. Escaping is idempotent: as the apostrophe is not a word
    character, a statement that went through [escape_single_quotes] comes
    out of a second pass unchanged, so that escaping once more (as
    [run_query] does on every call) never doubles an apostrophe again. *)
Theorem escape_single_quotes_idempotent (text : string) :
  escape_single_quotes is_word (escape_single_quotes is_word text)
  = escape_single_quotes is_word text.
Proof using quote_not_word. apply sub_scan_idempotent. Qed.

End Facts.

Lemma escape_single_quotes_idempotent_witness :
  ascii_word quote = false
  /\ escape_single_quotes ascii_word
       (escape_single_quotes ascii_word "SELECT 'O'Brien', 'it's'")
     = "SELECT 'O''Brien', 'it''s'".
Proof.
  assert (H : ascii_word quote = false) by reflexivity.
  split; [exact H|].
  rewrite (escape_single_quotes_idempotent ascii_word H). reflexivity.
Defined.

End EscapeFacts.

(* ===================================================================== *)
(** * Further properties: rows as mappings *)
(* ===================================================================== *)

Module RowFacts.

Import Driver Connector.
Local Open Scope string_scope.
Local Open Scope list_scope.

(** [d[k]], or [None] when the key is missing. *)
Fixpoint dict_get (k : string) (d : row_mapping) : option pyval :=
  match d with
  | [] => None
  | (k', v) :: t => if String.eqb k k' then Some v else dict_get k t
  end.

(** The field of the last column named [k]. *)
Fixpoint last_field (k : string) (ps : list (string * pyval)) : option pyval :=
  match ps with
  | [] => None
  | (k', v) :: t =>
      match last_field k t with
      | Some v' => Some v'
      | None => if String.eqb k k' then Some v else None
      end
  end.

Definition keys (d : row_mapping) : list string := map fst d.

Lemma dict_get_set (k k' : string) (v : pyval) (d : row_mapping) :
  dict_get k (dict_set k' v d)
  = if String.eqb k k' then Some v else dict_get k d.
Proof.
  induction d as [|[k0 v0] d IH]; cbn [dict_set dict_get]; [reflexivity|].
  destruct (String.eqb_spec k' k0) as [->|Hne]; cbn [dict_get].
  - destruct (String.eqb k k0); reflexivity.
  - rewrite IH. destruct (String.eqb_spec k k0) as [->|Hne'].
    + destruct (String.eqb_spec k0 k'); [congruence|reflexivity].
    + reflexivity.
Qed.

Lemma keys_set (k : string) (v : pyval) (d : row_mapping) :
  keys (dict_set k v d) = if bool_decide (k ∈ keys d) then keys d else keys d ++ [k].
Proof.
  induction d as [|[k0 v0] d IH]; cbn [dict_set]; [reflexivity|].
  destruct (String.eqb_spec k k0) as [->|Hne].
  - unfold keys. cbn [map fst]. rewrite bool_decide_eq_true_2 by left.
    reflexivity.
  - unfold keys in *. cbn [map fst]. rewrite IH.
    destruct (bool_decide (k ∈ map fst d)) eqn:Hin.
    + apply bool_decide_eq_true_1 in Hin.
      rewrite bool_decide_eq_true_2 by (right; exact Hin). reflexivity.
    + apply bool_decide_eq_false_1 in Hin.
      rewrite bool_decide_eq_false_2; [reflexivity|].
      intros [?|?]%elem_of_cons; [congruence|contradiction].
Qed.

Lemma keys_set_NoDup (k : string) (v : pyval) (d : row_mapping) :
  NoDup (keys d) -> NoDup (keys (dict_set k v d)).
Proof.
  intros Hd. rewrite keys_set.
  destruct (bool_decide (k ∈ keys d)) eqn:Hin; [exact Hd|].
  apply bool_decide_eq_false_1 in Hin.
  apply NoDup_app. split; [exact Hd|]. split.
  - intros x Hx [->|[]%elem_of_nil]%elem_of_cons. contradiction.
  - apply NoDup_singleton.
Qed.

Lemma fold_dict_set (ps : list (string * pyval)) :
  forall d,
    let d' := fold_left (fun d kv => dict_set (fst kv) (snd kv) d) ps d in
    (NoDup (keys d) -> NoDup (keys d'))
    /\ forall k, dict_get k d'
                 = match last_field k ps with
                   | Some v => Some v
                   | None => dict_get k d
                   end.
Proof.
  induction ps as [|[k0 v0] ps IH]; intros d; cbn [fold_left last_field].
  - split; [auto|reflexivity].
  - destruct (IH (dict_set k0 v0 d)) as [Hnd Hget]. cbn [fst snd]. split.
    + intros Hd. apply Hnd, keys_set_NoDup, Hd.
    + intros k. rewrite Hget, dict_get_set.
      destruct (last_field k ps); [reflexivity|].
      destruct (String.eqb k k0); reflexivity.
Qed.

(** X20. The mapping built for a row has one entry per distinct column
    name, and looking a name up gives the field of the last column of that
    name: of two columns with the same name the first one is lost. *)
Theorem row_dict_last_column_wins (column_names : list string)
    (row : list pyval) :
  NoDup (keys (row_dict column_names row))
  /\ forall k,
       dict_get k (row_dict column_names row)
       = last_field k (zip column_names row).
Proof.
  unfold row_dict, dict_of_pairs.
  destruct (fold_dict_set (zip column_names row) []) as [Hnd Hget].
  split; [apply Hnd; constructor|].
  intros k. rewrite Hget. destruct (last_field k _); reflexivity.
Qed.

Lemma fold_dict_set_fresh (ps : list (string * pyval)) :
  forall d,
    NoDup (keys d ++ map fst ps) ->
    fold_left (fun d kv => dict_set (fst kv) (snd kv) d) ps d = d ++ ps.
Proof.
  induction ps as [|[k0 v0] ps IH]; intros d Hnd; cbn [fold_left].
  - rewrite app_nil_r. reflexivity.
  - cbn [fst snd map] in *.
    assert (Hset : dict_set k0 v0 d = d ++ [(k0, v0)]).
    { apply NoDup_app in Hnd as (_ & Hdis & _).
      assert (Hk : k0 ∉ keys d) by (intros Hin; apply (Hdis k0 Hin); left).
      clear -Hk. induction d as [|[k v] d IHd]; [reflexivity|].
      cbn [dict_set]. unfold keys in Hk. cbn [map fst] in Hk.
      destruct (String.eqb_spec k0 k) as [->|Hne]; [exfalso; apply Hk; left|].
      rewrite IHd; [reflexivity|]. intros Hin. apply Hk. right. exact Hin. }
    rewrite Hset, IH.
    + rewrite <- app_assoc. reflexivity.
    + unfold keys in *. rewrite map_app, <- app_assoc. exact Hnd.
Qed.

Lemma zip_fst_NoDup {B} (xs : list string) (ys : list B) :
  NoDup xs -> NoDup (map fst (zip xs ys)).
Proof.
  revert ys. induction xs as [|x xs IH]; intros ys Hnd; [constructor|].
  destruct ys as [|y ys]; [constructor|]. cbn [zip map fst].
  apply NoDup_cons in Hnd as [Hx Hnd]. apply NoDup_cons. split; [|auto].
  intros Hin. apply Hx. clear -Hin. revert ys Hin.
  induction xs as [|x' xs IH]; intros ys Hin; [destruct ys; inversion Hin|].
  destruct ys as [|y' ys]; [inversion Hin|]. cbn [zip map fst] in Hin.
  apply elem_of_cons in Hin as [->|Hin]; [left|right; eauto].
Qed.

(** X21. When the column names are distinct, the mapping pairs the names
    with the fields in the order of the columns; the fields beyond the
    last name, like the names beyond the last field, are dropped. *)
Theorem row_dict_distinct_columns (column_names : list string)
    (row : list pyval) :
  NoDup column_names ->
  row_dict column_names row = zip column_names row
  /\ length (row_dict column_names row)
     = Nat.min (length column_names) (length row).
Proof.
  intros Hnd. unfold row_dict, dict_of_pairs.
  rewrite (fold_dict_set_fresh (zip column_names row) [])
    by (apply zip_fst_NoDup; exact Hnd).
  split; [reflexivity|]. cbn [app].
  clear Hnd. revert row.
  induction column_names as [|x xs IH]; intros [|y ys]; cbn; auto.
Qed.

Lemma row_dict_distinct_columns_witness :
  NoDup ["id"; "name"]
  /\ row_dict ["id"; "name"] [PInt 7; PStr "a"; PNone]
     = [("id", PInt 7); ("name", PStr "a")].
Proof.
  assert (H : NoDup ["id"; "name"]).
  { apply NoDup_cons. split; [|apply NoDup_singleton].
    intros Hin. apply elem_of_cons in Hin as [Heq|Hin]; [discriminate|].
    inversion Hin. }
  split; [exact H|].
  destruct (row_dict_distinct_columns ["id"; "name"] [PInt 7; PStr "a"; PNone] H)
    as [Heq _].
  rewrite Heq. reflexivity.
Defined.

End RowFacts.

(* ===================================================================== *)
(** * Further properties: the classification of a statement *)
(* ===================================================================== *)

Module QueryTypeFacts.

Import Driver Connector DataHelperFacts.
Local Open Scope string_scope.

(** Every character of the text is a space. *)
Fixpoint blank (s : string) : bool :=
  match s with
  | EmptyString => true
  | String c t => Py.is_space c && blank t
  end.

(** No character of the text is a space. *)
Fixpoint solid (s : string) : bool :=
  match s with
  | EmptyString => true
  | String c t => negb (Py.is_space c) && solid t
  end.

(** The text is empty or starts with a space. *)
Definition breaks (s : string) : bool :=
  match s with
  | EmptyString => true
  | String c _ => Py.is_space c
  end.

Lemma is_space_lower_char (c : ascii) :
  Py.is_space (Py.lower_char c) = Py.is_space c.
Proof. destruct c as [[] [] [] [] [] [] [] []]; reflexivity. Qed.

Lemma lower_app (x y : string) :
  Py.lower (x +:+ y) = Py.lower x +:+ Py.lower y.
Proof.
  induction x as [|c x IH]; [reflexivity|].
  rewrite append_cons. cbn [Py.lower]. rewrite append_cons, IH. reflexivity.
Qed.

Lemma solid_lower (w : string) : solid (Py.lower w) = solid w.
Proof.
  induction w as [|c w IH]; [reflexivity|].
  cbn [Py.lower solid]. rewrite is_space_lower_char, IH. reflexivity.
Qed.

Lemma breaks_lower (s : string) : breaks (Py.lower s) = breaks s.
Proof. destruct s as [|c s]; [reflexivity|]. apply is_space_lower_char. Qed.

Lemma lstrip_blank (ws x : string) :
  blank ws = true -> Py.lstrip (ws +:+ x) = Py.lstrip x.
Proof.
  induction ws as [|c ws IH]; [reflexivity|]. cbn [blank].
  intros [Hc Hws]%andb_prop. rewrite append_cons. cbn [Py.lstrip].
  rewrite Hc. auto.
Qed.

Lemma lstrip_solid (w x : string) :
  solid w = true -> w <> "" -> Py.lstrip (w +:+ x) = w +:+ x.
Proof.
  destruct w as [|c w]; [congruence|]. cbn [solid].
  intros [Hc _]%andb_prop _. rewrite append_cons. cbn [Py.lstrip].
  destruct (Py.is_space c); [discriminate|reflexivity].
Qed.

Lemma rstrip_solid (w x : string) :
  solid w = true -> Py.rstrip (w +:+ x) = w +:+ Py.rstrip x.
Proof.
  induction w as [|c w IH]; [reflexivity|]. cbn [solid].
  intros [Hc Hw]%andb_prop. rewrite !append_cons. cbn [Py.rstrip].
  rewrite (IH Hw).
  destruct (w +:+ Py.rstrip x); [|reflexivity].
  destruct (Py.is_space c); [discriminate|reflexivity].
Qed.

Lemma rstrip_breaks (x : string) :
  breaks x = true -> breaks (Py.rstrip x) = true.
Proof.
  destruct x as [|c x]; [reflexivity|]. cbn [breaks Py.rstrip]. intros Hc.
  destruct (Py.rstrip x); [rewrite Hc; reflexivity|exact Hc].
Qed.

Lemma split_ws_go_solid (w : string) :
  forall cur y,
    solid w = true ->
    Py.split_ws_go cur (w +:+ y)
    = Py.split_ws_go (rev (list_ascii_of_string w) ++ cur)%list y.
Proof.
  induction w as [|c w IH]; intros cur y; [reflexivity|]. cbn [solid].
  intros [Hc Hw]%andb_prop. rewrite append_cons. cbn [Py.split_ws_go].
  destruct (Py.is_space c); [discriminate|].
  rewrite (IH _ _ Hw). cbn [list_ascii_of_string rev].
  rewrite <- app_assoc. reflexivity.
Qed.

Lemma first_word (w y : string) :
  solid w = true -> w <> "" -> breaks y = true ->
  hd "" (Py.split_ws (w +:+ y)) = w.
Proof.
  intros Hw Hne Hy. unfold Py.split_ws.
  rewrite (split_ws_go_solid w [] y Hw), app_nil_r.
  assert (Hword : string_of_list_ascii (rev (rev (list_ascii_of_string w))) = w)
    by (rewrite rev_involutive; apply string_of_list_ascii_of_string).
  destruct (rev (list_ascii_of_string w)) as [|a l] eqn:Hrev.
  { destruct w; [congruence|].
    apply (f_equal (@length ascii)) in Hrev.
    rewrite length_rev in Hrev. discriminate. }
  destruct y as [|c y]; cbn [Py.split_ws_go hd].
  - exact Hword.
  - cbn [breaks] in Hy. rewrite Hy. exact Hword.
Qed.

Lemma truthy_app (w y : string) : w <> "" -> Py.truthy (w +:+ y) = true.
Proof. destruct w; [congruence|reflexivity]. Qed.



End QueryTypeFacts.

(* ===================================================================== *)
(** * Further properties: errors on the prepared-statement path *)
(* ===================================================================== *)

Module PreparedPathFacts.

Import Driver Connector Frame Observe Run PreparedFacts RedirectFacts.
Local Open Scope string_scope.



End PreparedPathFacts.

(* ===================================================================== *)
(** * Further properties: the resources across a reconnect *)
(* ===================================================================== *)

Module ResourceFacts.

Import Driver Connector Frame Observe Run PreparedFacts ForwardFacts
  ActivationFacts.
Local Open Scope string_scope.

(** The forwarding process the connector holds. *)
Definition held (s : State) : list nat :=
  match port_forward_process s with
  | Some pid => [pid]
  | None => []
  end.

(** The pools on which [closeall] was called, in order. *)
Definition pools_closed (t : list event) : list nat :=
  omap (fun e => match e with EvPoolCloseAll p => Some p | _ => None end) t.

(** What a completed [reconnect] did to the tunnel, with [d] the events
    of the run. *)
Definition tunnel_replaced (s s' : State) (d : list event) : Prop :=
  if is_ci s
  then spawned d = [] /\ terminated d = []
       /\ port_forward_process s' = port_forward_process s
  else (held s ++ map fst (spawned d) = terminated d ++ held s')%list
       /\ length (held s') = 1
       /\ last (map snd (spawned d)) = Some (local_port s').

(** What it did to the pool. *)
Definition pool_replaced (s s' : State) (d : list event) : Prop :=
  match connection_pool s with
  | Some p =>
      pools_closed d = [p] /\ pools_created d = [(1, 10)%Z]
      /\ exists p', connection_pool s' = Some p'
  | None =>
      pools_closed d = [] /\ pools_created d = []
      /\ connection_pool s' = None
  end.

(** The events of the construction of the tunnel. *)
Definition tunnel_event (e : event) : Prop :=
  match e with
  | EvConnect _ _ | EvPoolCreate _ _ | EvPoolCloseAll _ => False
  | _ => True
  end.

Lemma tunnel_event_quiet (d : list event) :
  Forall tunnel_event d ->
  connect_targets d = [] /\ pools_created d = [] /\ pools_closed d = [].
Proof.
  induction 1 as [|e d He _ IH]; [auto|].
  destruct e; cbn in He; try exact IH; contradiction.
Qed.

Lemma pools_closed_app (d1 d2 : list event) :
  pools_closed (d1 ++ d2) = (pools_closed d1 ++ pools_closed d2)%list.
Proof. apply omap_app. Qed.

Section Facts.

Variable env : Env.

Lemma port_forward_frame :
  steps (keeps tunnel_frame tunnel_event) (port_forward_postgres env).
Proof.
  assert (Hport : steps (keeps tunnel_frame tunnel_event)
                    (get_random_available_port env)).
  { unfold get_random_available_port.
    apply fsteps_bind; [apply fsteps_for_loop; intros _|fsteps_auto].
    unfold probe_port. fsteps_auto. }
  unfold port_forward_postgres, backup_kube_config, login,
    login_attempt, validate_kube_config, forward, forward_attempt.
  set (select := get_random_available_port env) in *. clearbody select.
  fsteps_auto. exact Hport.
Qed.

Lemma reconnect_accounted (s : State) :
  match reconnect env s with
  | (Ok _, s') =>
      exists d,
        trace s' = (trace s ++ d)%list
        /\ tunnel_replaced s s' d
        /\ connect_targets d = [target s']
        /\ pool_replaced s s' d
  | (Raise _, _) => True
  end.
Proof.
  unfold reconnect, connect_to_postgres, create_connection_pool.
  destruct (is_ci s) eqn:Hci.
  - (* CI mode: no tunnel *)
    destruct (port_forward_process s) as [old|] eqn:Hold;
      destruct (connection_pool s) as [p|] eqn:Hpool.
    all: unfold target.
    all: repeat (run; rewrite ?Hci, ?Hold, ?Hpool; cbn [negb]; try oracle).
    all: try exact I.
    all: eexists; cbn [trace set_trace set_calls set_conns set_connection
                       set_connection_pool];
         rewrite <- !app_assoc; (split; [reflexivity|]).
    all: unfold tunnel_replaced, pool_replaced, held, target.
    all: cbn [connection_pool port_forward_process is_ci local_port
              set_trace set_calls set_conns set_connection
              set_connection_pool].
    all: rewrite ?Hci, ?Hold, ?Hpool. all: repeat split. all: eauto.
  - (* outside CI mode *)
    destruct (port_forward_process s) as [old|] eqn:Hold;
      destruct (connection_pool s) as [p|] eqn:Hpool.
    all: unfold target.
    all: run; rewrite ?Hci, ?Hold; cbn [negb]; run; try oracle; run.
    all: try exact I.
    all: rewrite ?Hci; cbn [negb]; run.
    all: match goal with
         | |- context [port_forward_postgres env ?s0] =>
             destruct (port_forward_accounted env s0) as (d & Hd & Hacc);
             destruct (port_forward_frame s0) as (Hframe & d' & Hd' & Hq);
             destruct (port_forward_postgres env s0) as [[pid|e] s1] eqn:Hpf
         end.
    all: cbn [fst snd] in Hd, Hacc, Hframe, Hd'; run.
    all: try exact I.
    all: rewrite Hd in Hd'; apply app_inv_head in Hd'; subst d';
         apply tunnel_event_quiet in Hq as (Hq1 & Hq2 & Hq3).
    all: destruct Hacc as [Hpids Hport].
    all: unfold tunnel_frame in Hframe;
         cbn [is_ci connection_pool max_retries retry_delay connection conns
              set_trace set_calls] in Hframe;
         injection Hframe as Hci1 _ _ _ Hpool1 _;
         rewrite Hci in Hci1; rewrite Hpool in Hpool1.
    all: repeat (run; rewrite ?Hci1, ?Hpool1; cbn [negb]; try oracle).
    all: try exact I.
    all: eexists; cbn [trace set_trace set_calls set_conns set_connection
                       set_connection_pool set_port_forward_process];
         cbn [trace set_trace set_calls] in Hd;
         rewrite Hd, <- !app_assoc; (split; [reflexivity|]).
    all: unfold tunnel_replaced, pool_replaced, held, target.
    all: cbn [connection_pool port_forward_process is_ci local_port
              set_trace set_calls set_conns set_connection
              set_connection_pool set_port_forward_process].
    all: rewrite ?Hci, ?Hci1, ?Hold, ?Hpool.
    all: rewrite !spawned_app, !terminated_app, !connect_targets_app,
           !pools_created_app, !pools_closed_app, !map_app, Hpids, Hq1, Hq2,
           Hq3.
    all: cbn.
    all: rewrite ?app_nil_r.
    all: repeat split; eauto.
    all: rewrite <- ?app_assoc; reflexivity.
Qed.

(** X24. A completed [reconnect] accounts for the resources it
    replaces. Outside CI mode the process the connector held was handed to
    [terminate] before any other was started, every process started and
    given up was terminated too, and the connector holds the last one
    started, on whose port the new connection was made; in CI mode no
    process is started or terminated. Exactly one connection attempt was
    made. The pool is replaced only if there was one: [closeall] was called
    on it and a pool of 1 to 10 connections created; otherwise no pool is
    created. *)
Theorem reconnect_resources_accounted (s s' : State) :
  reconnect env s = (Ok tt, s') ->
  let d := new_events s s' in
  (if is_ci s
   then spawned d = [] /\ terminated d = []
        /\ port_forward_process s' = port_forward_process s
   else (held s ++ map fst (spawned d) = terminated d ++ held s')%list
        /\ length (held s') = 1
        /\ last (map snd (spawned d)) = Some (local_port s'))
  /\ connect_targets d = [target s']
  /\ match connection_pool s with
     | Some p =>
         pools_closed d = [p] /\ pools_created d = [(1, 10)%Z]
         /\ exists p', connection_pool s' = Some p'
     | None =>
         pools_closed d = [] /\ pools_created d = []
         /\ connection_pool s' = None
     end.
Proof.
  intros Hrun d. pose proof (reconnect_accounted s) as H.
  rewrite Hrun in H. destruct H as (d' & Hd & Htunnel & Hconnect & Hpool).
  unfold d. rewrite (new_events_app _ _ _ Hd).
  split; [exact Htunnel|]. split; [exact Hconnect|exact Hpool].
Qed.

End Facts.

(** The reconnection of an activated connector. *)
Lemma reconnect_resources_accounted_witness :
  let env := Scenarios.healthy_env in
  let s := Scenarios.activated 5 in
  let s' := snd (reconnect env s) in
  let d := new_events s s' in
  reconnect env s = (Ok tt, s')
  /\ ((held s ++ map fst (spawned d) = terminated d ++ held s')%list
      /\ length (held s') = 1
      /\ last (map snd (spawned d)) = Some (local_port s'))
  /\ terminated d = [0]
  /\ connect_targets d = [target s']
  /\ pools_closed d = [0] /\ pools_created d = [(1, 10)%Z]
  /\ exists p', connection_pool s' = Some p'.
Proof.
  intros env s s' d.
  assert (H : reconnect env s = (Ok tt, s')) by (vm_compute; reflexivity).
  split; [exact H|].
  destruct (reconnect_resources_accounted env s s' H) as (Ht & Hc & Hp).
  split; [exact Ht|]. split; [vm_compute; reflexivity|].
  split; [exact Hc|exact Hp].
Defined.

End ResourceFacts.

(* ===================================================================== *)
(** * Further properties: recovery from a transient error *)
(* ===================================================================== *)

Module RetrySuccessFacts.

Import Driver Connector Frame Observe Run PreparedFacts Infrastructure
  ReconnectFacts HealthyFacts RedirectFacts RetryFacts StandardPathFacts.
Local Open Scope string_scope.

Section Facts.

Variable env : Env.
Hypothesis Henv : healthy env.
Hypothesis commit_ok : forall k, call_fails env OpCommit k = None.

(** The first attempt, when its [execute] raises an error that the loop
    catches and another attempt is allowed. *)
Lemma first_attempt_fails (q : string) (params : option (list pyval))
    (max_retries' : Z) (s : State) (c : nat) (e : exn) :
  can_tunnel s -> connection s = Some c ->
  (2 <= max_retries')%Z ->
  execute_outcome env (calls s OpExecute) = ExecRaise e ->
  retryable e = true ->
  exists s1 cur' s2 d,
    execute env c q params s = (Raise e, s1)
    /\ after_failure env max_retries' 0 e c s1 = (Ok cur', s2)
    /\ connection s2 = Some cur'
    /\ calls s2 OpExecute = S (calls s OpExecute)
    /\ trace s2 = (trace s ++ d)%list
    /\ key_steps d
       = ([SExecute q; SRollback; SBackoff 200]
          ++ if connection_class e then [SReconnect] else [])%list.
Proof using Henv.
  intros Hs Hc Hn He Hre.
  pose (s1 := snd (execute env c q params s)).
  assert (Hexec : execute env c q params s = (Raise e, s1))
    by (subst s1; unfold execute; run; rewrite He; reflexivity).
  assert (Hc1 : connection s1 = Some c)
    by (subst s1; unfold execute; run; rewrite He; exact Hc).
  assert (Hs1 : can_tunnel s1)
    by (subst s1; unfold execute; run; rewrite He; exact Hs).
  assert (Hk1 : calls s1 OpExecute = S (calls s OpExecute))
    by (subst s1; unfold execute; run; rewrite He; run; reflexivity).
  assert (Ht1 : trace s1 = (trace s ++ [EvExecute c q params])%list)
    by (subst s1; unfold execute; run; rewrite He; reflexivity).
  clearbody s1. unfold after_failure.
  replace (0 <? max_retries' - 1)%Z with true
    by (symmetry; apply Z.ltb_lt; lia).
  rewrite andb_true_r.
  destruct (connection_class e) eqn:Hclass.
  - pose (sx := snd ((rollback c ;;;
                      log Warning ("Attempt " +:+ Py.str_of_Z (0 + 1) +:+ "/"
                                   +:+ Py.str_of_Z max_retries' +:+ " failed: "
                                   +:+ exn_str e) ;;;
                      sleep Backoff (backoff_ms 0)) s1)).
    assert (Hsx : can_tunnel sx) by exact Hs1.
    assert (Htx : trace sx
                  = (trace s1 ++ [EvRollback c;
                       EvLog Warning ("Attempt " +:+ Py.str_of_Z (0 + 1) +:+ "/"
                                      +:+ Py.str_of_Z max_retries' +:+ " failed: "
                                      +:+ exn_str e);
                       EvSleep Backoff (backoff_ms 0)])%list)
      by (subst sx; run; rewrite <- !app_assoc; reflexivity).
    destruct (reconnect_healthy env Henv sx Hsx)
      as (s' & c' & d & Hrec & Hc' & Ho' & Hv & Htr & Hd).
    exists s1, c', s'. eexists. split; [exact Hexec|].
    split.
    { run. rewrite Hc1. run.
      match goal with
      | |- context [reconnect env ?s0] =>
          change (reconnect env s0) with (reconnect env sx)
      end.
      rewrite Hrec. run. rewrite Hc'. run. rewrite Ho'. reflexivity. }
    split; [exact Hc'|]. split.
    { unfold infra_view in Hv. injection Hv as _ _ _ _ HcE _ _.
      rewrite HcE. exact Hk1. }
    split.
    { rewrite Htr, Htx, Ht1. rewrite <- !app_assoc. cbn [app]. reflexivity. }
    rewrite !key_steps_cons. cbn [key_step]. rewrite String.eqb_refl.
    rewrite (key_steps_infra d Hd). reflexivity.
  - exists s1, c. eexists. eexists.
    split; [exact Hexec|].
    split; [run; rewrite Hc1; run; reflexivity|].
    split; [exact Hc1|]. split; [exact Hk1|].
    split; [cbn [trace set_trace]; rewrite Ht1, <- !app_assoc; cbn [app];
            reflexivity|].
    reflexivity.
Qed.


End Facts.

(** As [Scenarios.healthy_env], but the first [execute] raises [e]. *)
Definition hiccup_env (e : exn) : Env :=
  {| random := random Scenarios.healthy_env;
     port_in_use := port_in_use Scenarios.healthy_env;
     kube_config := kube_config Scenarios.healthy_env;
     login_returncode := login_returncode Scenarios.healthy_env;
     poll_alive := poll_alive Scenarios.healthy_env;
     call_fails := call_fails Scenarios.healthy_env;
     execute_outcome := fun k =>
       match k with
       | 1 => ExecRaise e
       | _ => ExecOk Scenarios.one_row
       end;
     str_hash := str_hash Scenarios.healthy_env;
     re_word := re_word Scenarios.healthy_env |}.

Lemma hiccup_env_healthy (e : exn) : healthy (hiccup_env e).
Proof. constructor; intros k; reflexivity. Defined.


End RetrySuccessFacts.

(* ===================================================================== *)
(** * db/insert_queries/generate_insert_sql_queries.py *)
(* ===================================================================== *)

Module InsertQueries.

Local Open Scope string_scope.

(** The values of a body: a [str], [None], or an [int]. *)
Inductive field : Type :=
| FStr (s : string)
| FNone
| FInt (n : Z).

(** One value of the VALUES list (line 25). *)
Definition render (v : field) : string :=
  match v with
  | FStr s => "'" +:+ s +:+ "'"
  | FNone => "NULL"
  | FInt n => Py.str_of_Z n
  end.

(** [generate_query] (lines 10-26); the body is a [dict], given by its
    items in insertion order. *)
Definition generate_query (table_name : string) (body : list (string * field))
  : string :=
  match body with
  | [] => ""
  | _ =>
      let columns := Py.join ", " (map fst body) in
      let values := Py.join ", " (map (fun kv => render (snd kv)) body) in
      "@INSERT INTO " +:+ table_name +:+ " (" +:+ columns +:+ ") VALUES ("
        +:+ values +:+ ");"
  end.

End InsertQueries.

(* ===================================================================== *)
(** * Further properties: generated statements and their escaping *)
(* ===================================================================== *)

Module InsertQueryFacts.

Import DataHelper DataHelperFacts InsertQueries.
Local Open Scope string_scope.

(** No character of the text is an apostrophe. *)
Fixpoint plain (s : string) : bool :=
  match s with
  | EmptyString => true
  | String c t => negb (Ascii.eqb c quote) && plain t
  end.

(** The last character of [x], or [prev] when [x] is empty. *)
Fixpoint last_of (prev : option ascii) (x : string) : option ascii :=
  match x with
  | EmptyString => prev
  | String c t => last_of (Some c) t
  end.

Lemma app_assoc' (x y z : string) : (x +:+ y) +:+ z = x +:+ (y +:+ z).
Proof.
  induction x as [|c x IH]; [reflexivity|].
  rewrite !append_cons, IH. reflexivity.
Qed.

Section Facts.

Variable is_word : ascii -> bool.

Abbreviation escape := (escape_single_quotes is_word).
Abbreviation scan := (sub_scan is_word).

(** [prev] lets no apostrophe after it match. *)
Definition closed_left (prev : option ascii) : Prop :=
  lookbehind_word is_word prev = false.

(** [z] lets no apostrophe before it match. *)
Definition closed_right (z : string) : Prop :=
  lookahead_word is_word z = false.

(** The scan of a text depends on what precedes it only through the
    look-behind of its first character. *)
Lemma scan_closed_left (prev : option ascii) (y : string) :
  closed_left prev -> scan prev y = scan None y.
Proof.
  unfold closed_left. intros Hp. destruct y as [|c y]; [reflexivity|].
  cbn [sub_scan lookbehind_word]. rewrite Hp. reflexivity.
Qed.

(** The scan of a text followed by a closed text. *)
Lemma scan_app (x z : string) :
  closed_right z ->
  forall prev, scan prev (x +:+ z) = scan prev x +:+ scan (last_of prev x) z.
Proof.
  unfold closed_right. intros Hz.
  induction x as [|c x IH]; intros prev; [reflexivity|].
  rewrite append_cons. cbn [sub_scan last_of].
  assert (Hla : lookahead_word is_word (x +:+ z) = lookahead_word is_word x).
  { destruct x as [|c' x']; [exact Hz|reflexivity]. }
  rewrite Hla, IH.
  destruct (lookbehind_word is_word prev && Ascii.eqb c quote
            && lookahead_word is_word x); reflexivity.
Qed.

(** A text without apostrophe is copied. *)
Lemma scan_plain (p : string) :
  plain p = true -> forall prev z, scan prev (p +:+ z) = p +:+ scan (last_of prev p) z.
Proof.
  induction p as [|c p IH]; intros Hp prev z; [reflexivity|].
  cbn [plain] in Hp. apply andb_prop in Hp as [Hc Hp].
  rewrite append_cons. cbn [sub_scan last_of].
  apply negb_true_iff in Hc. rewrite Hc, andb_false_r. cbn [andb].
  rewrite (IH Hp). reflexivity.
Qed.

(** A separator: a text without apostrophe that starts and ends with a
    character that is not a word character. *)
Definition separator (p : string) : Prop :=
  plain p = true
  /\ closed_right p
  /\ p <> ""
  /\ forall prev, closed_left (last_of prev p).

Lemma scan_separator (p : string) :
  separator p -> forall prev z, scan prev (p +:+ z) = p +:+ scan None z.
Proof.
  intros (Hplain & _ & _ & Hlast) prev z.
  rewrite (scan_plain p Hplain), (scan_closed_left _ z (Hlast prev)).
  reflexivity.
Qed.

Lemma separator_closed_right (p z : string) :
  separator p -> closed_right (p +:+ z).
Proof.
  intros (_ & Hfirst & Hne & _). destruct p as [|c p]; [congruence|].
  exact Hfirst.
Qed.

(** A text between what is closed on its left and a separator is escaped
    on its own. *)
Lemma scan_payload (x p : string) :
  separator p ->
  forall prev z,
    closed_left prev ->
    scan prev (x +:+ p +:+ z) = escape x +:+ p +:+ scan None z.
Proof.
  intros Hp prev z Hprev.
  rewrite (scan_app x (p +:+ z) (separator_closed_right p z Hp)).
  rewrite (scan_closed_left prev x Hprev), (scan_separator p Hp).
  reflexivity.
Qed.

Hypothesis quote_not_word : is_word quote = false.

(** A quoted text: the apostrophes that delimit it are never doubled. *)
Lemma scan_quoted (v p : string) :
  separator p ->
  forall prev z,
    closed_left prev ->
    scan prev ("'" +:+ v +:+ "'" +:+ p +:+ z)
    = "'" +:+ escape v +:+ "'" +:+ p +:+ scan None z.
Proof using quote_not_word.
  intros Hp prev z Hprev.
  change ("'" +:+ v +:+ "'" +:+ p +:+ z)
    with (String quote (v +:+ String quote (p +:+ z))).
  cbn [sub_scan]. unfold closed_left in Hprev. rewrite Hprev. cbn [andb].
  change ("'" +:+ escape v +:+ "'" +:+ p +:+ scan None z)
    with (String quote (escape v +:+ String quote (p +:+ scan None z))).
  f_equal.
  rewrite (scan_app v (String quote (p +:+ z))) by exact quote_not_word.
  rewrite (scan_closed_left (Some quote) v) by exact quote_not_word.
  f_equal. cbn [sub_scan].
  rewrite (separator_closed_right p z Hp), andb_false_r.
  rewrite (scan_separator p Hp). reflexivity.
Qed.

(** The value as it stands in the escaped statement. *)
Definition escaped_render (v : field) : string :=
  match v with
  | FStr s => "'" +:+ escape s +:+ "'"
  | FNone => "NULL"
  | FInt n => escape (Py.str_of_Z n)
  end.

Lemma scan_render (v : field) (p : string) :
  separator p ->
  forall prev z,
    closed_left prev ->
    scan prev (render v +:+ p +:+ z) = escaped_render v +:+ p +:+ scan None z.
Proof using quote_not_word.
  intros Hp prev z Hprev. destruct v as [s| |n]; cbn [render escaped_render].
  - rewrite !app_assoc'. apply scan_quoted; assumption.
  - rewrite (scan_plain "NULL" eq_refl), (scan_separator p Hp). reflexivity.
  - apply scan_payload; assumption.
Qed.

Hypothesis punctuation :
  forall c, In c [" "; "("; ")"; ","; ";"; "@"]%char -> is_word c = false.

Ltac punct := apply punctuation; cbn; tauto.

Lemma separator_comma : separator ", ".
Proof using punctuation.
  split; [reflexivity|]. split; [unfold closed_right; cbn; punct|].
  split; [discriminate|]. intros prev. unfold closed_left. cbn. punct.
Qed.

(** A list joined by [", "], each element being handled by [g]. *)
Lemma scan_join {A} (f g : A -> string) (p : string) :
  separator p ->
  (forall a q prev z,
     separator q -> closed_left prev ->
     scan prev (f a +:+ q +:+ z) = g a +:+ q +:+ scan None z) ->
  forall (l : list A) prev z,
    l <> [] -> closed_left prev ->
    scan prev (Py.join ", " (map f l) +:+ p +:+ z)
    = Py.join ", " (map g l) +:+ p +:+ scan None z.
Proof using punctuation.
  intros Hp Hf l. induction l as [|a l IH]; intros prev z Hne Hprev;
    [congruence|].
  destruct l as [|b l].
  - cbn [map Py.join String.concat]. apply Hf; assumption.
  - unfold Py.join in *. cbn [map String.concat] in *.
    rewrite !app_assoc'.
    rewrite (Hf a ", " prev _ separator_comma Hprev). f_equal. f_equal.
    apply IH; [discriminate|reflexivity].
Qed.

(** X26. The escaping that [run_query] applies to a statement built by
    [generate_query] acts on each name and on each value separately: the
    result is the statement built from the escaped table name, the escaped
    column names and the escaped values. The apostrophes that delimit a
    string value are never doubled, whatever the value. *)
Theorem escape_generated_query (table_name : string)
    (body : list (string * field)) :
  body <> [] ->
  escape (generate_query table_name body)
  = "@INSERT INTO " +:+ escape table_name +:+ " ("
    +:+ Py.join ", " (map (fun kv => escape (fst kv)) body)
    +:+ ") VALUES ("
    +:+ Py.join ", " (map (fun kv => escaped_render (snd kv)) body)
    +:+ ");".
Proof using quote_not_word punctuation.
  intros Hne. unfold generate_query.
  destruct body as [|kv body]; [congruence|].
  set (l := kv :: body) in *. clearbody l. clear kv body.
  assert (S1 : separator "@INSERT INTO ").
  { split; [reflexivity|]. split; [unfold closed_right; cbn; punct|].
    split; [discriminate|]. intros prev. unfold closed_left. cbn. punct. }
  assert (S2 : separator " (").
  { split; [reflexivity|]. split; [unfold closed_right; cbn; punct|].
    split; [discriminate|]. intros prev. unfold closed_left. cbn. punct. }
  assert (S3 : separator ") VALUES (").
  { split; [reflexivity|]. split; [unfold closed_right; cbn; punct|].
    split; [discriminate|]. intros prev. unfold closed_left. cbn. punct. }
  assert (S4 : separator ");").
  { split; [reflexivity|]. split; [unfold closed_right; cbn; punct|].
    split; [discriminate|]. intros prev. unfold closed_left. cbn. punct. }
  unfold escape_single_quotes.
  rewrite (scan_separator _ S1). f_equal.
  rewrite (scan_payload table_name _ S2) by reflexivity. f_equal. f_equal.
  rewrite (scan_join fst (fun kv => escape (fst kv)) _ S3)
    by (try reflexivity; try exact Hne;
        intros a q prev z Hq Hprev; apply scan_payload; assumption).
  f_equal. f_equal.
  rewrite <- (append_empty_r (");")) at 1.
  rewrite (scan_join (fun kv => render (snd kv))
             (fun kv => escaped_render (snd kv)) _ S4)
    by (try reflexivity; try exact Hne;
        intros a q prev z Hq Hprev; apply scan_render; assumption).
  cbn [sub_scan]. rewrite append_empty_r. reflexivity.
Qed.

End Facts.

Lemma escape_generated_query_witness :
  let body := [("name", FStr "O'Brien"); ("note", FStr "it's 'x'");
               ("age", FNone)] in
  ascii_word quote = false
  /\ (forall c, In c [" "; "("; ")"; ","; ";"; "@"]%char -> ascii_word c = false)
  /\ body <> []
  /\ escape_single_quotes ascii_word (generate_query "owner" body)
     = "@INSERT INTO owner (name, note, age) VALUES ('O''Brien', 'it''s 'x'', NULL);".
Proof.
  intros body.
  assert (H1 : ascii_word quote = false) by reflexivity.
  assert (H2 : forall c, In c [" "; "("; ")"; ","; ";"; "@"]%char
                         -> ascii_word c = false).
  { intros c Hc. cbn in Hc.
    repeat (destruct Hc as [<-|Hc]; [reflexivity|]). destruct Hc. }
  assert (H3 : body <> []) by discriminate.
  split; [exact H1|]. split; [exact H2|]. split; [exact H3|].
  rewrite (escape_generated_query ascii_word H1 H2 "owner" body H3).
  reflexivity.
Defined.

End InsertQueryFacts.

(* ===================================================================== *)
(** * Further properties: rows on the prepared-statement path *)
(* ===================================================================== *)

Module PreparedRowsFacts.

Import Driver Connector Frame Observe Run PreparedFacts RedirectFacts.
Local Open Scope string_scope.

(** X27. On the prepared-statement path the commit depends on the result
    set alone: a statement whose EXECUTE delivers a result-set description
    is never committed, whatever its type, an INSERT, UPDATE or DELETE with
    a RETURNING clause included. The call sends the PREPARE when the name
    is not registered, then the EXECUTE, closes the cursor and returns the
    rows; it neither commits nor rolls back. *)
Theorem prepared_rows_not_committed (env : Env)
    (s : State) (c : nat) (query : string) (fetch : fetch_mode)
    (max_retries' : Z) (ps : list pyval) (out : exec_out) :
  let q := DataHelper.escape_single_quotes (re_word env) query in
  let qt := query_type_of q in
  let name := statement_name_of env q in
  let known := bool_decide (name ∈ prepared_statements s) in
  let run := run_query env query fetch max_retries' (Some ps) true in
  connection s = Some c -> conn_closed s c = false ->
  is_bulk_insert q qt (Some ps) = false ->
  (known = false ->
   exists out0, execute_outcome env (calls s OpExecute) = ExecOk out0) ->
  execute_outcome env
    (if known then calls s OpExecute else S (calls s OpExecute)) = ExecOk out ->
  has_description out = true ->
  outcome run s = Ok (fetch_result fetch out)
  /\ events_of run s
     = ((if known then [] else [EvExecute c (prepare_text name q) None])
        ++ [EvExecute c (execute_text name (Some ps)) (bound_params (Some ps))]
        ++ (if slow out
            then [EvLog Error ("Slow prepared statement detected: " +:+ name)]
            else [])
        ++ [EvCursorClose c])%list.
Proof.
  intros q qt name known run Hc Ho Hbulk Hprep Hexec Hdesc.
  unfold run, outcome, events_of, run_query, batch_redirect. fold q qt.
  rewrite Hbulk.
  rewrite !(bind_ok _ _ _ _ _ (ensure_connected_open env s c Hc Ho)).
  rewrite !(bind_ok _ _ s None s) by reflexivity.
  unfold single_statement, execute_prepared_statement. fold name.
  rewrite !(bind_ok _ _ _ _ _ (cursor_ok s c Hc Ho)).
  unfold prepare_and_execute, prepared_failed. run. fold known.
  destruct known.
  - run. rewrite Hexec. run. destruct (slow out); run; rewrite Hdesc; run.
    all: split; [reflexivity|]; events; reflexivity.
  - destruct (Hprep eq_refl) as (out0 & Hout0).
    run. rewrite Hout0. run. rewrite Hexec. run.
    destruct (slow out); run; rewrite Hdesc; run.
    all: split; [reflexivity|]; events; reflexivity.
Qed.

(** An INSERT with a RETURNING clause, under a name not seen before. *)
Lemma prepared_rows_not_committed_witness :
  let env := Scenarios.selecting_env in
  let s := Scenarios.activated 5 in
  let query := "INSERT INTO t (a) VALUES (%s) RETURNING id" in
  let run := run_query env query FetchOne 3 (Some [PInt 1]) true in
  connection s = Some 0 /\ conn_closed s 0 = false
  /\ modifies (query_type_of query) = true
  /\ outcome run s = Ok (RRow [("id", PInt 7)])
  /\ events_of run s
     = [EvExecute 0
          "PREPARE stmt_42 AS INSERT INTO t (a) VALUES (%s) RETURNING id" None;
        EvExecute 0 "EXECUTE stmt_42($1)" (Some [PInt 1]);
        EvCursorClose 0].
Proof.
  intros env s query run.
  assert (H1 : connection s = Some 0) by reflexivity.
  assert (H2 : conn_closed s 0 = false) by reflexivity.
  split; [exact H1|]. split; [exact H2|]. split; [reflexivity|].
  exact (prepared_rows_not_committed env s 0 query FetchOne 3 [PInt 1]
           Scenarios.one_row H1 H2 eq_refl
           (fun _ => ex_intro _ Scenarios.one_row eq_refl) eq_refl eq_refl).
Defined.

End PreparedRowsFacts.

(* ===================================================================== *)
(** * Further properties: a commit that fails during a batch insert *)
(* ===================================================================== *)

Module BatchCommitFacts.

Import Driver Connector Frame Observe Run PreparedFacts BatchFacts.
Local Open Scope string_scope.

Lemma send_chunks_commit_fails env c sql e :
  forall k chunks ch i_exec i_commit,
    chunks !! k = Some ch ->
    quiet env i_exec i_commit k ->
    call_fails env OpExecuteMany (i_exec + k) = None ->
    call_fails env OpCommit (i_commit + k) = Some e ->
    send_chunks env c sql i_exec i_commit chunks
    = (Some e,
       (committed_chunks c sql (take k chunks)
        ++ [EvExecuteMany c sql ch; EvCommit c])%list).
Proof.
  induction k as [|k IH]; intros chunks ch i_exec i_commit Hk Hq Hx He;
    destruct chunks as [|ch0 chunks]; try discriminate.
  - cbn in Hk. injection Hk as ->. rewrite Nat.add_0_r in Hx, He.
    cbn [send_chunks]. rewrite Hx, He. reflexivity.
  - cbn in Hk. apply quiet_tail in Hq as (H1 & H2 & Hq).
    cbn [send_chunks]. rewrite H1, H2.
    rewrite (IH chunks ch (S i_exec) (S i_commit) Hk Hq)
      by (rewrite Nat.add_succ_l, <- Nat.add_succ_r; assumption).
    reflexivity.
Qed.



End BatchCommitFacts.
